(** * Verification of the GIN index checker of contrib/amcheck (verify_gin.c)

    A shallow embedding of the functions of verify_gin.c:
    [ginReadTupleWithoutState], [check_index_page], [gin_refind_parent],
    [validate_leaf], [gin_check_posting_tree_parent_keys_consistency] and
    [gin_check_parent_keys_consistency], followed by the properties of the
    checker that the specification states about them, and by more that the
    code shows, among them some of the earlier revision of the walk of the
    entry tree that the file comes with.

    Conventions of the embedding.
    - C integers are [Z]; the loops over offsets run over [1 .. maxoff], and
      the depth of an item stays far from the overflow of an [int].
    - [ereport(ERROR, ...)] and [elog(ERROR, ...)] end the call: they are the
      [Raise] outcome.  [elog(INFO, ...)] and [elog(NOTICE, ...)] append to a
      log that is threaded through the walk.
    - An access outside an array and the dereference of a null pointer are
      undefined behaviour in C: they are the [Undefined] outcome.  The
      macros that read a line pointer, a tuple or a posting item of a page
      are functions of the page and the offset here; what the C code reads
      where the offset is beyond what the page holds is not modelled, and
      no property below is about it.
    - The two [while (stack)] loops need not end on a corrupted index (a
      downlink may point back to an ancestor): they take fuel, and
      [OutOfFuel] is the outcome of a walk that has not ended yet.
    - [Assert] is compiled out of production builds and is not modelled;
      palloc/pfree and buffer pins and locks have no observable effect on
      the outcome and are not modelled either; no interrupt is pending at
      [CHECK_FOR_INTERRUPTS]. *)

From Stdlib Require Import ZArith List Bool Lia.
From Stdlib.Strings Require Import Byte.
Import ListNotations.
Open Scope Z_scope.

(** ** Outcomes of a call *)

Definition BlockNumber := Z.
Definition OffsetNumber := Z.

(** The messages of the [ereport(ERROR, ...)] and [elog(ERROR, ...)] calls of
    verify_gin.c, with the values they print. *)
Inductive ErrorData : Type :=
| items_mismatch (nipd ndecoded : Z)
    (* "number of items mismatch in GIN entry tuple, %d in tuple header, %d decoded" *)
| leaf_page_unexpected (blkno : BlockNumber)
    (* "internal pages traversal encountered leaf page unexpectedly on block %u" *)
| invalid_heap_pointer (blkno : BlockNumber)
    (* "posting list contains invalid heap pointer on block %u" *)
| inconsistent_tuple_sizes (blkno : BlockNumber) (offset : OffsetNumber)
    (* "has inconsistent tuple sizes, block %u, offset %u" *)
| wrong_tuple_order (blkno : BlockNumber) (offset : OffsetNumber)
    (* "has wrong tuple order, block %u, offset %u" *)
| inconsistent_records (blkno : BlockNumber) (offset : OffsetNumber)
    (* "has inconsistent records on page %u offset %u" *)
| deleted_internal_page (blkno : BlockNumber)
    (* "has deleted internal page %d" *)
| deleted_page_with_tuples (blkno : BlockNumber)
    (* "has deleted page %d with tuples" *)
| exceeding_count_of_tuples (blkno : BlockNumber)
    (* "has page %d with exceeding count of tuples" *)
| line_pointer_invalid (blkno : BlockNumber) (offset : OffsetNumber)
    (* raised inside PageGetItemIdCareful *)
| read_failed (blkno : BlockNumber).
    (* raised inside ReadBufferExtended *)

(** The error code each message is reported with: every [ereport] of the file
    uses ERRCODE_INDEX_CORRUPTED; [elog(ERROR, ...)] reports an internal
    error; the two collaborators report their own. *)
Inductive ErrCode : Type :=
| ERRCODE_INDEX_CORRUPTED
| ERRCODE_INTERNAL_ERROR
| ERRCODE_OTHER.

Definition errcode (e : ErrorData) : ErrCode :=
  match e with
  | items_mismatch _ _ => ERRCODE_INTERNAL_ERROR
  | leaf_page_unexpected _ | invalid_heap_pointer _
  | inconsistent_tuple_sizes _ _ | wrong_tuple_order _ _
  | inconsistent_records _ _ | deleted_internal_page _
  | deleted_page_with_tuples _ | exceeding_count_of_tuples _ =>
      ERRCODE_INDEX_CORRUPTED
  | line_pointer_invalid _ _ | read_failed _ => ERRCODE_OTHER
  end.

(** The block a message names, when it names one. *)
Definition error_block (e : ErrorData) : option BlockNumber :=
  match e with
  | items_mismatch _ _ => None
  | leaf_page_unexpected b | invalid_heap_pointer b
  | inconsistent_tuple_sizes b _ | wrong_tuple_order b _
  | inconsistent_records b _ | deleted_internal_page b
  | deleted_page_with_tuples b | exceeding_count_of_tuples b
  | line_pointer_invalid b _ | read_failed b => Some b
  end.

(** What C leaves undefined and the checker can run into. *)
Inductive UndefinedBehaviour : Type :=
| array_out_of_bounds (index : Z) (length : Z)
| null_pointer_dereference.

Inductive result (A : Type) : Type :=
| Ok (a : A)
| Raise (e : ErrorData)
| Undefined (u : UndefinedBehaviour)
| OutOfFuel.

Arguments Ok {A} a.
Arguments Raise {A} e.
Arguments Undefined {A} u.
Arguments OutOfFuel {A}.

Definition bind {A B : Type} (m : result A) (k : A -> result B) : result B :=
  match m with
  | Ok a => k a
  | Raise e => Raise e
  | Undefined u => Undefined u
  | OutOfFuel => OutOfFuel
  end.

Notation "'let*' x ':=' m 'in' k" := (bind m (fun x => k))
  (at level 10, x pattern, m at level 100, k at level 200).

(** The lines [elog(INFO, ...)] and [elog(NOTICE, ...)] write. *)
Inductive LogLine : Type :=
| info_split_detected
| info_validating_posting_tree (blkno : BlockNumber) (offset : OffsetNumber)
| info_validating_posting_list (blkno : BlockNumber) (offset : OffsetNumber)
| notice_unable_to_find_parent (blkno parentblk : BlockNumber).

(** ** Data on the pages *)

(** Modelled from the spec: the offsets of storage/off.h, which is not among
    the sources; the offset zero is reserved and the tuples of a page are
    numbered from 1. *)
Definition InvalidOffsetNumber : OffsetNumber := 0.
Definition FirstOffsetNumber : OffsetNumber := 1.
Definition OffsetNumberNext (i : OffsetNumber) : OffsetNumber := 1 + i.

Record ItemPointerData : Type := {
  ip_blkid : BlockNumber;
  ip_posid : OffsetNumber
}.

(** Modelled from the spec: the null-category tag of a key, of
    access/ginblock.h, which is not among the sources. *)
Inductive GinNullCategory : Type :=
| GIN_CAT_NORM_KEY
| GIN_CAT_NULL_KEY
| GIN_CAT_EMPTY_ITEM
| GIN_CAT_NULL_ITEM.

(** Modelled from the spec: the flag bits of the page trailer, of
    access/ginblock.h, which is not among the sources. *)
Definition GIN_LEAF : Z := 1.
Definition GIN_DELETED : Z := 2.
Definition GIN_DATA : Z := 4.

Record PostingItem : Type := {
  child_blkno : BlockNumber;
  key : ItemPointerData
}.

(** [Datum] is a machine word; [Pointer] addresses the bytes of a tuple's
    posting list, which stand for it here. *)
Definition Datum := Z.
Definition Pointer := list Byte.byte.

(** An index tuple, as the accessors of access/itup.h and
    access/gin_private.h (not among the sources) see it.  [t_tid] is the
    field the checker reads itself. *)
Record IndexTupleData : Type := {
  t_tid : ItemPointerData;
  IndexTupleSize : Z;
  gintuple_get_attrnum : OffsetNumber;
  gintuple_get_key : Datum;
  gintuple_get_category : GinNullCategory;
  GinIsPostingTree : bool;
  GinGetPostingTree : BlockNumber;
  GinItupIsCompressed : bool;
  GinGetNPosting : Z;
  GinGetPosting : Pointer
}.

(** A page, as the accessors of storage/bufpage.h and access/ginblock.h
    (not among the sources) see it: the number of line pointers, the line
    pointer at an offset (of which the checker reads the length) with the
    tuple it points to, where [PageGetItemIdCareful] accepts it, and the
    posting item at an offset of a data page. *)
Record PageData : Type := {
  pd_lsn : Z;
  PageGetMaxOffsetNumber : OffsetNumber;
  PageGetItem : OffsetNumber -> option (Z * IndexTupleData);
  GinDataPageGetPostingItem : OffsetNumber -> PostingItem;
  flags : Z;
  rightlink : BlockNumber
}.

(** What the checker takes from the rest of the server: constants of headers
    that are not among the sources, and its collaborators, in the argument
    order of their call sites.  [gincheckpage] gives the error the generic
    page check raises on a page, if any; [uncompressed_item ptr k] is the
    [k]-th item pointer [memcpy] reads at [ptr]. *)
Class Environment : Type := {
  InvalidBlockNumber : BlockNumber;
  GIN_ROOT_BLKNO : BlockNumber;
  MaxIndexTuplesPerPage : Z;
  MaxOffsetNumber : OffsetNumber;
  MAXALIGN : Z -> Z;
  ginCompareEntries :
    OffsetNumber -> Datum -> Datum -> GinNullCategory -> GinNullCategory -> Z;
  ginPostingListDecode : Pointer -> list ItemPointerData;
  uncompressed_item : Pointer -> nat -> ItemPointerData;
  gincheckpage : PageData -> option ErrorData
}.

Definition ItemPointerGetBlockNumber (p : ItemPointerData) : BlockNumber :=
  ip_blkid p.
Definition ItemPointerGetOffsetNumber (p : ItemPointerData) : OffsetNumber :=
  ip_posid p.
Definition ItemPointerGetBlockNumberNoCheck (p : ItemPointerData)
    : BlockNumber := ip_blkid p.
Definition ItemPointerGetOffsetNumberNoCheck (p : ItemPointerData)
    : OffsetNumber := ip_posid p.

Section Checker.

Context `{env : Environment}.

Definition OffsetNumberIsValid (off : OffsetNumber) : bool :=
  negb (off =? InvalidOffsetNumber) && (off <=? MaxOffsetNumber).

(** Modelled from the spec: the predicates of access/ginblock.h on the flag
    bits of the page trailer. *)
Definition GinPageIsLeaf (page : PageData) : bool :=
  negb (Z.land (flags page) GIN_LEAF =? 0).
Definition GinPageIsDeleted (page : PageData) : bool :=
  negb (Z.land (flags page) GIN_DELETED =? 0).
Definition GinPageIsData (page : PageData) : bool :=
  negb (Z.land (flags page) GIN_DATA =? 0).

Definition PageGetItemIdCareful (blkno : BlockNumber) (page : PageData)
    (i : OffsetNumber) : result (Z * IndexTupleData) :=
  match PageGetItem page i with
  | Some item => Ok item
  | None => Raise (line_pointer_invalid blkno i)
  end.

(** The relation's main fork: block [b] is the [b]-th page. *)
Definition Relation : Type := list PageData.

Definition ReadBufferExtended (rel : Relation) (blkno : BlockNumber)
    : result PageData :=
  if blkno <? 0 then Raise (read_failed blkno)
  else match nth_error rel (Z.to_nat blkno) with
       | Some page => Ok page
       | None => Raise (read_failed blkno)
       end.

(** The offsets a [for (i = FirstOffsetNumber; i <= maxoff;
    i = OffsetNumberNext(i))] loop runs its body on: [body] threads the
    loop's variables, and an outcome other than [Ok] ends the loop. *)
Fixpoint for_offsets {S : Type} (n : nat) (i : OffsetNumber)
    (body : OffsetNumber -> S -> result S) (s : S) : result S :=
  match n with
  | O => Ok s
  | Datatypes.S n' =>
      let* s' := body i s in
      for_offsets n' (OffsetNumberNext i) body s'
  end.

Definition for_each_offset {S : Type} (maxoff : OffsetNumber)
    (body : OffsetNumber -> S -> result S) (s : S) : result S :=
  for_offsets (Z.to_nat maxoff) FirstOffsetNumber body s.

(** ** ginReadTupleWithoutState *)

(** Reading [ipd[i]] in an array of [length ipd] items. *)
Definition array_get (ipd : list ItemPointerData) (i : Z)
    : result ItemPointerData :=
  if i <? 0 then Undefined (array_out_of_bounds i (Z.of_nat (length ipd)))
  else match nth_error ipd (Z.to_nat i) with
       | Some p => Ok p
       | None => Undefined (array_out_of_bounds i (Z.of_nat (length ipd)))
       end.

(** Returns the array [ipd] and [*nitems]. *)
Definition ginReadTupleWithoutState (itup : IndexTupleData)
    : result (list ItemPointerData * Z) :=
  let ptr := GinGetPosting itup in
  let nipd := GinGetNPosting itup in
  let* ipd :=
    if GinItupIsCompressed itup then
      if 0 <? nipd then
        let ipd := ginPostingListDecode ptr in
        let ndecoded := Z.of_nat (length ipd) in
        if negb (nipd =? ndecoded) then Raise (items_mismatch nipd ndecoded)
        else Ok ipd
      else Ok []
    else
      Ok (map (uncompressed_item ptr) (seq 0 (Z.to_nat nipd)))
  in
  Ok (ipd, nipd).

(** ** check_index_page *)

Definition check_index_page (page : PageData) (blockNo : BlockNumber)
    : result unit :=
  let* _ := match gincheckpage page with
            | Some e => Raise e
            | None => Ok tt
            end in
  if GinPageIsDeleted page then
    if negb (GinPageIsLeaf page) then Raise (deleted_internal_page blockNo)
    else if InvalidOffsetNumber <? PageGetMaxOffsetNumber page then
      Raise (deleted_page_with_tuples blockNo)
    else Ok tt
  else if MaxIndexTuplesPerPage <? PageGetMaxOffsetNumber page then
    Raise (exceeding_count_of_tuples blockNo)
  else Ok tt.

(** ** gin_refind_parent *)

(** The loop of [gin_refind_parent]: [result] is set at the first offset
    whose tuple's [t_tid] addresses [childblkno], and the loop is left
    there. *)
Fixpoint refind_loop (n : nat) (o : OffsetNumber) (parentblkno : BlockNumber)
    (parentpage : PageData) (childblkno : BlockNumber)
    : result (option IndexTupleData) :=
  match n with
  | O => Ok None
  | S n' =>
      let* (_, itup) := PageGetItemIdCareful parentblkno parentpage o in
      if ItemPointerGetBlockNumber (t_tid itup) =? childblkno then
        Ok (Some itup)
      else
        refind_loop n' (OffsetNumberNext o) parentblkno parentpage childblkno
  end.

Definition gin_refind_parent (rel : Relation)
    (parentblkno childblkno : BlockNumber) : result (option IndexTupleData) :=
  let* parentpage := ReadBufferExtended rel parentblkno in
  if GinPageIsLeaf parentpage then Ok None
  else
    let parent_maxoff := PageGetMaxOffsetNumber parentpage in
    refind_loop (Z.to_nat parent_maxoff) FirstOffsetNumber parentblkno
      parentpage childblkno.

(** ** The leaf depth, common to both walks *)

(** "Check that the tree has the same height in all branches": the new value
    of [leafdepth] after a page at [depth] is met. *)
Definition check_leafdepth (page : PageData) (depth : Z) (blkno : BlockNumber)
    (leafdepth : Z) : result Z :=
  if GinPageIsLeaf page then
    if leafdepth =? -1 then Ok depth
    else if negb (depth =? leafdepth) then Raise (leaf_page_unexpected blkno)
    else Ok leafdepth
  else Ok leafdepth.

(** ** gin_check_posting_tree_parent_keys_consistency *)

(** The fields of the two item structs have the same names in C; those of
    this one carry the prefix [pt_] here. *)
Record GinPostingTreeScanItem : Type := {
  pt_depth : Z;
  pt_parenttup : option PostingItem;
  pt_parentblk : BlockNumber;
  pt_blkno : BlockNumber
}.

(** The body of the loop over the offsets of a data page; the loop's variable
    is [stack->next]. *)
Definition posting_item_step (stack : GinPostingTreeScanItem)
    (page : PageData) (i : OffsetNumber)
    (next : list GinPostingTreeScanItem)
    : result (list GinPostingTreeScanItem) :=
  let posting_item := GinDataPageGetPostingItem page i in
  if (ItemPointerGetBlockNumberNoCheck (key posting_item) =? 0)
     || (ItemPointerGetOffsetNumberNoCheck (key posting_item) =? 0)
  then Ok next
  else if negb (GinPageIsLeaf page) then
    Ok ({| pt_depth := pt_depth stack + 1;
           pt_parenttup := Some posting_item;
           pt_parentblk := pt_blkno stack;
           pt_blkno := child_blkno posting_item |} :: next)
  else Ok next.

(** One turn of the [while (stack)] loop: the page of the first item is
    read and checked, and the result is the rest of the stack, with the
    children pushed, and [leafdepth]. *)
Definition posting_tree_visit (rel : Relation)
    (stack : GinPostingTreeScanItem) (next : list GinPostingTreeScanItem)
    (leafdepth : Z) : result (list GinPostingTreeScanItem * Z) :=
  let* page := ReadBufferExtended rel (pt_blkno stack) in
  let* leafdepth :=
    check_leafdepth page (pt_depth stack) (pt_blkno stack) leafdepth in
  let maxoff := PageGetMaxOffsetNumber page in
  let* next := for_each_offset maxoff (posting_item_step stack page) next in
  Ok (next, leafdepth).

Fixpoint posting_tree_loop (fuel : nat) (rel : Relation)
    (stack : list GinPostingTreeScanItem) (leafdepth : Z) : result unit :=
  match stack with
  | [] => Ok tt
  | item :: next =>
      match fuel with
      | O => OutOfFuel
      | S fuel' =>
          let* (next', leafdepth') :=
            posting_tree_visit rel item next leafdepth in
          posting_tree_loop fuel' rel next' leafdepth'
      end
  end.

Definition gin_check_posting_tree_parent_keys_consistency (fuel : nat)
    (rel : Relation) (posting_tree_root : BlockNumber) : result unit :=
  posting_tree_loop fuel rel
    [{| pt_depth := 0;
        pt_parenttup := None;
        pt_parentblk := InvalidBlockNumber;
        pt_blkno := posting_tree_root |}]
    (-1).

(** ** validate_leaf *)

(** The check of a tuple that holds a posting list. *)
Definition validate_posting_list (idxtuple : IndexTupleData)
    (blkno : BlockNumber) : result unit :=
  let* (ipd, nipd) := ginReadTupleWithoutState idxtuple in
  let* last := array_get ipd (nipd - 1) in
  if negb (OffsetNumberIsValid (ItemPointerGetOffsetNumber last)) then
    Raise (invalid_heap_pointer blkno)
  else Ok tt.

Definition validate_leaf_step (fuel : nat) (rel : Relation) (page : PageData)
    (blkno : BlockNumber) (i : OffsetNumber) (log : list LogLine)
    : result (list LogLine) :=
  let* (_, idxtuple) := PageGetItemIdCareful blkno page i in
  if GinIsPostingTree idxtuple then
    let log := log ++ [info_validating_posting_tree blkno i] in
    let rootPostingTree := GinGetPostingTree idxtuple in
    let* _ :=
      gin_check_posting_tree_parent_keys_consistency fuel rel rootPostingTree in
    Ok log
  else
    let log := log ++ [info_validating_posting_list blkno i] in
    let* _ := validate_posting_list idxtuple blkno in
    Ok log.

Definition validate_leaf (fuel : nat) (rel : Relation) (page : PageData)
    (blkno : BlockNumber) (log : list LogLine) : result (list LogLine) :=
  let maxoff := PageGetMaxOffsetNumber page in
  for_each_offset maxoff (validate_leaf_step fuel rel page blkno) log.

(** ** gin_check_parent_keys_consistency *)

Record GinScanItem : Type := {
  depth : Z;
  parenttup : option IndexTupleData;
  parentblk : BlockNumber;
  parentlsn : Z;
  blkno : BlockNumber
}.

(** [ginCompareEntries] on the keys of two tuples, as every call site of the
    walk applies it. *)
Definition compare_tuple_keys (attnum : OffsetNumber)
    (a b : IndexTupleData) : Z :=
  ginCompareEntries attnum (gintuple_get_key a) (gintuple_get_key b)
    (gintuple_get_category a) (gintuple_get_category b).

(** "It's possible that the page was split since we looked at the parent":
    the items to install after the current one, and the line logged. *)
Definition split_check (stack : GinScanItem) (page : PageData)
    : result (list GinScanItem * list LogLine) :=
  match parenttup stack with
  | Some parent =>
      let maxoff := PageGetMaxOffsetNumber page in
      let* (_, idxtuple) := PageGetItemIdCareful (blkno stack) page maxoff in
      let attnum := gintuple_get_attrnum idxtuple in
      if negb (rightlink page =? InvalidBlockNumber)
         && (compare_tuple_keys attnum idxtuple parent <=? 0)
      then
        Ok ([{| depth := depth stack;
                parenttup := Some parent;
                parentblk := parentblk stack;
                parentlsn := parentlsn stack;
                blkno := rightlink page |}],
            [info_split_detected])
      else Ok ([], [])
  | None => Ok ([], [])
  end.

(** "Check if this tuple is consistent with the downlink in the parent": the
    new value of [stack->parenttup] and the line logged. *)
Definition parent_check (rel : Relation) (stack : GinScanItem)
    (stack_parenttup : option IndexTupleData) (attnum : OffsetNumber)
    (idxtuple : IndexTupleData) (i maxoff : OffsetNumber)
    : result (option IndexTupleData * list LogLine) :=
  match stack_parenttup with
  | Some parent =>
      if i =? maxoff then
        if compare_tuple_keys attnum idxtuple parent <=? 0 then
          let* refound :=
            gin_refind_parent rel (parentblk stack) (blkno stack) in
          match refound with
          | None =>
              Ok (None,
                  [notice_unable_to_find_parent (blkno stack)
                     (parentblk stack)])
          | Some parent' =>
              if compare_tuple_keys attnum idxtuple parent' <=? 0 then
                Raise (inconsistent_records (blkno stack) i)
              else Ok (Some parent', [])
          end
        else Ok (stack_parenttup, [])
      else Ok (stack_parenttup, [])
  | None => Ok (None, [])
  end.

(** The variables of the loop over the tuples of an entry page. *)
Record EntryScan : Type := {
  prev_tuple : option IndexTupleData;
  stack_parenttup : option IndexTupleData;
  stack_next : list GinScanItem;
  scan_log : list LogLine
}.

(** "Check that tuples in each page are properly ordered". *)
Definition order_check (stack : GinScanItem) (attnum : OffsetNumber)
    (prev : option IndexTupleData) (idxtuple : IndexTupleData)
    (i : OffsetNumber) : result unit :=
  if negb (i =? FirstOffsetNumber) then
    match prev with
    | None => Undefined null_pointer_dereference
    | Some prev_tuple =>
        if compare_tuple_keys attnum prev_tuple idxtuple <=? 0 then
          Raise (wrong_tuple_order (blkno stack) i)
        else Ok tt
    end
  else Ok tt.

Definition entry_tuple_step (fuel : nat) (rel : Relation)
    (stack : GinScanItem) (page : PageData) (lsn : Z) (maxoff : OffsetNumber)
    (i : OffsetNumber) (s : EntryScan) : result EntryScan :=
  let* (lp_len, idxtuple) := PageGetItemIdCareful (blkno stack) page i in
  let attnum := gintuple_get_attrnum idxtuple in
  if negb (MAXALIGN lp_len =? MAXALIGN (IndexTupleSize idxtuple)) then
    Raise (inconsistent_tuple_sizes (blkno stack) i)
  else
    let* _ := order_check stack attnum (prev_tuple s) idxtuple i in
    let* (parent, notice) :=
      parent_check rel stack (stack_parenttup s) attnum idxtuple i maxoff in
    let log := scan_log s ++ notice in
    if negb (GinPageIsLeaf page) then
      Ok {| prev_tuple := Some idxtuple;
            stack_parenttup := parent;
            stack_next :=
              {| depth := depth stack + 1;
                 parenttup := Some idxtuple;
                 parentblk := blkno stack;
                 parentlsn := lsn;
                 blkno := ItemPointerGetBlockNumber (t_tid idxtuple) |}
              :: stack_next s;
            scan_log := log |}
    else
      let* log := validate_leaf fuel rel page (blkno stack) log in
      Ok {| prev_tuple := Some idxtuple;
            stack_parenttup := parent;
            stack_next := stack_next s;
            scan_log := log |}.

(** One turn of the [while (stack)] loop: the result is the rest of the
    stack, with the sibling and the children pushed, [leafdepth] and the
    log. *)
Definition entry_tree_visit (fuel : nat) (rel : Relation)
    (stack : GinScanItem) (next : list GinScanItem) (leafdepth : Z)
    (log : list LogLine) : result (list GinScanItem * Z * list LogLine) :=
  let* page := ReadBufferExtended rel (blkno stack) in
  let lsn := pd_lsn page in
  let* _ := check_index_page page (blkno stack) in
  let* (sibling, info) := split_check stack page in
  let* leafdepth :=
    check_leafdepth page (depth stack) (blkno stack) leafdepth in
  let maxoff := PageGetMaxOffsetNumber page in
  let* s :=
    for_each_offset maxoff (entry_tuple_step fuel rel stack page lsn maxoff)
      {| prev_tuple := None;
         stack_parenttup := parenttup stack;
         stack_next := sibling ++ next;
         scan_log := log ++ info |} in
  Ok (stack_next s, leafdepth, scan_log s).

Fixpoint entry_tree_loop (fuel : nat) (rel : Relation)
    (stack : list GinScanItem) (leafdepth : Z) (log : list LogLine)
    : result (list LogLine) :=
  match stack with
  | [] => Ok log
  | item :: next =>
      match fuel with
      | O => OutOfFuel
      | S fuel' =>
          let* (next', leafdepth', log') :=
            entry_tree_visit fuel' rel item next leafdepth log in
          entry_tree_loop fuel' rel next' leafdepth' log'
      end
  end.

(** The result is the log of the walk. *)
Definition gin_check_parent_keys_consistency (fuel : nat) (rel : Relation)
    : result (list LogLine) :=
  entry_tree_loop fuel rel
    [{| depth := 0;
        parenttup := None;
        parentblk := InvalidBlockNumber;
        parentlsn := 0;
        blkno := GIN_ROOT_BLKNO |}]
    (-1) [].

End Checker.

(** ** What a visit of a data page pushes *)

(** The offsets [i, i+1, ...] of [n] turns of a loop over offsets. *)
Fixpoint offsets_from (n : nat) (i : OffsetNumber) : list OffsetNumber :=
  match n with
  | O => []
  | S n' => i :: offsets_from n' (OffsetNumberNext i)
  end.

(** The posting items of a page, in the order of their offsets. *)
Definition posting_items (page : PageData) : list PostingItem :=
  map (GinDataPageGetPostingItem page)
    (offsets_from (Z.to_nat (PageGetMaxOffsetNumber page)) FirstOffsetNumber).

(** The key of the item has a block and an offset other than zero. *)
Definition has_full_key (pitem : PostingItem) : bool :=
  negb (ip_blkid (key pitem) =? 0) && negb (ip_posid (key pitem) =? 0).

(** The item of the scan for the child of [pitem]. *)
Definition child_item (stack : GinPostingTreeScanItem) (pitem : PostingItem)
    : GinPostingTreeScanItem :=
  {| pt_depth := pt_depth stack + 1;
     pt_parenttup := Some pitem;
     pt_parentblk := pt_blkno stack;
     pt_blkno := child_blkno pitem |}.

(** ** What a visit of an entry page pushes *)

(** The item of the scan for the right sibling of the page of [stack]. *)
Definition sibling_item (stack : GinScanItem) (parent : IndexTupleData)
    (page : PageData) : GinScanItem :=
  {| depth := depth stack;
     parenttup := Some parent;
     parentblk := parentblk stack;
     parentlsn := parentlsn stack;
     blkno := rightlink page |}.

(** [c] is an item for a child of the page of [stack]. *)
Definition is_child_of (stack c : GinScanItem) : Prop :=
  depth c = depth stack + 1 /\ parentblk c = blkno stack.

(** ** The walks as relations between their states *)

(** The depths of the leaf pages a walk has met, after the page at [blkno]
    is met at depth [d]. *)
Definition leaves_met (rel : Relation) (blkno : BlockNumber) (d : Z)
    (met : list Z) : list Z :=
  match ReadBufferExtended rel blkno with
  | Ok page => if GinPageIsLeaf page then met ++ [d] else met
  | _ => met
  end.

(** A state of the [while (stack)] loop of the walk of a posting tree: the
    fuel left, the stack, [leafdepth], and the depths of the leaves met. *)
Record PostingWalk : Type := {
  pw_fuel : nat;
  pw_stack : list GinPostingTreeScanItem;
  pw_leafdepth : Z;
  pw_leaves : list Z
}.

Inductive posting_walk_reaches (rel : Relation)
    : PostingWalk -> PostingWalk -> Prop :=
| posting_walk_here (w : PostingWalk) : posting_walk_reaches rel w w
| posting_walk_turn (fuel : nat) (item : GinPostingTreeScanItem)
    (next : list GinPostingTreeScanItem) (leafdepth : Z) (met : list Z)
    (next' : list GinPostingTreeScanItem) (leafdepth' : Z) (w : PostingWalk) :
    posting_tree_visit rel item next leafdepth = Ok (next', leafdepth') ->
    posting_walk_reaches rel
      {| pw_fuel := fuel; pw_stack := next'; pw_leafdepth := leafdepth';
         pw_leaves := leaves_met rel (pt_blkno item) (pt_depth item) met |} w ->
    posting_walk_reaches rel
      {| pw_fuel := S fuel; pw_stack := item :: next;
         pw_leafdepth := leafdepth; pw_leaves := met |} w.

(** The same for the walk of the entry tree, with the log. *)
Record EntryWalk : Type := {
  ew_fuel : nat;
  ew_stack : list GinScanItem;
  ew_leafdepth : Z;
  ew_log : list LogLine;
  ew_leaves : list Z
}.

Section Walks.

Context `{env : Environment}.

Definition posting_walk_start (fuel : nat) (posting_tree_root : BlockNumber)
    : PostingWalk :=
  {| pw_fuel := fuel;
     pw_stack := [{| pt_depth := 0;
                     pt_parenttup := None;
                     pt_parentblk := InvalidBlockNumber;
                     pt_blkno := posting_tree_root |}];
     pw_leafdepth := -1;
     pw_leaves := [] |}.

Inductive entry_walk_reaches (rel : Relation) : EntryWalk -> EntryWalk -> Prop :=
| entry_walk_here (w : EntryWalk) : entry_walk_reaches rel w w
| entry_walk_turn (fuel : nat) (item : GinScanItem) (next : list GinScanItem)
    (leafdepth : Z) (log : list LogLine) (met : list Z)
    (next' : list GinScanItem) (leafdepth' : Z) (log' : list LogLine)
    (w : EntryWalk) :
    entry_tree_visit fuel rel item next leafdepth log =
      Ok (next', leafdepth', log') ->
    entry_walk_reaches rel
      {| ew_fuel := fuel; ew_stack := next'; ew_leafdepth := leafdepth';
         ew_log := log';
         ew_leaves := leaves_met rel (blkno item) (depth item) met |} w ->
    entry_walk_reaches rel
      {| ew_fuel := S fuel; ew_stack := item :: next;
         ew_leafdepth := leafdepth; ew_log := log; ew_leaves := met |} w.

Definition entry_walk_start (fuel : nat) : EntryWalk :=
  {| ew_fuel := fuel;
     ew_stack := [{| depth := 0;
                     parenttup := None;
                     parentblk := InvalidBlockNumber;
                     parentlsn := 0;
                     blkno := GIN_ROOT_BLKNO |}];
     ew_leafdepth := -1;
     ew_log := [];
     ew_leaves := [] |}.

End Walks.

(** [leafdepth] is unset while no leaf is met; once leaves are met it is the
    depth of each of them. *)
Definition leafdepth_agrees (leafdepth : Z) (met : list Z) : Prop :=
  (met = [] /\ leafdepth = -1) \/
  (met <> [] /\ 0 <= leafdepth /\ Forall (fun d => d = leafdepth) met).

(** What every state of a walk satisfies: no item has a negative depth, and
    [leafdepth] agrees with the leaves met. *)
Definition posting_walk_invariant (w : PostingWalk) : Prop :=
  Forall (fun item => 0 <= pt_depth item) (pw_stack w) /\
  leafdepth_agrees (pw_leafdepth w) (pw_leaves w).

Definition entry_walk_invariant (w : EntryWalk) : Prop :=
  Forall (fun item => 0 <= depth item) (ew_stack w) /\
  leafdepth_agrees (ew_leafdepth w) (ew_leaves w).

(** ** A concrete environment and small indexes *)

Definition category_rank (c : GinNullCategory) : Z :=
  match c with
  | GIN_CAT_NORM_KEY => 0
  | GIN_CAT_NULL_KEY => 1
  | GIN_CAT_EMPTY_ITEM => 2
  | GIN_CAT_NULL_ITEM => 3
  end.

(** Integer keys in their usual order, the null categories after them. *)
Definition int_compare (attnum : OffsetNumber) (a b : Datum)
    (categorya categoryb : GinNullCategory) : Z :=
  if category_rank categorya =? category_rank categoryb then
    match categorya with
    | GIN_CAT_NORM_KEY =>
        match a ?= b with Lt => -1 | Eq => 0 | Gt => 1 end
    | _ => 0
    end
  else if category_rank categorya <? category_rank categoryb then -1
  else 1.

(** A posting list of two bytes per item pointer: block, then offset. *)
Fixpoint byte_pairs (ptr : Pointer) : list ItemPointerData :=
  match ptr with
  | b :: o :: rest =>
      {| ip_blkid := Z.of_N (Byte.to_N b); ip_posid := Z.of_N (Byte.to_N o) |}
      :: byte_pairs rest
  | _ => []
  end.

Definition null_item : ItemPointerData := {| ip_blkid := 0; ip_posid := 0 |}.

Definition example_env : Environment := {|
  InvalidBlockNumber := 4294967295;
  GIN_ROOT_BLKNO := 1;
  MaxIndexTuplesPerPage := 408;
  MaxOffsetNumber := 2048;
  MAXALIGN := fun len => Z.land (len + 7) (Z.lnot 7);
  ginCompareEntries := int_compare;
  ginPostingListDecode := byte_pairs;
  uncompressed_item := fun ptr k => nth k (byte_pairs ptr) null_item;
  gincheckpage := fun _ => None
|}.

(** A tuple of an internal entry page: key and downlink. *)
Definition downlink_tuple (k : Datum) (child : BlockNumber) : IndexTupleData := {|
  t_tid := {| ip_blkid := child; ip_posid := 0 |};
  IndexTupleSize := 16;
  gintuple_get_attrnum := 1;
  gintuple_get_key := k;
  gintuple_get_category := GIN_CAT_NORM_KEY;
  GinIsPostingTree := false;
  GinGetPostingTree := child;
  GinItupIsCompressed := false;
  GinGetNPosting := 0;
  GinGetPosting := []
|}.

(** A tuple of a leaf entry page with a compressed posting list of [n]
    declared items. *)
Definition posting_list_tuple (k : Datum) (n : Z) (ptr : Pointer)
    : IndexTupleData := {|
  t_tid := {| ip_blkid := 2147483664; ip_posid := n |};
  IndexTupleSize := 16 + Z.of_nat (length ptr);
  gintuple_get_attrnum := 1;
  gintuple_get_key := k;
  gintuple_get_category := GIN_CAT_NORM_KEY;
  GinIsPostingTree := false;
  GinGetPostingTree := 2147483664;
  GinItupIsCompressed := true;
  GinGetNPosting := n;
  GinGetPosting := ptr
|}.

(** A tuple of a leaf entry page that refers to a posting tree. *)
Definition posting_tree_tuple (k : Datum) (root : BlockNumber)
    : IndexTupleData := {|
  t_tid := {| ip_blkid := root; ip_posid := 65535 |};
  IndexTupleSize := 16;
  gintuple_get_attrnum := 1;
  gintuple_get_key := k;
  gintuple_get_category := GIN_CAT_NORM_KEY;
  GinIsPostingTree := true;
  GinGetPostingTree := root;
  GinItupIsCompressed := false;
  GinGetNPosting := 65535;
  GinGetPosting := []
|}.

Definition no_posting_item : PostingItem :=
  {| child_blkno := 0; key := null_item |}.

Definition entry_page (fl : Z) (rl : BlockNumber)
    (tuples : list IndexTupleData) : PageData := {|
  pd_lsn := 0;
  PageGetMaxOffsetNumber := Z.of_nat (length tuples);
  PageGetItem := fun i =>
    if 1 <=? i then
      option_map (fun t => (IndexTupleSize t, t))
        (nth_error tuples (Z.to_nat (i - 1)))
    else None;
  GinDataPageGetPostingItem := fun _ => no_posting_item;
  flags := fl;
  rightlink := rl
|}.

Definition data_page (fl : Z) (rl : BlockNumber)
    (items : list PostingItem) : PageData := {|
  pd_lsn := 0;
  PageGetMaxOffsetNumber := Z.of_nat (length items);
  PageGetItem := fun _ => None;
  GinDataPageGetPostingItem := fun i =>
    nth (Z.to_nat (i - 1)) items no_posting_item;
  flags := fl;
  rightlink := rl
|}.

(** Block 0, which the walk never reads. *)
Definition meta_page : PageData := entry_page 0 4294967295 [].

(** One item pointer, (1, 1). *)
Definition one_item : Pointer := [x01; x01].

(** A leaf tuple with the key [k] and a posting list of one item. *)
Definition leaf_tuple (k : Datum) : IndexTupleData :=
  posting_list_tuple k 1 one_item.

(** A root with one downlink, of key 10, to block 2; block 2 is a leaf whose
    only tuple has the key [k] and whose right sibling is block 3. *)
Definition two_level_index (k : Datum) : Relation :=
  [meta_page;
   entry_page 0 4294967295 [downlink_tuple 10 2];
   entry_page GIN_LEAF 3 [leaf_tuple k];
   entry_page GIN_LEAF 4294967295 [leaf_tuple 20]].

(** The item of the scan for block 2 of [two_level_index]. *)
Definition block_2_item : GinScanItem :=
  {| depth := 1;
     parenttup := Some (downlink_tuple 10 2);
     parentblk := 1;
     parentlsn := 0;
     blkno := 2 |}.

(** [two_level_index] after the downlink to block 2 has left the root. *)
Definition moved_downlink_index : Relation :=
  [meta_page;
   entry_page 0 4294967295 [downlink_tuple 10 3];
   entry_page GIN_LEAF 3 [leaf_tuple 5];
   entry_page GIN_LEAF 4294967295 [leaf_tuple 20]].

(** [two_level_index 5] after the downlink to block 2 has got the key 3. *)
Definition adjusted_downlink_index : Relation :=
  [meta_page;
   entry_page 0 4294967295 [downlink_tuple 3 2];
   entry_page GIN_LEAF 3 [leaf_tuple 5];
   entry_page GIN_LEAF 4294967295 [leaf_tuple 20]].

(** A root that is a leaf with two tuples, of keys [k1] and [k2]. *)
Definition leaf_root_index (k1 k2 : Datum) : Relation :=
  [meta_page; entry_page GIN_LEAF 4294967295 [leaf_tuple k1; leaf_tuple k2]].

(** A root that is an internal page without tuples. *)
Definition empty_root_index : Relation :=
  [meta_page; entry_page 0 4294967295 []].

(** A root that is a leaf with one tuple, which declares no item. *)
Definition zero_items_index : Relation :=
  [meta_page; entry_page GIN_LEAF 4294967295 [posting_list_tuple 1 0 []]].

(** A leaf root whose tuple refers to the posting tree of root block 2; block
    2 is an internal data page with two posting items, of keys (3, 1) and
    (0, 5) and children 3 and 4; block 3 is a data leaf; there is no
    block 4. *)
Definition posting_root_page : PageData :=
  data_page GIN_DATA 4294967295
    [{| child_blkno := 3; key := {| ip_blkid := 3; ip_posid := 1 |} |};
     {| child_blkno := 4; key := {| ip_blkid := 0; ip_posid := 5 |} |}].

Definition posting_tree_index : Relation :=
  [meta_page;
   entry_page GIN_LEAF 4294967295 [posting_tree_tuple 1 2];
   posting_root_page;
   data_page (Z.lor GIN_DATA GIN_LEAF) 4294967295 []].

Definition posting_root_item : GinPostingTreeScanItem :=
  {| pt_depth := 0;
     pt_parenttup := None;
     pt_parentblk := 4294967295;
     pt_blkno := 2 |}.

(** An index with leaves at two depths in the entry tree and in a posting
    tree.  The root has the downlinks (20, block 2) and (10, block 3); block
    2 is a leaf, whose tuple refers to the posting tree of root block 5;
    block 3 is internal, with the downlink (15, block 4); block 4 is a leaf.
    Block 5 is an internal data page with the children 6, a leaf, and 7, an
    internal data page whose child 8 is a leaf. *)
Definition uneven_index : Relation :=
  [meta_page;
   entry_page 0 4294967295 [downlink_tuple 20 2; downlink_tuple 10 3];
   entry_page GIN_LEAF 4294967295 [posting_tree_tuple 25 5];
   entry_page 0 4294967295 [downlink_tuple 15 4];
   entry_page GIN_LEAF 4294967295 [leaf_tuple 17];
   data_page GIN_DATA 4294967295
     [{| child_blkno := 6; key := {| ip_blkid := 3; ip_posid := 1 |} |};
      {| child_blkno := 7; key := {| ip_blkid := 5; ip_posid := 1 |} |}];
   data_page (Z.lor GIN_DATA GIN_LEAF) 7 [];
   data_page GIN_DATA 4294967295
     [{| child_blkno := 8; key := {| ip_blkid := 5; ip_posid := 1 |} |}];
   data_page (Z.lor GIN_DATA GIN_LEAF) 4294967295 []].

(** The items of the scans for the blocks 2 and 6 of [uneven_index]. *)
Definition uneven_block_2_item : GinScanItem :=
  {| depth := 1;
     parenttup := Some (downlink_tuple 20 2);
     parentblk := 1;
     parentlsn := 0;
     blkno := 2 |}.

Definition uneven_block_6_item : GinPostingTreeScanItem :=
  {| pt_depth := 1;
     pt_parenttup :=
       Some {| child_blkno := 6; key := {| ip_blkid := 3; ip_posid := 1 |} |};
     pt_parentblk := 5;
     pt_blkno := 6 |}.

(** The root item of the walk of the entry tree. *)
Definition root_item : GinScanItem :=
  {| depth := 0;
     parenttup := None;
     parentblk := 4294967295;
     parentlsn := 0;
     blkno := 1 |}.

(** ** Views of an entry page *)

(** The item of the scan for the child a tuple of an internal page
    addresses. *)
Definition downlink_item (stack : GinScanItem) (lsn : Z)
    (idxtuple : IndexTupleData) : GinScanItem :=
  {| depth := depth stack + 1;
     parenttup := Some idxtuple;
     parentblk := blkno stack;
     parentlsn := lsn;
     blkno := ItemPointerGetBlockNumber (t_tid idxtuple) |}.

(** The page holds the tuple at the offset, under a valid line pointer. *)
Definition holds_tuple (page : PageData) (i : OffsetNumber)
    (idxtuple : IndexTupleData) : Prop :=
  exists lp, PageGetItem page i = Some (lp, idxtuple).

(** The line [validate_leaf] logs for the tuple at an offset, and the lines
    it logs for a page. *)
Definition leaf_line (page : PageData) (blkno : BlockNumber)
    (i : OffsetNumber) : list LogLine :=
  match PageGetItem page i with
  | Some (_, idxtuple) =>
      [if GinIsPostingTree idxtuple
       then info_validating_posting_tree blkno i
       else info_validating_posting_list blkno i]
  | None => []
  end.

Definition leaf_lines (page : PageData) (blkno : BlockNumber)
    : list LogLine :=
  flat_map (leaf_line page blkno)
    (offsets_from (Z.to_nat (PageGetMaxOffsetNumber page)) FirstOffsetNumber).

(** The scan of the re-find for [child] gets as far as the offset [o] of the
    page: the offsets before it have a valid line pointer and a tuple that
    addresses another block. *)
Definition refind_reaches (page : PageData) (child : BlockNumber)
    (o : OffsetNumber) : Prop :=
  1 <= o <= PageGetMaxOffsetNumber page /\
  forall o', 1 <= o' < o ->
    exists lp itup,
      PageGetItem page o' = Some (lp, itup) /\
      ItemPointerGetBlockNumber (t_tid itup) <> child.

(** The read before the start of an array that holds no item. *)
Definition reads_before_empty_array (u : UndefinedBehaviour) : Prop :=
  exists n, n <= 0 /\ u = array_out_of_bounds (n - 1) 0.

(** ** The earlier revision of the walk of the entry tree *)

(** verify_gin.c comes with an earlier revision of [check_index_page] and
    [gin_check_parent_keys_consistency], which differs in the generic page
    check, in the test for a split and in the checks of the tuples.  Its
    definitions carry the suffix [_earlier].  [GinPageRightMost],
    [ginCompareItemPointers] and [GinDataPageGetRightBound] are of headers
    that are not among the sources. *)
Section EarlierRevision.

Context `{env : Environment}.

Variable GinPageRightMost : PageData -> bool.
Variable ginCompareItemPointers : ItemPointerData -> ItemPointerData -> Z.
Variable GinDataPageGetRightBound : PageData -> ItemPointerData.

Definition check_index_page_earlier (page : PageData) (blockNo : BlockNumber)
    : result unit :=
  if GinPageIsDeleted page then
    if negb (GinPageIsLeaf page) then Raise (deleted_internal_page blockNo)
    else if InvalidOffsetNumber <? PageGetMaxOffsetNumber page then
      Raise (deleted_page_with_tuples blockNo)
    else Ok tt
  else if MaxIndexTuplesPerPage <? PageGetMaxOffsetNumber page then
    Raise (exceeding_count_of_tuples blockNo)
  else Ok tt.

(** The test for a split reads [stack->parenttup->t_tid] when the page is not
    the right-most, whether the item has a parent tuple or not. *)
Definition split_check_earlier (stack : GinScanItem) (page : PageData)
    : result (list GinScanItem) :=
  if negb (GinPageRightMost page) then
    match parenttup stack with
    | None => Undefined null_pointer_dereference
    | Some parent =>
        if 0 <=? ginCompareItemPointers (t_tid parent)
                   (GinDataPageGetRightBound page)
        then
          Ok [{| depth := depth stack;
                 parenttup := Some parent;
                 parentblk := parentblk stack;
                 parentlsn := parentlsn stack;
                 blkno := rightlink page |}]
        else Ok []
    end
  else Ok [].

Definition entry_tuple_step_earlier (stack : GinScanItem) (page : PageData)
    (lsn : Z) (i : OffsetNumber) (next : list GinScanItem)
    : result (list GinScanItem) :=
  let* (lp_len, idxtuple) := PageGetItemIdCareful (blkno stack) page i in
  if negb (MAXALIGN lp_len =? MAXALIGN (IndexTupleSize idxtuple)) then
    Raise (inconsistent_tuple_sizes (blkno stack) i)
  else if negb (GinPageIsLeaf page) then
    Ok ({| depth := depth stack + 1;
           parenttup := Some idxtuple;
           parentblk := blkno stack;
           parentlsn := lsn;
           blkno := ItemPointerGetBlockNumber (t_tid idxtuple) |} :: next)
  else Ok next.

Definition entry_tree_visit_earlier (rel : Relation) (stack : GinScanItem)
    (next : list GinScanItem) (leafdepth : Z)
    : result (list GinScanItem * Z) :=
  let* page := ReadBufferExtended rel (blkno stack) in
  let lsn := pd_lsn page in
  let* _ := check_index_page_earlier page (blkno stack) in
  let* sibling := split_check_earlier stack page in
  let* leafdepth :=
    check_leafdepth page (depth stack) (blkno stack) leafdepth in
  let maxoff := PageGetMaxOffsetNumber page in
  let* next :=
    for_each_offset maxoff (entry_tuple_step_earlier stack page lsn)
      (sibling ++ next) in
  Ok (next, leafdepth).

Fixpoint entry_tree_loop_earlier (fuel : nat) (rel : Relation)
    (stack : list GinScanItem) (leafdepth : Z) : result unit :=
  match stack with
  | [] => Ok tt
  | item :: next =>
      match fuel with
      | O => OutOfFuel
      | S fuel' =>
          let* (next', leafdepth') :=
            entry_tree_visit_earlier rel item next leafdepth in
          entry_tree_loop_earlier fuel' rel next' leafdepth'
      end
  end.

Definition gin_check_parent_keys_consistency_earlier (fuel : nat)
    (rel : Relation) : result unit :=
  entry_tree_loop_earlier fuel rel
    [{| depth := 0;
        parenttup := None;
        parentblk := InvalidBlockNumber;
        parentlsn := 0;
        blkno := GIN_ROOT_BLKNO |}]
    (-1).

End EarlierRevision.

(** The errors the earlier revision has a report for. *)
Definition reported_by_earlier (e : ErrorData) : Prop :=
  match e with
  | deleted_internal_page _ | deleted_page_with_tuples _
  | exceeding_count_of_tuples _ | leaf_page_unexpected _
  | inconsistent_tuple_sizes _ _ | line_pointer_invalid _ _
  | read_failed _ => True
  | items_mismatch _ _ | invalid_heap_pointer _ | wrong_tuple_order _ _
  | inconsistent_records _ _ => False
  end.

(** ** Measures of a posting tree *)

(** The child blocks the visit of a data page pushes items for. *)
Definition posting_children (page : PageData) : list BlockNumber :=
  map child_blkno (filter has_full_key (posting_items page)).

(** The turns of the loop a stack is allowed, when a block [b] is allowed
    [S (weight b)] turns for itself and what is below it. *)
Definition stack_turns (weight : BlockNumber -> nat)
    (stack : list GinPostingTreeScanItem) : nat :=
  list_sum (map (fun item => S (weight (pt_blkno item))) stack).

(** [weight] bounds the posting trees of [rel]: the children an internal
    data page pushes are allowed less than the page. *)
Definition posting_trees_bounded (rel : Relation)
    (weight : BlockNumber -> nat) : Prop :=
  forall b page,
    ReadBufferExtended rel b = Ok page ->
    GinPageIsLeaf page = false ->
    (list_sum (map (fun c => S (weight c)) (posting_children page))
     <= weight b)%nat.

(** The subtree sizes of the posting tree of [uneven_index]. *)
Definition uneven_weight (b : BlockNumber) : nat :=
  if b =? 5 then 3%nat else if b =? 7 then 1%nat else 0%nat.

(** A data page whose only posting item addresses the page itself, at
    block 2, under a leaf root. *)
Definition self_child_index : Relation :=
  [meta_page;
   entry_page GIN_LEAF 4294967295 [posting_tree_tuple 1 2];
   data_page GIN_DATA 4294967295
     [{| child_blkno := 2; key := {| ip_blkid := 3; ip_posid := 1 |} |}]].

(** ** Measures of the entry tree *)

(** The blocks the tuples of a page address. *)
Definition entry_downlinks (page : PageData) : list BlockNumber :=
  flat_map
    (fun i => match PageGetItem page i with
              | Some (_, idxtuple) =>
                  [ItemPointerGetBlockNumber (t_tid idxtuple)]
              | None => []
              end)
    (offsets_from (Z.to_nat (PageGetMaxOffsetNumber page)) FirstOffsetNumber).

Definition entry_stack_turns (weight : BlockNumber -> nat)
    (stack : list GinScanItem) : nat :=
  list_sum (map (fun item => S (weight (blkno item))) stack).

Section EntryMeasures.

Context `{env : Environment}.

(** The blocks a visit of the page can push items for: its right sibling,
    and its children when it is internal. *)
Definition entry_successors (page : PageData) : list BlockNumber :=
  (if rightlink page =? InvalidBlockNumber then [] else [rightlink page])
  ++ (if GinPageIsLeaf page then [] else entry_downlinks page).

(** [weight] bounds the entry tree of [rel]: the successors of a page are
    allowed less than the page. *)
Definition entry_tree_bounded (rel : Relation)
    (weight : BlockNumber -> nat) : Prop :=
  forall b page,
    ReadBufferExtended rel b = Ok page ->
    (list_sum (map (fun c => S (weight c)) (entry_successors page))
     <= weight b)%nat.

End EntryMeasures.

(** Weights of the blocks of [uneven_index] for its entry tree. *)
Definition uneven_entry_weight (b : BlockNumber) : nat :=
  if b =? 1 then 3%nat
  else if b =? 3 then 1%nat
  else if b =? 6 then 1%nat
  else 0%nat.

(** ** Further small indexes *)

(** [two_level_index] with a leaf without tuples at block 2. *)
Definition empty_child_index : Relation :=
  [meta_page;
   entry_page 0 4294967295 [downlink_tuple 10 2];
   entry_page GIN_LEAF 4294967295 []].

(** A root that is a leaf with one tuple, of one item. *)
Definition single_entry_index : Relation :=
  [meta_page; entry_page GIN_LEAF 4294967295 [leaf_tuple 1]].

(** A leaf root with a right sibling, at block 2. *)
Definition root_with_sibling_index : Relation :=
  [meta_page;
   entry_page GIN_LEAF 2 [leaf_tuple 1];
   entry_page GIN_LEAF 4294967295 [leaf_tuple 2]].

(** For the earlier revision on these indexes: a page is the right-most one
    when it has no right link, item pointers compare by block, then by
    offset, and no page has a right bound. *)
Definition rightmost_by_link (page : PageData) : bool :=
  rightlink page =? 4294967295.

Definition item_pointer_compare (a b : ItemPointerData) : Z :=
  match ip_blkid a ?= ip_blkid b with
  | Lt => -1
  | Gt => 1
  | Eq => match ip_posid a ?= ip_posid b with Lt => -1 | Eq => 0 | Gt => 1 end
  end.

Definition no_right_bound (page : PageData) : ItemPointerData := null_item.

(** * Properties *)

Section Properties.

Context `{env : Environment}.

(** ** The tuple reader *)

Lemma ginReadTupleWithoutState_count (itup : IndexTupleData)
    (ipd : list ItemPointerData) (nipd : Z) :
  ginReadTupleWithoutState itup = Ok (ipd, nipd) ->
  nipd = GinGetNPosting itup /\
  (0 < nipd -> Z.of_nat (length ipd) = nipd) /\
  (nipd <= 0 -> ipd = []).
Proof.
  unfold ginReadTupleWithoutState.
  destruct (GinItupIsCompressed itup).
  - destruct (0 <? GinGetNPosting itup) eqn:Hpos.
    + destruct (GinGetNPosting itup =? _) eqn:Heq; simpl; [|discriminate].
      intros [= <- <-]. apply Z.eqb_eq in Heq. apply Z.ltb_lt in Hpos.
      repeat split; auto; lia.
    + simpl. intros [= <- <-]. apply Z.ltb_ge in Hpos.
      repeat split; auto; lia.
  - simpl. intros [= <- <-]. repeat split.
    + intros Hpos. rewrite length_map, length_seq. lia.
    + intros Hle. destruct (GinGetNPosting itup); try lia; reflexivity.
Qed.

(** C9: on a tuple whose posting list is compressed, the reader raises the
    mismatch error with both counts when the count of the tuple header
    differs from the count of the decoded list, returns the decoded array and
    the declared count when they agree, and decodes nothing when the declared
    count is zero. *)
Theorem ginReadTupleWithoutState_compressed (itup : IndexTupleData) :
  GinItupIsCompressed itup = true ->
  let nipd := GinGetNPosting itup in
  let decoded := ginPostingListDecode (GinGetPosting itup) in
  let ndecoded := Z.of_nat (length decoded) in
  (0 < nipd -> nipd <> ndecoded ->
   ginReadTupleWithoutState itup = Raise (items_mismatch nipd ndecoded)) /\
  (0 < nipd -> nipd = ndecoded ->
   ginReadTupleWithoutState itup = Ok (decoded, nipd)) /\
  (nipd = 0 -> ginReadTupleWithoutState itup = Ok ([], 0)).
Proof.
  intros Hc nipd decoded ndecoded. unfold ginReadTupleWithoutState.
  rewrite Hc. fold nipd decoded ndecoded. repeat split.
  - intros Hpos Hne. apply Z.ltb_lt in Hpos. rewrite Hpos.
    apply Z.eqb_neq in Hne. rewrite Hne. reflexivity.
  - intros Hpos Heq. apply Z.ltb_lt in Hpos. rewrite Hpos.
    apply Z.eqb_eq in Heq. rewrite Heq. simpl. congruence.
  - intros H0. rewrite H0. reflexivity.
Qed.

(** ** The page sanity check *)

(** C8: when the generic page check passes, [check_index_page] raises a
    corruption error exactly when the page is deleted and not a leaf, or
    deleted with a nonzero count of tuples, or not deleted with more tuples
    than the maximum per page; in every other case it passes, so a deleted
    leaf without tuples passes, and a deleted page never fails on the
    bound. *)
Theorem check_index_page_raises_exactly (page : PageData)
    (blockNo : BlockNumber) :
  gincheckpage page = None ->
  0 <= PageGetMaxOffsetNumber page ->
  let violation :=
    (GinPageIsDeleted page = true /\ GinPageIsLeaf page = false) \/
    (GinPageIsDeleted page = true /\ PageGetMaxOffsetNumber page <> 0) \/
    (GinPageIsDeleted page = false /\
     MaxIndexTuplesPerPage < PageGetMaxOffsetNumber page) in
  ((exists e, check_index_page page blockNo = Raise e /\
              errcode e = ERRCODE_INDEX_CORRUPTED /\
              error_block e = Some blockNo) <-> violation) /\
  (~ violation -> check_index_page page blockNo = Ok tt) /\
  (GinPageIsDeleted page = true -> GinPageIsLeaf page = true ->
   PageGetMaxOffsetNumber page = 0 -> check_index_page page blockNo = Ok tt) /\
  (GinPageIsDeleted page = true ->
   check_index_page page blockNo <> Raise (exceeding_count_of_tuples blockNo)).
Proof.
  intros Hgen Hnn violation. unfold check_index_page. rewrite Hgen. simpl.
  unfold InvalidOffsetNumber.
  destruct (GinPageIsDeleted page) eqn:Hdel;
    [destruct (GinPageIsLeaf page) eqn:Hleaf; simpl;
     [destruct (0 <? PageGetMaxOffsetNumber page) eqn:Hcnt|]
    |destruct (MaxIndexTuplesPerPage <? PageGetMaxOffsetNumber page) eqn:Hmax];
    try apply Z.ltb_lt in Hcnt; try apply Z.ltb_ge in Hcnt;
    try apply Z.ltb_lt in Hmax; try apply Z.ltb_ge in Hmax;
    subst violation; simpl.
  all: repeat split; try discriminate; try congruence; try lia.
  all: try (intros _; eexists; repeat split; reflexivity).
  all: try (intros _; right; left; split; [reflexivity|lia]).
  all: try (intros _; left; split; reflexivity).
  all: try (intros _; right; right; split; [reflexivity|lia]).
  all: try (intros [e [He _]]; discriminate He).
  all: try (intros [[? ?]|[[? ?]|[? ?]]]; try discriminate; try congruence; lia).
  all: try (intros Hn; exfalso; apply Hn; intuition (try congruence; try lia)).
Qed.

(** ** The heap pointer check of a posting list *)

(** C10: [validate_leaf] reads the array the reader returns at index
    [nipd - 1].  The index is inside the array when the tuple declares at
    least one item.  When the tuple declares none, the reader returns an
    empty array and 0, and the read is at index -1, outside the array. *)
Theorem validate_posting_list_last_item (itup : IndexTupleData)
    (blkno : BlockNumber) (ipd : list ItemPointerData) (nipd : Z) :
  ginReadTupleWithoutState itup = Ok (ipd, nipd) ->
  0 <= nipd ->
  validate_posting_list itup blkno =
    (let* last := array_get ipd (nipd - 1) in
     if negb (OffsetNumberIsValid (ItemPointerGetOffsetNumber last))
     then Raise (invalid_heap_pointer blkno) else Ok tt) /\
  (0 < nipd -> exists last, array_get ipd (nipd - 1) = Ok last) /\
  (nipd = 0 ->
   ipd = [] /\
   array_get ipd (nipd - 1) = Undefined (array_out_of_bounds (-1) 0) /\
   validate_posting_list itup blkno = Undefined (array_out_of_bounds (-1) 0)).
Proof.
  intros Hread Hnn.
  destruct (ginReadTupleWithoutState_count _ _ _ Hread) as (Hn & Hlen & Hnil).
  assert (Hv : validate_posting_list itup blkno =
    (let* last := array_get ipd (nipd - 1) in
     if negb (OffsetNumberIsValid (ItemPointerGetOffsetNumber last))
     then Raise (invalid_heap_pointer blkno) else Ok tt)).
  { unfold validate_posting_list. rewrite Hread. reflexivity. }
  split; [exact Hv|split].
  - intros Hpos. specialize (Hlen Hpos). unfold array_get.
    destruct (nipd - 1 <? 0) eqn:Hneg; [apply Z.ltb_lt in Hneg; lia|].
    destruct (nth_error ipd (Z.to_nat (nipd - 1))) as [p|] eqn:Hnth.
    + eauto.
    + apply nth_error_None in Hnth. lia.
  - intros Hzero. rewrite Hv, (Hnil ltac:(lia)), Hzero. auto.
Qed.

(** ** The walk of a posting tree *)

Lemma posting_item_step_pushes (stack : GinPostingTreeScanItem)
    (page : PageData) (i : OffsetNumber) (next : list GinPostingTreeScanItem) :
  posting_item_step stack page i next =
    Ok ((if GinPageIsLeaf page then []
         else map (child_item stack)
                (filter has_full_key [GinDataPageGetPostingItem page i]))
        ++ next).
Proof.
  unfold posting_item_step, has_full_key, ItemPointerGetBlockNumberNoCheck,
    ItemPointerGetOffsetNumberNoCheck. simpl.
  destruct (ip_blkid (key (GinDataPageGetPostingItem page i)) =? 0);
    destruct (ip_posid (key (GinDataPageGetPostingItem page i)) =? 0);
    destruct (GinPageIsLeaf page); reflexivity.
Qed.

Lemma posting_loop_pushes (stack : GinPostingTreeScanItem) (page : PageData)
    (n : nat) :
  forall (i : OffsetNumber) (next : list GinPostingTreeScanItem),
  for_offsets n i (posting_item_step stack page) next =
    Ok ((if GinPageIsLeaf page then []
         else rev (map (child_item stack)
                     (filter has_full_key
                        (map (GinDataPageGetPostingItem page)
                           (offsets_from n i)))))
        ++ next).
Proof.
  induction n as [|n IH]; intros i next.
  - simpl. destruct (GinPageIsLeaf page); reflexivity.
  - cbn [for_offsets offsets_from]. rewrite posting_item_step_pushes.
    cbn [bind]. rewrite IH.
    destruct (GinPageIsLeaf page); [reflexivity|].
    cbn [map filter].
    destruct (has_full_key (GinDataPageGetPostingItem page i)); cbn [map rev app].
    + rewrite <- app_assoc. reflexivity.
    + reflexivity.
Qed.

Lemma in_offsets_from (n : nat) :
  forall i j : OffsetNumber,
  In j (offsets_from n i) <-> i <= j < i + Z.of_nat n.
Proof.
  induction n as [|n IH]; intros i j; cbn [offsets_from In].
  - lia.
  - rewrite IH. unfold OffsetNumberNext. lia.
Qed.

(** C3, as the walk does it: the visit of an internal data page pushes, for
    each posting item whose key has a block and an offset other than zero, an
    item of the scan that carries it as the parent item and addresses its
    child block, the last offset on top; it pushes nothing for the items
    whose key has a zero block or a zero offset. *)
Theorem posting_tree_visit_pushes (rel : Relation)
    (stack : GinPostingTreeScanItem) (next : list GinPostingTreeScanItem)
    (leafdepth : Z) (page : PageData) :
  ReadBufferExtended rel (pt_blkno stack) = Ok page ->
  GinPageIsLeaf page = false ->
  let pushed :=
    rev (map (child_item stack) (filter has_full_key (posting_items page))) in
  posting_tree_visit rel stack next leafdepth = Ok (pushed ++ next, leafdepth)
  /\
  (forall i, 1 <= i <= PageGetMaxOffsetNumber page ->
     has_full_key (GinDataPageGetPostingItem page i) = true ->
     In (child_item stack (GinDataPageGetPostingItem page i)) pushed) /\
  (forall c, In c pushed ->
     exists i, 1 <= i <= PageGetMaxOffsetNumber page /\
               has_full_key (GinDataPageGetPostingItem page i) = true /\
               c = child_item stack (GinDataPageGetPostingItem page i)).
Proof.
  intros Hread Hleaf pushed. split; [|split].
  - unfold posting_tree_visit, for_each_offset.
    rewrite Hread. cbn [bind]. unfold check_leafdepth. rewrite Hleaf.
    cbn [bind]. rewrite posting_loop_pushes, Hleaf. reflexivity.
  - intros i Hi Hfull. subst pushed. rewrite <- in_rev.
    apply in_map, filter_In. split; [|exact Hfull].
    unfold posting_items. apply in_map, in_offsets_from.
    unfold FirstOffsetNumber. lia.
  - intros c Hc. subst pushed. rewrite <- in_rev in Hc.
    apply in_map_iff in Hc. destruct Hc as (pitem & <- & Hin).
    apply filter_In in Hin. destruct Hin as (Hin & Hfull).
    unfold posting_items in Hin. apply in_map_iff in Hin.
    destruct Hin as (i & <- & Hi). apply in_offsets_from in Hi.
    unfold FirstOffsetNumber in Hi. exists i.
    split; [lia|split; [exact Hfull|reflexivity]].
Qed.

(** The visit of any data page leaves a leaf depth that is set as it is, and
    the items it pushes are one level below the item visited. *)
Lemma posting_tree_visit_keeps_leafdepth (rel : Relation)
    (stack : GinPostingTreeScanItem) (next : list GinPostingTreeScanItem)
    (leafdepth : Z) (next' : list GinPostingTreeScanItem) (leafdepth' : Z) :
  posting_tree_visit rel stack next leafdepth = Ok (next', leafdepth') ->
  (leafdepth <> -1 -> leafdepth' = leafdepth) /\
  (leafdepth = -1 -> leafdepth' = -1 \/ leafdepth' = pt_depth stack) /\
  exists pushed,
    next' = pushed ++ next /\
    Forall (fun c => pt_depth c = pt_depth stack + 1) pushed.
Proof.
  unfold posting_tree_visit, for_each_offset.
  destruct (ReadBufferExtended rel (pt_blkno stack)) as [page| | |];
    cbn [bind]; try discriminate.
  destruct (check_leafdepth page (pt_depth stack) (pt_blkno stack) leafdepth)
    as [ld| | |] eqn:Hdepth; cbn [bind]; try discriminate.
  rewrite posting_loop_pushes. cbn [bind]. intros [= <- <-].
  unfold check_leafdepth in Hdepth. split; [|split].
  - intros Hset. apply Z.eqb_neq in Hset. rewrite Hset in Hdepth.
    destruct (GinPageIsLeaf page); [|congruence].
    destruct (pt_depth stack =? leafdepth); cbn [negb] in Hdepth; congruence.
  - intros ->. cbn in Hdepth. destruct (GinPageIsLeaf page);
      injection Hdepth as <-; auto.
  - eexists. split; [reflexivity|].
    destruct (GinPageIsLeaf page); [constructor|].
    apply Forall_rev, Forall_map, Forall_forall. intros pitem _. reflexivity.
Qed.

(** ** Re-finding the downlink *)

Lemma refind_loop_found (parentblkno : BlockNumber) (parentpage : PageData)
    (childblkno : BlockNumber) (n : nat) :
  forall (o : OffsetNumber) (itup : IndexTupleData),
  refind_loop n o parentblkno parentpage childblkno = Ok (Some itup) ->
  ItemPointerGetBlockNumber (t_tid itup) = childblkno /\
  exists o' lp, o <= o' < o + Z.of_nat n /\
                PageGetItem parentpage o' = Some (lp, itup).
Proof.
  induction n as [|n IH]; intros o itup; cbn [refind_loop].
  - discriminate.
  - unfold PageGetItemIdCareful.
    destruct (PageGetItem parentpage o) as [[lp t]|] eqn:Hitem;
      cbn [bind]; [|discriminate].
    destruct (ItemPointerGetBlockNumber (t_tid t) =? childblkno) eqn:Heq.
    + intros [= <-]. apply Z.eqb_eq in Heq. split; [exact Heq|].
      exists o, lp. split; [lia|exact Hitem].
    + intros Hrec. apply IH in Hrec. destruct Hrec as (Hd & o' & lp' & Ho & Hi).
      split; [exact Hd|]. exists o', lp'. unfold OffsetNumberNext in Ho.
      split; [lia|exact Hi].
Qed.

Lemma refind_loop_missing (parentblkno : BlockNumber) (parentpage : PageData)
    (childblkno : BlockNumber) (n : nat) :
  forall o : OffsetNumber,
  (forall o', o <= o' < o + Z.of_nat n ->
     exists lp itup, PageGetItem parentpage o' = Some (lp, itup) /\
                     ItemPointerGetBlockNumber (t_tid itup) <> childblkno) ->
  refind_loop n o parentblkno parentpage childblkno = Ok None.
Proof.
  induction n as [|n IH]; intros o Hall; cbn [refind_loop].
  - reflexivity.
  - destruct (Hall o ltac:(lia)) as (lp & t & Hitem & Hne).
    unfold PageGetItemIdCareful. rewrite Hitem. cbn [bind].
    apply Z.eqb_neq in Hne. rewrite Hne. apply IH.
    intros o' Ho'. apply Hall. unfold OffsetNumberNext in Ho'. lia.
Qed.

(** [gin_refind_parent] returns no tuple for a parent that is now a leaf, and
    for a parent none of whose tuples addresses the child; a tuple it returns
    is on the parent page and addresses the child. *)
Lemma gin_refind_parent_result (rel : Relation)
    (parentblkno childblkno : BlockNumber) (parentpage : PageData) :
  ReadBufferExtended rel parentblkno = Ok parentpage ->
  (GinPageIsLeaf parentpage = true ->
   gin_refind_parent rel parentblkno childblkno = Ok None) /\
  (GinPageIsLeaf parentpage = false ->
   (forall o, 1 <= o <= PageGetMaxOffsetNumber parentpage ->
      exists lp itup, PageGetItem parentpage o = Some (lp, itup) /\
                      ItemPointerGetBlockNumber (t_tid itup) <> childblkno) ->
   gin_refind_parent rel parentblkno childblkno = Ok None) /\
  (forall itup,
   gin_refind_parent rel parentblkno childblkno = Ok (Some itup) ->
   GinPageIsLeaf parentpage = false /\
   ItemPointerGetBlockNumber (t_tid itup) = childblkno /\
   exists o lp, 1 <= o <= PageGetMaxOffsetNumber parentpage /\
                PageGetItem parentpage o = Some (lp, itup)).
Proof.
  intros Hread. unfold gin_refind_parent. rewrite Hread. cbn [bind].
  split; [|split].
  - intros ->. reflexivity.
  - intros -> Hall. apply refind_loop_missing. intros o' Ho'.
    apply Hall. unfold FirstOffsetNumber in Ho'. lia.
  - intros itup. destruct (GinPageIsLeaf parentpage); [discriminate|].
    intros Hfound. apply refind_loop_found in Hfound.
    destruct Hfound as (Hd & o & lp & Ho & Hitem).
    split; [reflexivity|split; [exact Hd|]]. exists o, lp.
    unfold FirstOffsetNumber in Ho. split; [lia|exact Hitem].
Qed.

Lemma refind_loop_raises (parentblkno : BlockNumber) (parentpage : PageData)
    (childblkno : BlockNumber) (e : ErrorData) (n : nat) :
  forall o : OffsetNumber,
  refind_loop n o parentblkno parentpage childblkno = Raise e ->
  exists o', e = line_pointer_invalid parentblkno o'.
Proof.
  induction n as [|n IH]; intros o; cbn [refind_loop]; [discriminate|].
  unfold PageGetItemIdCareful.
  destruct (PageGetItem parentpage o) as [[lp t]|]; cbn [bind].
  - destruct (ItemPointerGetBlockNumber (t_tid t) =? childblkno);
      [discriminate|apply IH].
  - intros [= <-]. eauto.
Qed.

(** The errors of the re-find are those of its two collaborators. *)
Lemma gin_refind_parent_raises (rel : Relation)
    (parentblkno childblkno : BlockNumber) (e : ErrorData) :
  gin_refind_parent rel parentblkno childblkno = Raise e ->
  (exists b, e = read_failed b) \/ (exists b o, e = line_pointer_invalid b o).
Proof.
  unfold gin_refind_parent, ReadBufferExtended.
  destruct (parentblkno <? 0); [intros [= <-]; eauto|].
  destruct (nth_error rel (Z.to_nat parentblkno)) as [pp|]; cbn [bind];
    [|intros [= <-]; eauto].
  destruct (GinPageIsLeaf pp); [discriminate|].
  intros Hr. apply refind_loop_raises in Hr. destruct Hr as [o ->]. eauto.
Qed.

(** The loop returns the first tuple that addresses the child, the line
    pointers before it being valid. *)
Lemma refind_loop_first (parentblkno : BlockNumber) (parentpage : PageData)
    (childblkno : BlockNumber) (n : nat) :
  forall (o : OffsetNumber) (itup : IndexTupleData),
  refind_loop n o parentblkno parentpage childblkno = Ok (Some itup) <->
  exists o' lp,
    o <= o' < o + Z.of_nat n /\
    PageGetItem parentpage o' = Some (lp, itup) /\
    ItemPointerGetBlockNumber (t_tid itup) = childblkno /\
    forall o'', o <= o'' < o' ->
      exists lp' itup', PageGetItem parentpage o'' = Some (lp', itup') /\
                        ItemPointerGetBlockNumber (t_tid itup') <> childblkno.
Proof.
  induction n as [|n IH]; intros o itup; cbn [refind_loop].
  - split; [discriminate|]. intros (o' & lp & Ho & _). lia.
  - unfold PageGetItemIdCareful.
    destruct (PageGetItem parentpage o) as [[lp t]|] eqn:Hitem; cbn [bind].
    + destruct (ItemPointerGetBlockNumber (t_tid t) =? childblkno) eqn:Heq.
      * apply Z.eqb_eq in Heq. split.
        -- intros [= <-]. exists o, lp.
           split; [lia|]. split; [exact Hitem|]. split; [exact Heq|].
           intros o'' Ho''. lia.
        -- intros (o' & lp' & Ho & Hitem' & Hd & Hbefore).
           destruct (Z.eq_dec o' o) as [->|Hne]; [congruence|].
           destruct (Hbefore o ltac:(lia)) as (lp2 & t2 & Hi2 & Hd2).
           congruence.
      * apply Z.eqb_neq in Heq. rewrite IH. unfold OffsetNumberNext. split.
        -- intros (o' & lp' & Ho & Hitem' & Hd & Hbefore).
           exists o', lp'. split; [lia|]. split; [exact Hitem'|].
           split; [exact Hd|]. intros o'' Ho''.
           destruct (Z.eq_dec o'' o) as [->|Hne]; [eauto|].
           apply Hbefore. lia.
        -- intros (o' & lp' & Ho & Hitem' & Hd & Hbefore).
           destruct (Z.eq_dec o' o) as [->|Hne]; [congruence|].
           exists o', lp'. split; [lia|]. split; [exact Hitem'|].
           split; [exact Hd|]. intros o'' Ho''. apply Hbefore. lia.
    + split; [discriminate|].
      intros (o' & lp' & Ho & Hitem' & Hd & Hbefore).
      destruct (Z.eq_dec o' o) as [->|Hne]; [congruence|].
      destruct (Hbefore o ltac:(lia)) as (lp2 & t2 & Hi2 & _). congruence.
Qed.

(** The loop ends without a tuple only after all the offsets, each with a
    valid line pointer and a tuple that addresses another block. *)
Lemma refind_loop_none (parentblkno : BlockNumber) (parentpage : PageData)
    (childblkno : BlockNumber) (n : nat) :
  forall o : OffsetNumber,
  refind_loop n o parentblkno parentpage childblkno = Ok None ->
  forall o', o <= o' < o + Z.of_nat n ->
    exists lp itup, PageGetItem parentpage o' = Some (lp, itup) /\
                    ItemPointerGetBlockNumber (t_tid itup) <> childblkno.
Proof.
  induction n as [|n IH]; intros o; cbn [refind_loop]; [intros _ o' Ho'; lia|].
  unfold PageGetItemIdCareful.
  destruct (PageGetItem parentpage o) as [[lp t]|] eqn:Hitem; cbn [bind];
    [|discriminate].
  destruct (ItemPointerGetBlockNumber (t_tid t) =? childblkno) eqn:Heq;
    [discriminate|].
  intros Hrest o' Ho'. apply Z.eqb_neq in Heq.
  destruct (Z.eq_dec o' o) as [->|Hne]; [eauto|].
  apply (IH _ Hrest). unfold OffsetNumberNext. lia.
Qed.

(** The loop raises the error of the first invalid line pointer that no
    tuple addressing the child precedes. *)
Lemma refind_loop_invalid (parentblkno : BlockNumber) (parentpage : PageData)
    (childblkno : BlockNumber) (n : nat) :
  forall o o' : OffsetNumber,
  o <= o' < o + Z.of_nat n ->
  (forall o'', o <= o'' < o' ->
     exists lp itup, PageGetItem parentpage o'' = Some (lp, itup) /\
                     ItemPointerGetBlockNumber (t_tid itup) <> childblkno) ->
  PageGetItem parentpage o' = None ->
  refind_loop n o parentblkno parentpage childblkno =
    Raise (line_pointer_invalid parentblkno o').
Proof.
  induction n as [|n IH]; intros o o' Ho Hbefore Hnone; cbn [refind_loop];
    [lia|].
  unfold PageGetItemIdCareful.
  destruct (Z.eq_dec o' o) as [->|Hne].
  - rewrite Hnone. reflexivity.
  - destruct (Hbefore o ltac:(lia)) as (lp & t & Hitem & Hd).
    rewrite Hitem. cbn [bind]. apply Z.eqb_neq in Hd. rewrite Hd.
    apply IH; [unfold OffsetNumberNext; lia| |exact Hnone].
    intros o'' Ho''. apply Hbefore. unfold OffsetNumberNext in Ho''. lia.
Qed.

(** What the re-find does at the offset its scan stops at. *)
Lemma gin_refind_parent_stops (rel : Relation)
    (parentblkno childblkno : BlockNumber) (parentpage : PageData)
    (o : OffsetNumber) :
  ReadBufferExtended rel parentblkno = Ok parentpage ->
  GinPageIsLeaf parentpage = false ->
  refind_reaches parentpage childblkno o ->
  (forall lp itup,
     PageGetItem parentpage o = Some (lp, itup) ->
     ItemPointerGetBlockNumber (t_tid itup) = childblkno ->
     gin_refind_parent rel parentblkno childblkno = Ok (Some itup)) /\
  (PageGetItem parentpage o = None ->
   gin_refind_parent rel parentblkno childblkno =
     Raise (line_pointer_invalid parentblkno o)).
Proof.
  intros Hread Hleaf [Ho Hbefore]. unfold gin_refind_parent.
  rewrite Hread. cbn [bind]. rewrite Hleaf. unfold FirstOffsetNumber. split.
  - intros lp itup Hitem Hd. apply refind_loop_first. exists o, lp.
    split; [lia|]. split; [exact Hitem|]. split; [exact Hd|exact Hbefore].
  - intros Hnone. apply refind_loop_invalid; [lia|exact Hbefore|exact Hnone].
Qed.

(** The tuple the re-find returns is the one its scan stops at. *)
Lemma gin_refind_parent_found (rel : Relation)
    (parentblkno childblkno : BlockNumber) (parentpage : PageData)
    (itup : IndexTupleData) :
  ReadBufferExtended rel parentblkno = Ok parentpage ->
  gin_refind_parent rel parentblkno childblkno = Ok (Some itup) ->
  GinPageIsLeaf parentpage = false /\
  exists o lp,
    refind_reaches parentpage childblkno o /\
    PageGetItem parentpage o = Some (lp, itup) /\
    ItemPointerGetBlockNumber (t_tid itup) = childblkno.
Proof.
  intros Hread. unfold gin_refind_parent. rewrite Hread. cbn [bind].
  destruct (GinPageIsLeaf parentpage); [discriminate|].
  rewrite refind_loop_first. unfold FirstOffsetNumber.
  intros (o & lp & Ho & Hitem & Hd & Hbefore). split; [reflexivity|].
  exists o, lp. split; [split; [lia|exact Hbefore]|]. auto.
Qed.

(** The re-find returns no tuple only for a parent that is a leaf or none of
    whose tuples addresses the child. *)
Lemma gin_refind_parent_none (rel : Relation)
    (parentblkno childblkno : BlockNumber) (parentpage : PageData) :
  ReadBufferExtended rel parentblkno = Ok parentpage ->
  gin_refind_parent rel parentblkno childblkno = Ok None ->
  GinPageIsLeaf parentpage = true \/
  (forall o, 1 <= o <= PageGetMaxOffsetNumber parentpage ->
     exists lp itup, PageGetItem parentpage o = Some (lp, itup) /\
                     ItemPointerGetBlockNumber (t_tid itup) <> childblkno).
Proof.
  intros Hread. unfold gin_refind_parent. rewrite Hread. cbn [bind].
  destruct (GinPageIsLeaf parentpage); [auto|].
  intros Hnone. right. intros o Ho.
  apply (refind_loop_none _ _ _ _ _ Hnone). unfold FirstOffsetNumber. lia.
Qed.

(** ** The check of the last tuple against the parent *)

(** C2: at the last tuple of a page reached through a parent tuple, when
    [compare(cur.key, parent.key) > 0] fails the walk re-finds the downlink
    on the parent page, and that page fixes the outcome of the check.  When
    the parent is now a leaf or none of its tuples addresses the block of
    the page, no tuple is found: the check logs the notice and goes on
    without error, and it logs the notice in no other case.  When a tuple
    addresses the block, the first one in the order of the offsets is the
    one found: the check raises the corruption error when the comparison
    with that tuple fails again, and goes on with it as the parent tuple
    otherwise; the corruption error has no other origin.  A failed read of
    the parent block, and an invalid line pointer of the parent page that no
    such tuple precedes, end the check with their own error, and the check
    raises no other error. *)
Theorem parent_check_refinds_downlink (rel : Relation) (stack : GinScanItem)
    (parent : IndexTupleData) (attnum : OffsetNumber)
    (idxtuple : IndexTupleData) (maxoff : OffsetNumber) :
  compare_tuple_keys attnum idxtuple parent <= 0 ->
  let refind := gin_refind_parent rel (parentblk stack) (blkno stack) in
  let check :=
    parent_check rel stack (Some parent) attnum idxtuple maxoff maxoff in
  let notice :=
    [notice_unable_to_find_parent (blkno stack) (parentblk stack)] in
  let no_downlink parentpage :=
    GinPageIsLeaf parentpage = true \/
    (forall o, 1 <= o <= PageGetMaxOffsetNumber parentpage ->
       exists lp itup,
         PageGetItem parentpage o = Some (lp, itup) /\
         ItemPointerGetBlockNumber (t_tid itup) <> blkno stack) in
  let first_downlink parentpage parent' :=
    GinPageIsLeaf parentpage = false /\
    exists o lp,
      refind_reaches parentpage (blkno stack) o /\
      PageGetItem parentpage o = Some (lp, parent') /\
      ItemPointerGetBlockNumber (t_tid parent') = blkno stack in
  (forall e,
     ReadBufferExtended rel (parentblk stack) = Raise e -> check = Raise e) /\
  (forall parentpage,
     ReadBufferExtended rel (parentblk stack) = Ok parentpage ->
     (no_downlink parentpage ->
      refind = Ok None /\ check = Ok (None, notice)) /\
     (forall parent',
        first_downlink parentpage parent' ->
        refind = Ok (Some parent') /\
        (compare_tuple_keys attnum idxtuple parent' <= 0 ->
         check = Raise (inconsistent_records (blkno stack) maxoff)) /\
        (0 < compare_tuple_keys attnum idxtuple parent' ->
         check = Ok (Some parent', []))) /\
     (forall o,
        GinPageIsLeaf parentpage = false ->
        refind_reaches parentpage (blkno stack) o ->
        PageGetItem parentpage o = None ->
        check = Raise (line_pointer_invalid (parentblk stack) o)) /\
     (check = Raise (inconsistent_records (blkno stack) maxoff) ->
      exists parent',
        first_downlink parentpage parent' /\
        compare_tuple_keys attnum idxtuple parent' <= 0) /\
     (forall now log,
        check = Ok (now, log) ->
        (now = None /\ log = notice /\ no_downlink parentpage) \/
        (exists parent',
           now = Some parent' /\ log = [] /\
           first_downlink parentpage parent' /\
           0 < compare_tuple_keys attnum idxtuple parent'))) /\
  (forall e,
     check = Raise e ->
     e = inconsistent_records (blkno stack) maxoff \/
     e = read_failed (parentblk stack) \/
     exists o, e = line_pointer_invalid (parentblk stack) o).
Proof.
  intros Hcmp refind check notice no_downlink first_downlink.
  assert (Hcheck :
    check =
      (let* refound := refind in
       match refound with
       | None => Ok (None, notice)
       | Some parent' =>
           if compare_tuple_keys attnum idxtuple parent' <=? 0
           then Raise (inconsistent_records (blkno stack) maxoff)
           else Ok (Some parent', [])
       end)).
  { subst check. unfold parent_check. rewrite Z.eqb_refl.
    apply Z.leb_le in Hcmp. rewrite Hcmp. reflexivity. }
  assert (Hfound : forall parent',
    refind = Ok (Some parent') ->
    (compare_tuple_keys attnum idxtuple parent' <= 0 ->
     check = Raise (inconsistent_records (blkno stack) maxoff)) /\
    (0 < compare_tuple_keys attnum idxtuple parent' ->
     check = Ok (Some parent', []))).
  { intros parent' Hr. rewrite Hcheck, Hr. cbn [bind]. split; intros Hc.
    - apply Z.leb_le in Hc. rewrite Hc. reflexivity.
    - apply Z.leb_gt in Hc. rewrite Hc. reflexivity. }
  split; [|split].
  - intros e Hread. rewrite Hcheck. subst refind. unfold gin_refind_parent.
    rewrite Hread. reflexivity.
  - intros parentpage Hread. split; [|split; [|split; [|split]]].
    + intros Hmissing.
      assert (Hr : refind = Ok None).
      { subst refind.
        destruct (gin_refind_parent_result rel (parentblk stack)
                    (blkno stack) parentpage Hread) as (Hleaf & Hnone & _).
        destruct Hmissing as [Hl|Hall]; [exact (Hleaf Hl)|].
        destruct (GinPageIsLeaf parentpage) eqn:Hl; [exact (Hleaf eq_refl)|].
        exact (Hnone eq_refl Hall). }
      split; [exact Hr|]. rewrite Hcheck, Hr. reflexivity.
    + intros parent' (Hleaf & o & lp & Hreach & Hitem & Hd).
      assert (Hr : refind = Ok (Some parent')).
      { subst refind.
        destruct (gin_refind_parent_stops rel (parentblk stack) (blkno stack)
                    parentpage o Hread Hleaf Hreach) as [Hstop _].
        exact (Hstop lp parent' Hitem Hd). }
      split; [exact Hr|exact (Hfound parent' Hr)].
    + intros o Hleaf Hreach Hnone. rewrite Hcheck. subst refind.
      destruct (gin_refind_parent_stops rel (parentblk stack) (blkno stack)
                  parentpage o Hread Hleaf Hreach) as [_ Hstop].
      rewrite (Hstop Hnone). reflexivity.
    + rewrite Hcheck.
      destruct refind as [[parent'|]|e|u|] eqn:Hr; cbn [bind];
        try discriminate.
      * destruct (compare_tuple_keys attnum idxtuple parent' <=? 0) eqn:Hc;
          [|discriminate].
        intros _. exists parent'. apply Z.leb_le in Hc. split; [|exact Hc].
        exact (gin_refind_parent_found _ _ _ _ _ Hread Hr).
      * intros [= He]. subst e. exfalso. revert Hr. subst refind.
        unfold gin_refind_parent. rewrite Hread. cbn [bind].
        destruct (GinPageIsLeaf parentpage); [discriminate|].
        intros Hr. apply refind_loop_raises in Hr. destruct Hr as [o Hr].
        discriminate Hr.
    + intros now log. rewrite Hcheck.
      destruct refind as [[parent'|]|e|u|] eqn:Hr; cbn [bind];
        try discriminate.
      * destruct (compare_tuple_keys attnum idxtuple parent' <=? 0) eqn:Hc;
          [discriminate|].
        intros [= <- <-]. right. exists parent'. apply Z.leb_gt in Hc.
        split; [reflexivity|]. split; [reflexivity|]. split; [|exact Hc].
        exact (gin_refind_parent_found _ _ _ _ _ Hread Hr).
      * intros [= <- <-]. left. split; [reflexivity|].
        split; [reflexivity|].
        exact (gin_refind_parent_none _ _ _ _ Hread Hr).
  - intros e. rewrite Hcheck.
    destruct refind as [[parent'|]|e'|u|] eqn:Hr; cbn [bind];
      try discriminate.
    + destruct (compare_tuple_keys attnum idxtuple parent' <=? 0);
        [|discriminate].
      intros [= <-]. auto.
    + intros [= <-]. right. revert Hr. subst refind.
      unfold gin_refind_parent, ReadBufferExtended.
      destruct (parentblk stack <? 0); [intros [= <-]; auto|].
      destruct (nth_error rel (Z.to_nat (parentblk stack))) as [pp|];
        cbn [bind]; [|intros [= <-]; auto].
      destruct (GinPageIsLeaf pp); [discriminate|].
      intros Hr. apply refind_loop_raises in Hr. destruct Hr as [o ->].
      right. eauto.
Qed.

(** Without a failed comparison the check does nothing: at a tuple other
    than the last, without a parent tuple, or when
    [compare(cur.key, parent.key) > 0] holds. *)
Lemma parent_check_passes (rel : Relation) (stack : GinScanItem)
    (stack_parenttup : option IndexTupleData) (attnum : OffsetNumber)
    (idxtuple : IndexTupleData) (i maxoff : OffsetNumber) :
  i <> maxoff \/ stack_parenttup = None \/
  (exists parent, stack_parenttup = Some parent /\
                  0 < compare_tuple_keys attnum idxtuple parent) ->
  parent_check rel stack stack_parenttup attnum idxtuple i maxoff =
    Ok (stack_parenttup, []).
Proof.
  unfold parent_check. intros [Hi|[->|(parent & -> & Hc)]].
  - apply Z.eqb_neq in Hi. rewrite Hi.
    destruct stack_parenttup; reflexivity.
  - reflexivity.
  - apply Z.leb_gt in Hc. rewrite Hc. destruct (i =? maxoff); reflexivity.
Qed.

(** ** The scan of the tuples of an entry page *)

(** What a turn of the loop that ends without error has done. *)
Lemma entry_tuple_step_ok (fuel : nat) (rel : Relation) (stack : GinScanItem)
    (page : PageData) (lsn : Z) (maxoff i : OffsetNumber) (s s' : EntryScan) :
  entry_tuple_step fuel rel stack page lsn maxoff i s = Ok s' ->
  exists lp idxtuple,
    PageGetItem page i = Some (lp, idxtuple) /\
    MAXALIGN lp = MAXALIGN (IndexTupleSize idxtuple) /\
    order_check stack (gintuple_get_attrnum idxtuple) (prev_tuple s)
      idxtuple i = Ok tt /\
    (exists notice,
       parent_check rel stack (stack_parenttup s)
         (gintuple_get_attrnum idxtuple) idxtuple i maxoff
       = Ok (stack_parenttup s', notice)) /\
    prev_tuple s' = Some idxtuple /\
    stack_next s' =
      (if GinPageIsLeaf page then []
       else [{| depth := depth stack + 1;
                parenttup := Some idxtuple;
                parentblk := blkno stack;
                parentlsn := lsn;
                blkno := ItemPointerGetBlockNumber (t_tid idxtuple) |}])
      ++ stack_next s.
Proof.
  unfold entry_tuple_step, PageGetItemIdCareful.
  destruct (PageGetItem page i) as [[lp idxtuple]|]; cbn [bind];
    [|discriminate].
  destruct (MAXALIGN lp =? MAXALIGN (IndexTupleSize idxtuple)) eqn:Hsz;
    cbn [negb]; [|discriminate].
  destruct (order_check stack (gintuple_get_attrnum idxtuple) (prev_tuple s)
              idxtuple i) as [[]| | |] eqn:Hord; cbn [bind]; try discriminate.
  destruct (parent_check rel stack (stack_parenttup s)
              (gintuple_get_attrnum idxtuple) idxtuple i maxoff)
    as [[parent notice]| | |] eqn:Hpar; cbn [bind]; try discriminate.
  intros Hs. exists lp, idxtuple. rewrite Hord, Hpar. apply Z.eqb_eq in Hsz.
  destruct (GinPageIsLeaf page); cbn [negb] in Hs.
  - destruct (validate_leaf fuel rel page (blkno stack) (scan_log s ++ notice));
      cbn [bind] in Hs; try discriminate.
    injection Hs as <-. cbn.
    split; [reflexivity|split; [exact Hsz|split; [reflexivity|]]].
    split; [exists notice; reflexivity|split; reflexivity].
  - injection Hs as <-. cbn.
    split; [reflexivity|split; [exact Hsz|split; [reflexivity|]]].
    split; [exists notice; reflexivity|split; reflexivity].
Qed.

(** The items a scan that ends without error has pushed are items for the
    children of the page. *)
Lemma entry_scan_pushes_children (fuel : nat) (rel : Relation)
    (stack : GinScanItem) (page : PageData) (lsn : Z) (maxoff : OffsetNumber)
    (n : nat) :
  forall (i : OffsetNumber) (s s' : EntryScan),
  for_offsets n i (entry_tuple_step fuel rel stack page lsn maxoff) s = Ok s' ->
  exists children,
    Forall (is_child_of stack) children /\
    length children = (if GinPageIsLeaf page then O else n) /\
    stack_next s' = children ++ stack_next s.
Proof.
  induction n as [|n IH]; intros i s s'; cbn [for_offsets].
  - intros [= <-]. exists []. destruct (GinPageIsLeaf page); auto.
  - destruct (entry_tuple_step fuel rel stack page lsn maxoff i s)
      as [s1| | |] eqn:Hstep; cbn [bind]; try discriminate.
    intros Hrest. apply IH in Hrest.
    destruct Hrest as (children & Hall & Hlen & Hnext).
    apply entry_tuple_step_ok in Hstep.
    destruct Hstep as (lp & t & _ & _ & _ & _ & _ & Hpush).
    rewrite Hpush in Hnext. rewrite Hnext.
    destruct (GinPageIsLeaf page).
    + exists children. auto.
    + exists (children ++
              [{| depth := depth stack + 1; parenttup := Some t;
                  parentblk := blkno stack; parentlsn := lsn;
                  blkno := ItemPointerGetBlockNumber (t_tid t) |}]).
      split; [|split].
      * apply Forall_app. split; [exact Hall|].
        constructor; [split; reflexivity|constructor].
      * rewrite length_app, Hlen. cbn. lia.
      * rewrite <- app_assoc. reflexivity.
Qed.

(** A scan that ends without error has found, at every offset after the
    first, a tuple with [compare(prev.key, cur.key) > 0]. *)
Lemma entry_scan_order (fuel : nat) (rel : Relation) (stack : GinScanItem)
    (page : PageData) (lsn : Z) (maxoff : OffsetNumber) (n : nat) :
  forall (i : OffsetNumber) (s s' : EntryScan),
  for_offsets n i (entry_tuple_step fuel rel stack page lsn maxoff) s = Ok s' ->
  (i <> FirstOffsetNumber ->
   exists lp prev, PageGetItem page (i - 1) = Some (lp, prev) /\
                   prev_tuple s = Some prev) ->
  forall j, i <= j < i + Z.of_nat n -> j <> FirstOffsetNumber ->
  exists lp prev lp' cur,
    PageGetItem page (j - 1) = Some (lp, prev) /\
    PageGetItem page j = Some (lp', cur) /\
    0 < compare_tuple_keys (gintuple_get_attrnum cur) prev cur.
Proof.
  induction n as [|n IH]; intros i s s'; cbn [for_offsets].
  - intros _ _ j Hj. lia.
  - destruct (entry_tuple_step fuel rel stack page lsn maxoff i s)
      as [s1| | |] eqn:Hstep; cbn [bind]; try discriminate.
    intros Hrest Hprev j Hj Hj1.
    apply entry_tuple_step_ok in Hstep.
    destruct Hstep as (lp' & cur & Hitem & _ & Hord & _ & Hprev' & _).
    destruct (Z.eq_dec j i) as [->|Hne].
    + destruct (Hprev Hj1) as (lp & prev & Hpi & Hps).
      exists lp, prev, lp', cur. split; [exact Hpi|split; [exact Hitem|]].
      unfold order_check in Hord. rewrite Hps in Hord.
      apply Z.eqb_neq in Hj1. rewrite Hj1 in Hord. cbn [negb] in Hord.
      destruct (compare_tuple_keys (gintuple_get_attrnum cur) prev cur <=? 0)
        eqn:Hc; [discriminate|]. apply Z.leb_gt in Hc. exact Hc.
    + apply (IH _ _ _ Hrest).
      * intros _. exists lp', cur. unfold OffsetNumberNext.
        replace (1 + i - 1) with i by lia. auto.
      * unfold OffsetNumberNext. lia.
      * exact Hj1.
Qed.

(** A turn of the scan on a tuple that passes the checks of its size and of
    its order goes through the check against the parent, then pushes the
    child or validates the leaf. *)
Lemma entry_tuple_step_runs_parent_check (fuel : nat) (rel : Relation)
    (stack : GinScanItem) (page : PageData) (lsn : Z)
    (maxoff i : OffsetNumber) (s : EntryScan) (lp : Z)
    (idxtuple : IndexTupleData) :
  PageGetItem page i = Some (lp, idxtuple) ->
  MAXALIGN lp = MAXALIGN (IndexTupleSize idxtuple) ->
  order_check stack (gintuple_get_attrnum idxtuple) (prev_tuple s) idxtuple i
    = Ok tt ->
  entry_tuple_step fuel rel stack page lsn maxoff i s =
    (let* (parent, notice) :=
       parent_check rel stack (stack_parenttup s)
         (gintuple_get_attrnum idxtuple) idxtuple i maxoff in
     if GinPageIsLeaf page then
       let* log :=
         validate_leaf fuel rel page (blkno stack) (scan_log s ++ notice) in
       Ok {| prev_tuple := Some idxtuple; stack_parenttup := parent;
             stack_next := stack_next s; scan_log := log |}
     else
       Ok {| prev_tuple := Some idxtuple; stack_parenttup := parent;
             stack_next :=
               {| depth := depth stack + 1;
                  parenttup := Some idxtuple;
                  parentblk := blkno stack;
                  parentlsn := lsn;
                  blkno := ItemPointerGetBlockNumber (t_tid idxtuple) |}
               :: stack_next s;
             scan_log := scan_log s ++ notice |}).
Proof.
  intros Hitem Hsz Hord. unfold entry_tuple_step, PageGetItemIdCareful.
  rewrite Hitem. cbn [bind]. apply Z.eqb_eq in Hsz. rewrite Hsz, Hord.
  cbn [negb bind].
  destruct (parent_check rel stack (stack_parenttup s)
              (gintuple_get_attrnum idxtuple) idxtuple i maxoff)
    as [[parent notice]| | |]; cbn [bind]; try reflexivity.
  destruct (GinPageIsLeaf page); reflexivity.
Qed.

(** The tuples of a page whose visit ends without error have
    [compare(prev.key, cur.key) > 0] at every adjacent pair. *)
Lemma entry_tree_visit_order (fuel : nat) (rel : Relation)
    (stack : GinScanItem) (next : list GinScanItem) (leafdepth : Z)
    (log : list LogLine) (page : PageData)
    (next' : list GinScanItem) (leafdepth' : Z) (log' : list LogLine) :
  ReadBufferExtended rel (blkno stack) = Ok page ->
  entry_tree_visit fuel rel stack next leafdepth log =
    Ok (next', leafdepth', log') ->
  forall j, 1 < j <= PageGetMaxOffsetNumber page ->
  exists lp prev lp' cur,
    PageGetItem page (j - 1) = Some (lp, prev) /\
    PageGetItem page j = Some (lp', cur) /\
    0 < compare_tuple_keys (gintuple_get_attrnum cur) prev cur.
Proof.
  intros Hread Hvisit j Hj.
  unfold entry_tree_visit in Hvisit. rewrite Hread in Hvisit.
  cbn [bind] in Hvisit.
  destruct (check_index_page page (blkno stack)) as [[]| | |];
    cbn [bind] in Hvisit; try discriminate.
  destruct (split_check stack page) as [[sibling info]| | |];
    cbn [bind] in Hvisit; try discriminate.
  destruct (check_leafdepth page (depth stack) (blkno stack) leafdepth)
    as [ld| | |]; cbn [bind] in Hvisit; try discriminate.
  destruct (for_each_offset _ _ _) as [s| | |] eqn:Hscan;
    cbn [bind] in Hvisit; try discriminate.
  unfold for_each_offset in Hscan.
  apply (entry_scan_order _ _ _ _ _ _ _ _ _ _ Hscan).
  - intros Hne. congruence.
  - unfold FirstOffsetNumber. lia.
  - unfold FirstOffsetNumber. lia.
Qed.

(** C7, as the walk does it: at every offset after the first, the scan
    raises the order error, with the block and the offset of the second
    tuple, when [compare(prev.key, cur.key)] under the attribute of the
    current tuple is negative or zero, and the order check passes when it is
    positive; the tuples of a page whose visit ends without error have
    [compare(prev.key, cur.key) > 0] at every adjacent pair. *)
Theorem entry_tuple_step_wrong_order (fuel : nat) (rel : Relation)
    (stack : GinScanItem) (next : list GinScanItem) (leafdepth : Z)
    (log : list LogLine) (page : PageData) :
  ReadBufferExtended rel (blkno stack) = Ok page ->
  (forall lsn maxoff i s prev lp cur,
     i <> FirstOffsetNumber ->
     prev_tuple s = Some prev ->
     PageGetItem page i = Some (lp, cur) ->
     MAXALIGN lp = MAXALIGN (IndexTupleSize cur) ->
     (compare_tuple_keys (gintuple_get_attrnum cur) prev cur <= 0 ->
      entry_tuple_step fuel rel stack page lsn maxoff i s =
        Raise (wrong_tuple_order (blkno stack) i)) /\
     (0 < compare_tuple_keys (gintuple_get_attrnum cur) prev cur ->
      order_check stack (gintuple_get_attrnum cur) (prev_tuple s) cur i =
        Ok tt)) /\
  (forall next' leafdepth' log',
     entry_tree_visit fuel rel stack next leafdepth log =
       Ok (next', leafdepth', log') ->
     forall j, 1 < j <= PageGetMaxOffsetNumber page ->
     exists lp prev lp' cur,
       PageGetItem page (j - 1) = Some (lp, prev) /\
       PageGetItem page j = Some (lp', cur) /\
       0 < compare_tuple_keys (gintuple_get_attrnum cur) prev cur).
Proof.
  intros Hread. split.
  - intros lsn maxoff i s prev lp cur Hi Hprev Hitem Hsz.
    unfold entry_tuple_step, PageGetItemIdCareful. rewrite Hitem. cbn [bind].
    apply Z.eqb_eq in Hsz. rewrite Hsz. cbn [negb].
    unfold order_check. apply Z.eqb_neq in Hi. rewrite Hi, Hprev. cbn [negb].
    split; intros Hc.
    + apply Z.leb_le in Hc. rewrite Hc. reflexivity.
    + apply Z.leb_gt in Hc. rewrite Hc. reflexivity.
  - intros next' ld' log' Hvisit.
    exact (entry_tree_visit_order _ _ _ _ _ _ _ _ _ _ Hread Hvisit).
Qed.

(** ** A turn of the walk of the entry tree *)

(** What a visit that ends without error has gone through. *)
Lemma entry_tree_visit_ok (fuel : nat) (rel : Relation) (stack : GinScanItem)
    (next : list GinScanItem) (leafdepth : Z) (log : list LogLine)
    (next' : list GinScanItem) (leafdepth' : Z) (log' : list LogLine) :
  entry_tree_visit fuel rel stack next leafdepth log =
    Ok (next', leafdepth', log') ->
  exists page sibling info s,
    ReadBufferExtended rel (blkno stack) = Ok page /\
    check_index_page page (blkno stack) = Ok tt /\
    split_check stack page = Ok (sibling, info) /\
    check_leafdepth page (depth stack) (blkno stack) leafdepth =
      Ok leafdepth' /\
    for_each_offset (PageGetMaxOffsetNumber page)
      (entry_tuple_step fuel rel stack page (pd_lsn page)
         (PageGetMaxOffsetNumber page))
      {| prev_tuple := None;
         stack_parenttup := parenttup stack;
         stack_next := sibling ++ next;
         scan_log := log ++ info |} = Ok s /\
    next' = stack_next s /\ log' = scan_log s.
Proof.
  unfold entry_tree_visit.
  destruct (ReadBufferExtended rel (blkno stack)) as [page| | |] eqn:Hread;
    cbn [bind]; try discriminate.
  destruct (check_index_page page (blkno stack)) as [[]| | |] eqn:Hsane;
    cbn [bind]; try discriminate.
  destruct (split_check stack page) as [[sibling info]| | |] eqn:Hsplit;
    cbn [bind]; try discriminate.
  destruct (check_leafdepth page (depth stack) (blkno stack) leafdepth)
    as [ld| | |] eqn:Hdepth; cbn [bind]; try discriminate.
  destruct (for_each_offset _ _ _) as [s| | |] eqn:Hscan;
    cbn [bind]; try discriminate.
  intros [= <- <- <-]. exists page, sibling, info, s.
  repeat (split; [first [reflexivity|assumption]|]). reflexivity.
Qed.

(** The stack after a visit that ends without error: the items for the
    children, above what the split check has installed, above the rest. *)
Lemma entry_tree_visit_stack (fuel : nat) (rel : Relation)
    (stack : GinScanItem) (next : list GinScanItem) (leafdepth : Z)
    (log : list LogLine) (page : PageData)
    (next' : list GinScanItem) (leafdepth' : Z) (log' : list LogLine) :
  ReadBufferExtended rel (blkno stack) = Ok page ->
  entry_tree_visit fuel rel stack next leafdepth log =
    Ok (next', leafdepth', log') ->
  exists sibling info children,
    split_check stack page = Ok (sibling, info) /\
    Forall (is_child_of stack) children /\
    next' = children ++ sibling ++ next.
Proof.
  intros Hread Hvisit. apply entry_tree_visit_ok in Hvisit.
  destruct Hvisit as (page' & sibling & info & s & Hread' & _ & Hsplit & _
                      & Hscan & -> & _).
  rewrite Hread in Hread'. injection Hread' as <-.
  apply entry_scan_pushes_children in Hscan.
  destruct Hscan as (children & Hall & _ & Hnext).
  exists sibling, info, children. auto.
Qed.

(** The scan of a page with tuples that ends without error has passed the
    check against the parent at the last tuple, with the parent tuple of the
    item. *)
Lemma entry_scan_last_tuple (fuel : nat) (rel : Relation) (stack : GinScanItem)
    (page : PageData) (lsn : Z) (maxoff : OffsetNumber) (n : nat) :
  forall (i : OffsetNumber) (s s' : EntryScan),
  for_offsets (S n) i (entry_tuple_step fuel rel stack page lsn maxoff) s
    = Ok s' ->
  i + Z.of_nat n = maxoff ->
  exists lp last notice,
    PageGetItem page maxoff = Some (lp, last) /\
    parent_check rel stack (stack_parenttup s) (gintuple_get_attrnum last)
      last maxoff maxoff = Ok (stack_parenttup s', notice).
Proof.
  induction n as [|n IH]; intros i s s' Hscan Hi;
    cbn [for_offsets] in Hscan;
    destruct (entry_tuple_step fuel rel stack page lsn maxoff i s)
      as [s1| | |] eqn:Hstep; cbn [bind] in Hscan; try discriminate;
    apply entry_tuple_step_ok in Hstep;
    destruct Hstep as (lp & t & Hitem & _ & _ & (notice & Hpar) & _ & _).
  - injection Hscan as <-. replace i with maxoff in * by lia. eauto.
  - assert (Hne : i <> maxoff) by lia.
    rewrite (parent_check_passes rel stack (stack_parenttup s) _ t i maxoff
               (or_introl Hne)) in Hpar.
    injection Hpar as Hsame _. rewrite Hsame.
    apply (IH (OffsetNumberNext i)); [exact Hscan|].
    unfold OffsetNumberNext. lia.
Qed.

(** C1, as the walk does it: at the last tuple of a child page whose
    downlink is still on the parent page, the check raises the corruption
    error when the key of the child's last tuple is below or equal to the key
    of the parent tuple, and accepts when it is above; so the last tuple of a
    child page whose visit ends without error has a key above the key of the
    parent tuple.  Whether the page is the right-most of its level plays no
    part. *)
Theorem parent_check_rejects_covered_child (fuel : nat) (rel : Relation)
    (stack : GinScanItem) (next : list GinScanItem) (leafdepth : Z)
    (log : list LogLine) (page : PageData) (parent : IndexTupleData) :
  ReadBufferExtended rel (blkno stack) = Ok page ->
  parenttup stack = Some parent ->
  0 < PageGetMaxOffsetNumber page ->
  gin_refind_parent rel (parentblk stack) (blkno stack) = Ok (Some parent) ->
  (forall attnum idxtuple maxoff,
     (compare_tuple_keys attnum idxtuple parent <= 0 ->
      parent_check rel stack (Some parent) attnum idxtuple maxoff maxoff =
        Raise (inconsistent_records (blkno stack) maxoff)) /\
     (0 < compare_tuple_keys attnum idxtuple parent ->
      parent_check rel stack (Some parent) attnum idxtuple maxoff maxoff =
        Ok (Some parent, []))) /\
  (forall next' leafdepth' log',
     entry_tree_visit fuel rel stack next leafdepth log =
       Ok (next', leafdepth', log') ->
     exists lp last,
       PageGetItem page (PageGetMaxOffsetNumber page) = Some (lp, last) /\
       0 < compare_tuple_keys (gintuple_get_attrnum last) last parent).
Proof.
  intros Hread Hparent Hmax Hre.
  assert (Hcheck : forall attnum idxtuple maxoff,
     (compare_tuple_keys attnum idxtuple parent <= 0 ->
      parent_check rel stack (Some parent) attnum idxtuple maxoff maxoff =
        Raise (inconsistent_records (blkno stack) maxoff)) /\
     (0 < compare_tuple_keys attnum idxtuple parent ->
      parent_check rel stack (Some parent) attnum idxtuple maxoff maxoff =
        Ok (Some parent, []))).
  { intros attnum idxtuple maxoff. unfold parent_check.
    rewrite Z.eqb_refl, Hre. cbn [bind]. split; intros Hc.
    - apply Z.leb_le in Hc. rewrite Hc. reflexivity.
    - apply Z.leb_gt in Hc. rewrite Hc. reflexivity. }
  split; [exact Hcheck|].
  intros next' ld' log' Hvisit. apply entry_tree_visit_ok in Hvisit.
  destruct Hvisit as (page' & sibling & info & s & Hread' & _ & _ & _
                      & Hscan & _ & _).
  rewrite Hread in Hread'. injection Hread' as <-.
  unfold for_each_offset in Hscan.
  destruct (Z.to_nat (PageGetMaxOffsetNumber page)) as [|n] eqn:Hn; [lia|].
  apply entry_scan_last_tuple in Hscan;
    [|unfold FirstOffsetNumber; lia].
  destruct Hscan as (lp & last & notice & Hitem & Hpar).
  cbn [stack_parenttup] in Hpar. rewrite Hparent in Hpar.
  exists lp, last. split; [exact Hitem|].
  destruct (Z_le_gt_dec (compare_tuple_keys (gintuple_get_attrnum last) last
                           parent) 0) as [Hle|Hgt]; [|lia].
  destruct (Hcheck (gintuple_get_attrnum last) last
              (PageGetMaxOffsetNumber page)) as [Hraise _].
  rewrite (Hraise Hle) in Hpar. discriminate Hpar.
Qed.

(** C4: when a parent tuple is present, the right link of the page is valid
    and the comparison of the key of the page's last tuple with the key of
    the parent tuple is negative or zero, the split check installs one item
    with the depth and the parent tuple, block and LSN of the current item
    and the right sibling as its block; in every other case it installs
    none.  After the visit the stack holds items for children, then what the
    split check has installed, then the rest. *)
Theorem split_check_pushes_right_sibling (fuel : nat) (rel : Relation)
    (stack : GinScanItem) (next : list GinScanItem) (leafdepth : Z)
    (log : list LogLine) (page : PageData) :
  ReadBufferExtended rel (blkno stack) = Ok page ->
  (forall parent lp idxtuple,
     parenttup stack = Some parent ->
     PageGetItem page (PageGetMaxOffsetNumber page) = Some (lp, idxtuple) ->
     let split :=
       rightlink page <> InvalidBlockNumber /\
       compare_tuple_keys (gintuple_get_attrnum idxtuple) idxtuple parent <= 0
     in
     (split ->
      split_check stack page =
        Ok ([sibling_item stack parent page], [info_split_detected])) /\
     (~ split -> split_check stack page = Ok ([], [])) /\
     (forall next' leafdepth' log',
        entry_tree_visit fuel rel stack next leafdepth log =
          Ok (next', leafdepth', log') ->
        exists children,
          Forall (is_child_of stack) children /\
          (split -> next' = children ++ sibling_item stack parent page :: next)
          /\ (~ split -> next' = children ++ next))) /\
  (parenttup stack = None ->
   split_check stack page = Ok ([], []) /\
   (forall next' leafdepth' log',
      entry_tree_visit fuel rel stack next leafdepth log =
        Ok (next', leafdepth', log') ->
      exists children,
        Forall (is_child_of stack) children /\ next' = children ++ next)).
Proof.
  intros Hread. split.
  - intros parent lp idxtuple Hparent Hitem split.
    assert (Hyes : split ->
              split_check stack page =
                Ok ([sibling_item stack parent page], [info_split_detected])).
    { intros [Hrl Hc]. unfold split_check, PageGetItemIdCareful.
      rewrite Hparent, Hitem. cbn [bind].
      apply Z.eqb_neq in Hrl. apply Z.leb_le in Hc. rewrite Hrl, Hc.
      reflexivity. }
    assert (Hno : ~ split -> split_check stack page = Ok ([], [])).
    { intros Hn. unfold split_check, PageGetItemIdCareful.
      rewrite Hparent, Hitem. cbn [bind].
      destruct (rightlink page =? InvalidBlockNumber) eqn:Hrl;
        [reflexivity|].
      destruct (compare_tuple_keys (gintuple_get_attrnum idxtuple) idxtuple
                  parent <=? 0) eqn:Hc; [|reflexivity].
      exfalso. apply Hn. apply Z.eqb_neq in Hrl. apply Z.leb_le in Hc.
      split; assumption. }
    split; [exact Hyes|split; [exact Hno|]].
    intros next' ld' log' Hvisit.
    destruct (entry_tree_visit_stack _ _ _ _ _ _ _ _ _ _ Hread Hvisit)
      as (sibling & info & children & Hsplit & Hall & ->).
    exists children. split; [exact Hall|]. split; intros Hs.
    + rewrite (Hyes Hs) in Hsplit. injection Hsplit as <- <-. reflexivity.
    + rewrite (Hno Hs) in Hsplit. injection Hsplit as <- <-. reflexivity.
  - intros Hparent.
    assert (Hno : split_check stack page = Ok ([], [])).
    { unfold split_check. rewrite Hparent. reflexivity. }
    split; [exact Hno|]. intros next' ld' log' Hvisit.
    destruct (entry_tree_visit_stack _ _ _ _ _ _ _ _ _ _ Hread Hvisit)
      as (sibling & info & children & Hsplit & Hall & ->).
    exists children. split; [exact Hall|].
    rewrite Hno in Hsplit. injection Hsplit as <- <-. reflexivity.
Qed.

(** The visit of an internal page without tuples raises nothing: the scan
    has no turn, and the stack is left with what the split check has
    installed. *)
Lemma entry_tree_visit_empty_internal (fuel : nat) (rel : Relation)
    (stack : GinScanItem) (next : list GinScanItem) (leafdepth : Z)
    (log : list LogLine) (page : PageData) (sibling : list GinScanItem)
    (info : list LogLine) :
  ReadBufferExtended rel (blkno stack) = Ok page ->
  check_index_page page (blkno stack) = Ok tt ->
  split_check stack page = Ok (sibling, info) ->
  GinPageIsLeaf page = false ->
  PageGetMaxOffsetNumber page = 0 ->
  entry_tree_visit fuel rel stack next leafdepth log =
    Ok (sibling ++ next, leafdepth, log ++ info).
Proof.
  intros Hread Hsane Hsplit Hleaf Hmax. unfold entry_tree_visit.
  rewrite Hread. cbn [bind]. rewrite Hsane. cbn [bind].
  rewrite Hsplit. cbn [bind]. unfold check_leafdepth. rewrite Hleaf.
  cbn [bind]. rewrite Hmax. reflexivity.
Qed.

(** C6, as the walk does it: an index whose root is an internal page without
    any tuple passes the whole check, with nothing logged. *)
Theorem root_without_downlinks_accepted (fuel : nat) (rel : Relation)
    (page : PageData) :
  ReadBufferExtended rel GIN_ROOT_BLKNO = Ok page ->
  check_index_page page GIN_ROOT_BLKNO = Ok tt ->
  GinPageIsLeaf page = false ->
  PageGetMaxOffsetNumber page = 0 ->
  gin_check_parent_keys_consistency (S fuel) rel = Ok [].
Proof.
  intros Hread Hsane Hleaf Hmax.
  unfold gin_check_parent_keys_consistency. cbn [entry_tree_loop].
  rewrite (entry_tree_visit_empty_internal fuel rel _ [] (-1) [] page [] []);
    auto.
  cbn [bind app]. destruct fuel; reflexivity.
Qed.

(** ** The depth of the leaves *)

Lemma check_leafdepth_agrees (page : PageData) (d : Z) (blkno : BlockNumber)
    (leafdepth leafdepth' : Z) (met : list Z) :
  0 <= d ->
  leafdepth_agrees leafdepth met ->
  check_leafdepth page d blkno leafdepth = Ok leafdepth' ->
  leafdepth_agrees leafdepth'
    (if GinPageIsLeaf page then met ++ [d] else met).
Proof.
  intros Hd Hagree. unfold check_leafdepth.
  destruct (GinPageIsLeaf page); [|intros [= <-]; exact Hagree].
  destruct Hagree as [(-> & ->)|(Hmet & Hld & Hall)].
  - cbn. intros [= <-]. right. split; [discriminate|].
    split; [exact Hd|]. constructor; [reflexivity|constructor].
  - destruct (leafdepth =? -1) eqn:Hset; [apply Z.eqb_eq in Hset; lia|].
    destruct (d =? leafdepth) eqn:Heq; cbn [negb]; [|discriminate].
    intros [= <-]. apply Z.eqb_eq in Heq. right. split; [|split].
    + destruct met; [congruence|discriminate].
    + exact Hld.
    + apply Forall_app. split; [exact Hall|]. constructor; [exact Heq|constructor].
Qed.

Lemma posting_walk_keeps_invariant (rel : Relation) (w w' : PostingWalk) :
  posting_walk_reaches rel w w' ->
  posting_walk_invariant w -> posting_walk_invariant w'.
Proof.
  induction 1 as [w|fuel item next ld met next' ld' w Hvisit Hreach IH];
    [auto|].
  intros [Hstack Hagree]. apply IH. cbn in Hstack, Hagree.
  inversion Hstack as [|? ? Hitem Hnext]; subst.
  pose proof (posting_tree_visit_keeps_leafdepth _ _ _ _ _ _ Hvisit)
    as (_ & _ & pushed & -> & Hpushed).
  split; cbn.
  - apply Forall_app. split; [|exact Hnext].
    eapply Forall_impl; [|exact Hpushed]. cbn. intros c Hc. lia.
  - unfold posting_tree_visit in Hvisit. unfold leaves_met.
    destruct (ReadBufferExtended rel (pt_blkno item)) as [page| | |];
      cbn [bind] in Hvisit; try discriminate.
    destruct (check_leafdepth page (pt_depth item) (pt_blkno item) ld)
      as [ld1| | |] eqn:Hdepth; cbn [bind] in Hvisit; try discriminate.
    unfold for_each_offset in Hvisit. rewrite posting_loop_pushes in Hvisit.
    cbn [bind] in Hvisit. injection Hvisit as _ <-.
    eapply check_leafdepth_agrees; eauto.
Qed.

(** The loop run from a state the walk reaches is the rest of the loop run
    from the first state. *)
Lemma posting_walk_reaches_loop (rel : Relation) (w w' : PostingWalk) :
  posting_walk_reaches rel w w' ->
  posting_tree_loop (pw_fuel w) rel (pw_stack w) (pw_leafdepth w) =
  posting_tree_loop (pw_fuel w') rel (pw_stack w') (pw_leafdepth w').
Proof.
  induction 1 as [w|fuel item next ld met next' ld' w Hvisit Hreach IH];
    [reflexivity|].
  cbn [pw_fuel pw_stack pw_leafdepth posting_tree_loop] in *.
  rewrite Hvisit. cbn [bind]. exact IH.
Qed.

Lemma split_check_depth (stack : GinScanItem) (page : PageData)
    (sibling : list GinScanItem) (info : list LogLine) :
  split_check stack page = Ok (sibling, info) ->
  Forall (fun c => depth c = depth stack) sibling.
Proof.
  unfold split_check. destruct (parenttup stack) as [parent|];
    [|intros [= <- <-]; constructor].
  destruct (PageGetItemIdCareful (blkno stack) page
              (PageGetMaxOffsetNumber page)) as [[lp t]| | |];
    cbn [bind]; try discriminate.
  destruct (_ && _); intros [= <- <-]; repeat constructor.
Qed.

Lemma entry_walk_keeps_invariant (rel : Relation) (w w' : EntryWalk) :
  entry_walk_reaches rel w w' ->
  entry_walk_invariant w -> entry_walk_invariant w'.
Proof.
  induction 1
    as [w|fuel item next ld log met next' ld' log' w Hvisit Hreach IH];
    [auto|].
  intros [Hstack Hagree]. apply IH. cbn in Hstack, Hagree.
  inversion Hstack as [|? ? Hitem Hnext]; subst.
  apply entry_tree_visit_ok in Hvisit.
  destruct Hvisit as (page & sibling & info & s & Hread & _ & Hsplit & Hdepth
                      & Hscan & -> & ->).
  apply entry_scan_pushes_children in Hscan.
  destruct Hscan as (children & Hchildren & _ & Hnext').
  cbn [stack_next] in Hnext'. split; cbn.
  - rewrite Hnext'. apply Forall_app. split.
    + eapply Forall_impl; [|exact Hchildren]. intros c [Hc _]. lia.
    + apply Forall_app. split; [|exact Hnext].
      apply split_check_depth in Hsplit.
      eapply Forall_impl; [|exact Hsplit]. cbn. intros c Hc. lia.
  - unfold leaves_met. rewrite Hread.
    eapply check_leafdepth_agrees; eauto.
Qed.

Lemma entry_walk_reaches_loop (rel : Relation) (w w' : EntryWalk) :
  entry_walk_reaches rel w w' ->
  entry_tree_loop (ew_fuel w) rel (ew_stack w) (ew_leafdepth w) (ew_log w) =
  entry_tree_loop (ew_fuel w') rel (ew_stack w') (ew_leafdepth w') (ew_log w').
Proof.
  induction 1
    as [w|fuel item next ld log met next' ld' log' w Hvisit Hreach IH];
    [reflexivity|].
  cbn [ew_fuel ew_stack ew_leafdepth ew_log entry_tree_loop] in *.
  rewrite Hvisit. cbn [bind]. exact IH.
Qed.

(** C5: in the walk of a posting tree and in the walk of the entry tree, the
    first leaf page met sets the leaf depth to the depth of its item; at
    every leaf page met after it, the leaf depth is the depth of all the
    leaves met so far, and when the depth of the item differs from it the
    visit, and with it the whole walk, raises the corruption error that
    names the block of the page.  Each walk starts with no leaf depth set,
    whatever the other has found. *)
Theorem leaf_depth_is_uniform (rel : Relation)
    (pfuel0 pfuel : nat) (root : BlockNumber)
    (pstack : GinPostingTreeScanItem) (pnext : list GinPostingTreeScanItem)
    (pleafdepth : Z) (pmet : list Z) (ppage : PageData)
    (fuel0 fuel : nat)
    (stack : GinScanItem) (next : list GinScanItem) (leafdepth : Z)
    (log : list LogLine) (met : list Z) (page : PageData)
    (sibling : list GinScanItem) (info : list LogLine) :
  posting_walk_reaches rel (posting_walk_start pfuel0 root)
    {| pw_fuel := S pfuel; pw_stack := pstack :: pnext;
       pw_leafdepth := pleafdepth; pw_leaves := pmet |} ->
  ReadBufferExtended rel (pt_blkno pstack) = Ok ppage ->
  GinPageIsLeaf ppage = true ->
  entry_walk_reaches rel (entry_walk_start fuel0)
    {| ew_fuel := S fuel; ew_stack := stack :: next;
       ew_leafdepth := leafdepth; ew_log := log; ew_leaves := met |} ->
  ReadBufferExtended rel (blkno stack) = Ok page ->
  GinPageIsLeaf page = true ->
  check_index_page page (blkno stack) = Ok tt ->
  split_check stack page = Ok (sibling, info) ->
  (* the walk of a posting tree *)
  (pmet = [] ->
   posting_tree_visit rel pstack pnext pleafdepth =
     Ok (pnext, pt_depth pstack)) /\
  (pmet <> [] ->
   Forall (fun d => d = pleafdepth) pmet /\
   (pt_depth pstack = pleafdepth ->
    posting_tree_visit rel pstack pnext pleafdepth = Ok (pnext, pleafdepth))
   /\
   (pt_depth pstack <> pleafdepth ->
    posting_tree_visit rel pstack pnext pleafdepth =
      Raise (leaf_page_unexpected (pt_blkno pstack)) /\
    gin_check_posting_tree_parent_keys_consistency pfuel0 rel root =
      Raise (leaf_page_unexpected (pt_blkno pstack)))) /\
  (* the walk of the entry tree *)
  (forall next' leafdepth' log',
     entry_tree_visit fuel rel stack next leafdepth log =
       Ok (next', leafdepth', log') ->
     (met = [] -> leafdepth' = depth stack) /\
     (met <> [] -> leafdepth' = leafdepth /\ depth stack = leafdepth)) /\
  (met <> [] ->
   Forall (fun d => d = leafdepth) met /\
   (depth stack <> leafdepth ->
    entry_tree_visit fuel rel stack next leafdepth log =
      Raise (leaf_page_unexpected (blkno stack)) /\
    gin_check_parent_keys_consistency fuel0 rel =
      Raise (leaf_page_unexpected (blkno stack)))) /\
  (* the leaf depth each walk starts with *)
  pw_leafdepth (posting_walk_start pfuel0 root) = -1 /\
  ew_leafdepth (entry_walk_start fuel0) = -1.
Proof.
  intros Hpreach Hpread Hpleaf Hreach Hread Hleaf Hsane Hsplit.
  assert (Hpvisit : posting_tree_visit rel pstack pnext pleafdepth =
            (let* ld := check_leafdepth ppage (pt_depth pstack)
                          (pt_blkno pstack) pleafdepth in
             Ok (pnext, ld))).
  { unfold posting_tree_visit, for_each_offset. rewrite Hpread. cbn [bind].
    destruct (check_leafdepth ppage (pt_depth pstack) (pt_blkno pstack)
                pleafdepth); cbn [bind]; try reflexivity.
    rewrite posting_loop_pushes, Hpleaf. reflexivity. }
  assert (Hvisit : entry_tree_visit fuel rel stack next leafdepth log =
            (let* ld := check_leafdepth page (depth stack) (blkno stack)
                          leafdepth in
             let* s :=
               for_each_offset (PageGetMaxOffsetNumber page)
                 (entry_tuple_step fuel rel stack page (pd_lsn page)
                    (PageGetMaxOffsetNumber page))
                 {| prev_tuple := None; stack_parenttup := parenttup stack;
                    stack_next := sibling ++ next;
                    scan_log := log ++ info |} in
             Ok (stack_next s, ld, scan_log s))).
  { unfold entry_tree_visit. rewrite Hread. cbn [bind]. rewrite Hsane.
    cbn [bind]. rewrite Hsplit. reflexivity. }
  pose proof (posting_walk_keeps_invariant _ _ _ Hpreach) as Hpinv.
  destruct Hpinv as [_ Hpagree].
  { split; cbn; [constructor; [cbn; lia|constructor]|left; auto]. }
  pose proof (entry_walk_keeps_invariant _ _ _ Hreach) as Hinv.
  destruct Hinv as [_ Hagree].
  { split; cbn; [constructor; [cbn; lia|constructor]|left; auto]. }
  cbn in Hpagree, Hagree.
  apply posting_walk_reaches_loop in Hpreach.
  apply entry_walk_reaches_loop in Hreach.
  cbn [pw_fuel pw_stack pw_leafdepth posting_walk_start] in Hpreach.
  cbn [ew_fuel ew_stack ew_leafdepth ew_log entry_walk_start] in Hreach.
  unfold gin_check_posting_tree_parent_keys_consistency,
    gin_check_parent_keys_consistency.
  rewrite Hpreach, Hreach. cbn [posting_tree_loop entry_tree_loop].
  rewrite Hpvisit, Hvisit. unfold check_leafdepth. rewrite Hpleaf, Hleaf.
  split; [|split; [|split; [|split; [|split; reflexivity]]]].
  - intros ->. destruct Hpagree as [(_ & ->)|(Hne & _)]; [reflexivity|].
    congruence.
  - intros Hne. destruct Hpagree as [(-> & _)|(_ & Hld & Hall)];
      [congruence|].
    assert (Hset : (pleafdepth =? -1) = false) by (apply Z.eqb_neq; lia).
    rewrite Hset. split; [exact Hall|]. split; intros Hd.
    + apply Z.eqb_eq in Hd. rewrite Hd. reflexivity.
    + apply Z.eqb_neq in Hd. rewrite Hd. cbn [negb bind]. auto.
  - intros next' ld' log'.
    destruct Hagree as [(-> & ->)|(Hne & Hld & Hall)].
    + cbn [Z.eqb bind].
      destruct (for_each_offset _ _ _) as [s| | |]; cbn [bind];
        try discriminate.
      intros [= <- <- <-]. split; [reflexivity|congruence].
    + assert (Hset : (leafdepth =? -1) = false) by (apply Z.eqb_neq; lia).
      rewrite Hset. destruct (depth stack =? leafdepth) eqn:Hd;
        cbn [negb bind]; [|discriminate].
      destruct (for_each_offset _ _ _) as [s| | |]; cbn [bind];
        try discriminate.
      intros [= <- <- <-]. apply Z.eqb_eq in Hd.
      split; [congruence|auto].
  - intros Hne. destruct Hagree as [(-> & _)|(_ & Hld & Hall)];
      [congruence|].
    assert (Hset : (leafdepth =? -1) = false) by (apply Z.eqb_neq; lia).
    rewrite Hset. split; [exact Hall|]. intros Hd.
    apply Z.eqb_neq in Hd. rewrite Hd. cbn [negb bind]. auto.
Qed.

End Properties.

(** * The properties on the small indexes *)

(** C1 on [two_level_index]: with the key 5 on the child, below the key 10 of
    its downlink, the check of the last tuple raises the error; with the key
    15, above it, the check accepts. *)
Lemma parent_check_rejects_covered_child_witness :
  parent_check (env := example_env) (two_level_index 5) block_2_item
    (Some (downlink_tuple 10 2)) 1 (leaf_tuple 5) 1 1 =
    Raise (inconsistent_records 2 1) /\
  parent_check (env := example_env) (two_level_index 15) block_2_item
    (Some (downlink_tuple 10 2)) 1 (leaf_tuple 15) 1 1 =
    Ok (Some (downlink_tuple 10 2), []) /\
  gin_check_parent_keys_consistency (env := example_env) 10
    (two_level_index 5) = Raise (inconsistent_records 2 1) /\
  gin_check_parent_keys_consistency (env := example_env) 10
    (two_level_index 15) = Ok [info_validating_posting_list 2 1].
Proof.
  split; [|split; [|split; reflexivity]].
  - destruct (parent_check_rejects_covered_child (env := example_env) 10
                (two_level_index 5) block_2_item [] 1 []
                (entry_page GIN_LEAF 3 [leaf_tuple 5]) (downlink_tuple 10 2)
                eq_refl eq_refl eq_refl eq_refl) as [Hcheck _].
    apply Hcheck. vm_compute. discriminate.
  - destruct (parent_check_rejects_covered_child (env := example_env) 10
                (two_level_index 15) block_2_item [] 1 []
                (entry_page GIN_LEAF 3 [leaf_tuple 15]) (downlink_tuple 10 2)
                eq_refl eq_refl eq_refl eq_refl) as [Hcheck _].
    apply Hcheck. reflexivity.
Defined.

(** C2 at the last tuple of block 2, whose key 5 is below the key 10 of the
    parent tuple of its item, on three indexes.  On [moved_downlink_index]
    the root has no downlink to block 2 any more: the check logs the notice
    and goes on.  On [two_level_index 5] the root still holds the downlink
    of key 10: the re-find returns it, the comparison fails again and the
    check raises the error.  On [adjusted_downlink_index] the downlink has
    got the key 3: the re-find returns it and the check goes on with it as
    the parent tuple. *)
Lemma parent_check_refinds_downlink_witness :
  compare_tuple_keys (env := example_env) 1 (leaf_tuple 5)
    (downlink_tuple 10 2) <= 0 /\
  (gin_refind_parent moved_downlink_index 1 2 = Ok None /\
   parent_check (env := example_env) moved_downlink_index block_2_item
     (Some (downlink_tuple 10 2)) 1 (leaf_tuple 5) 1 1 =
     Ok (None, [notice_unable_to_find_parent 2 1])) /\
  (gin_refind_parent (two_level_index 5) 1 2 =
     Ok (Some (downlink_tuple 10 2)) /\
   parent_check (env := example_env) (two_level_index 5) block_2_item
     (Some (downlink_tuple 10 2)) 1 (leaf_tuple 5) 1 1 =
     Raise (inconsistent_records 2 1)) /\
  (gin_refind_parent adjusted_downlink_index 1 2 =
     Ok (Some (downlink_tuple 3 2)) /\
   parent_check (env := example_env) adjusted_downlink_index block_2_item
     (Some (downlink_tuple 10 2)) 1 (leaf_tuple 5) 1 1 =
     Ok (Some (downlink_tuple 3 2), [])) /\
  entry_tree_visit (env := example_env) 10 moved_downlink_index block_2_item
    [] 1 [] =
    Ok ([sibling_item block_2_item (downlink_tuple 10 2)
           (entry_page GIN_LEAF 3 [leaf_tuple 5])],
        1,
        [info_split_detected; notice_unable_to_find_parent 2 1;
         info_validating_posting_list 2 1]).
Proof.
  assert (Hc : compare_tuple_keys (env := example_env) 1 (leaf_tuple 5)
                 (downlink_tuple 10 2) <= 0) by (vm_compute; discriminate).
  split; [exact Hc|]. split; [|split; [|split; [|reflexivity]]].
  - pose proof (parent_check_refinds_downlink (env := example_env)
                  moved_downlink_index block_2_item (downlink_tuple 10 2) 1
                  (leaf_tuple 5) 1 Hc) as W.
    cbv zeta in W. destruct W as (_ & Hpage & _).
    destruct (Hpage (entry_page 0 4294967295 [downlink_tuple 10 3]) eq_refl)
      as (Hnone & _).
    apply Hnone. right. intros o Ho.
    assert (Ho1 : o = 1) by (cbn in Ho; lia). subst o.
    exists 16, (downlink_tuple 10 3). split; [reflexivity|].
    vm_compute. discriminate.
  - pose proof (parent_check_refinds_downlink (env := example_env)
                  (two_level_index 5) block_2_item (downlink_tuple 10 2) 1
                  (leaf_tuple 5) 1 Hc) as W.
    cbv zeta in W. destruct W as (_ & Hpage & _).
    destruct (Hpage (entry_page 0 4294967295 [downlink_tuple 10 2]) eq_refl)
      as (_ & Hfound & _).
    destruct (Hfound (downlink_tuple 10 2)) as (Hr & Hfails & _).
    + split; [reflexivity|]. exists 1, 16.
      split; [split; [cbn; lia|intros o' Ho'; lia]|].
      split; reflexivity.
    + split; [exact Hr|]. apply Hfails. exact Hc.
  - pose proof (parent_check_refinds_downlink (env := example_env)
                  adjusted_downlink_index block_2_item (downlink_tuple 10 2)
                  1 (leaf_tuple 5) 1 Hc) as W.
    cbv zeta in W. destruct W as (_ & Hpage & _).
    destruct (Hpage (entry_page 0 4294967295 [downlink_tuple 3 2]) eq_refl)
      as (_ & Hfound & _).
    destruct (Hfound (downlink_tuple 3 2)) as (Hr & _ & Hpasses).
    + split; [reflexivity|]. exists 1, 16.
      split; [split; [cbn; lia|intros o' Ho'; lia]|].
      split; reflexivity.
    + split; [exact Hr|]. apply Hpasses. vm_compute. reflexivity.
Defined.

(** C3 on [posting_tree_index]: the visit of block 2 pushes an item for the
    child 3 of the first posting item and none for the child 4 of the second,
    whose key has a zero block; the whole check ends without error although
    there is no block 4 to read. *)
Lemma posting_item_with_zero_block_not_pushed :
  ReadBufferExtended posting_tree_index 2 = Ok posting_root_page /\
  GinPageIsLeaf posting_root_page = false /\
  GinDataPageGetPostingItem posting_root_page 2 =
    {| child_blkno := 4; key := {| ip_blkid := 0; ip_posid := 5 |} |} /\
  posting_tree_visit posting_tree_index posting_root_item [] (-1) =
    Ok ([child_item posting_root_item
           (GinDataPageGetPostingItem posting_root_page 1)], -1) /\
  ~ In (child_item posting_root_item
          (GinDataPageGetPostingItem posting_root_page 2))
       [child_item posting_root_item
          (GinDataPageGetPostingItem posting_root_page 1)] /\
  ReadBufferExtended posting_tree_index 4 = Raise (read_failed 4) /\
  gin_check_parent_keys_consistency (env := example_env) 10
    posting_tree_index = Ok [info_validating_posting_tree 1 1].
Proof.
  repeat (split; [reflexivity|]). split; [|split; reflexivity].
  intros [Heq|[]]. discriminate Heq.
Defined.

Lemma posting_tree_visit_pushes_witness :
  ReadBufferExtended posting_tree_index 2 = Ok posting_root_page /\
  GinPageIsLeaf posting_root_page = false /\
  posting_tree_visit posting_tree_index posting_root_item [] (-1) =
    Ok (rev (map (child_item posting_root_item)
               (filter has_full_key (posting_items posting_root_page)))
          ++ [], -1).
Proof.
  split; [reflexivity|]. split; [reflexivity|].
  apply (posting_tree_visit_pushes posting_tree_index posting_root_item []
           (-1) posting_root_page eq_refl eq_refl).
Defined.

(** C4 on [two_level_index 5]: block 2 has a right sibling and the key 5 of
    its last tuple is below the key 10 of the parent tuple, so the split
    check installs the item for block 3. *)
Lemma split_check_pushes_right_sibling_witness :
  ReadBufferExtended (two_level_index 5) (blkno block_2_item) =
    Ok (entry_page GIN_LEAF 3 [leaf_tuple 5]) /\
  split_check (env := example_env) block_2_item
    (entry_page GIN_LEAF 3 [leaf_tuple 5]) =
    Ok ([sibling_item block_2_item (downlink_tuple 10 2)
           (entry_page GIN_LEAF 3 [leaf_tuple 5])],
        [info_split_detected]) /\
  blkno (sibling_item block_2_item (downlink_tuple 10 2)
           (entry_page GIN_LEAF 3 [leaf_tuple 5])) = 3.
Proof.
  split; [reflexivity|]. split; [|reflexivity].
  destruct (split_check_pushes_right_sibling (env := example_env) 10
              (two_level_index 5) block_2_item [] 1 []
              (entry_page GIN_LEAF 3 [leaf_tuple 5]) eq_refl)
    as [Hparent _].
  destruct (Hparent (downlink_tuple 10 2) (IndexTupleSize (leaf_tuple 5))
              (leaf_tuple 5) eq_refl eq_refl) as [Hsplit _].
  apply Hsplit. split; vm_compute; discriminate.
Defined.

(** C5 on [uneven_index]: the walk of the posting tree of root 5 meets the
    leaf 8 at depth 2, then the leaf 6 at depth 1, and raises the error for
    block 6; the walk of the entry tree meets the leaf 4 at depth 2, then the
    leaf 2 at depth 1, and raises the error for block 2. *)
Lemma leaf_depth_is_uniform_witness :
  posting_tree_visit uneven_index uneven_block_6_item [] 2 =
    Raise (leaf_page_unexpected 6) /\
  gin_check_posting_tree_parent_keys_consistency (env := example_env) 4
    uneven_index 5 = Raise (leaf_page_unexpected 6) /\
  entry_tree_visit (env := example_env) 0 uneven_index uneven_block_2_item []
    2 [info_validating_posting_list 4 1] = Raise (leaf_page_unexpected 2) /\
  gin_check_parent_keys_consistency (env := example_env) 4 uneven_index =
    Raise (leaf_page_unexpected 2).
Proof.
  assert (Hpreach : posting_walk_reaches uneven_index
            (posting_walk_start (env := example_env) 4 5)
            {| pw_fuel := 1; pw_stack := [uneven_block_6_item];
               pw_leafdepth := 2; pw_leaves := [2] |}).
  { unfold posting_walk_start.
    eapply posting_walk_turn; [reflexivity|].
    eapply posting_walk_turn; [reflexivity|].
    eapply posting_walk_turn; [reflexivity|].
    apply posting_walk_here. }
  assert (Hreach : entry_walk_reaches (env := example_env) uneven_index
            (entry_walk_start (env := example_env) 4)
            {| ew_fuel := 1; ew_stack := [uneven_block_2_item];
               ew_leafdepth := 2;
               ew_log := [info_validating_posting_list 4 1];
               ew_leaves := [2] |}).
  { unfold entry_walk_start.
    eapply entry_walk_turn; [reflexivity|].
    eapply entry_walk_turn; [reflexivity|].
    eapply entry_walk_turn; [reflexivity|].
    apply entry_walk_here. }
  pose proof (leaf_depth_is_uniform (env := example_env) uneven_index
    4 0 5 uneven_block_6_item [] 2 [2]
    (data_page (Z.lor GIN_DATA GIN_LEAF) 7 [])
    4 0 uneven_block_2_item [] 2 [info_validating_posting_list 4 1] [2]
    (entry_page GIN_LEAF 4294967295 [posting_tree_tuple 25 5]) [] []
    Hpreach eq_refl eq_refl Hreach eq_refl eq_refl eq_refl eq_refl)
    as (_ & Hposting & _ & Hentry & _).
  destruct (Hposting ltac:(discriminate)) as (_ & _ & Hp).
  destruct (Hp ltac:(discriminate)) as (Hp1 & Hp2).
  destruct (Hentry ltac:(discriminate)) as (_ & He).
  destruct (He ltac:(discriminate)) as (He1 & He2).
  auto.
Defined.

(** C6 on [empty_root_index]: the check accepts the index. *)
Lemma root_without_downlinks_accepted_witness :
  GinPageIsLeaf (entry_page 0 4294967295 []) = false /\
  PageGetMaxOffsetNumber (entry_page 0 4294967295 []) = 0 /\
  gin_check_parent_keys_consistency (env := example_env) 1 empty_root_index =
    Ok [].
Proof.
  split; [reflexivity|]. split; [reflexivity|].
  apply (root_without_downlinks_accepted (env := example_env) 0
           empty_root_index (entry_page 0 4294967295 []));
    reflexivity.
Defined.

(** C7 on [leaf_root_index]: with the keys 1 and 2 in this order the scan
    raises the order error at the second offset, and so does the whole
    check; with the keys 2 and 1 the whole check accepts. *)
Lemma entry_tuple_step_wrong_order_witness :
  compare_tuple_keys (env := example_env) 1 (leaf_tuple 1) (leaf_tuple 2) <= 0
  /\
  entry_tuple_step (env := example_env) 10 (leaf_root_index 1 2) root_item
    (entry_page GIN_LEAF 4294967295 [leaf_tuple 1; leaf_tuple 2]) 0 2 2
    {| prev_tuple := Some (leaf_tuple 1); stack_parenttup := None;
       stack_next := []; scan_log := [] |} =
    Raise (wrong_tuple_order 1 2) /\
  gin_check_parent_keys_consistency (env := example_env) 10
    (leaf_root_index 1 2) = Raise (wrong_tuple_order 1 2) /\
  gin_check_parent_keys_consistency (env := example_env) 10
    (leaf_root_index 2 1) =
    Ok [info_validating_posting_list 1 1; info_validating_posting_list 1 2;
        info_validating_posting_list 1 1; info_validating_posting_list 1 2].
Proof.
  assert (Hc : compare_tuple_keys (env := example_env) 1 (leaf_tuple 1)
                 (leaf_tuple 2) <= 0) by (vm_compute; discriminate).
  split; [exact Hc|]. split; [|split; reflexivity].
  destruct (entry_tuple_step_wrong_order (env := example_env) 10
              (leaf_root_index 1 2) root_item [] (-1) []
              (entry_page GIN_LEAF 4294967295 [leaf_tuple 1; leaf_tuple 2])
              eq_refl) as [Hstep _].
  apply (Hstep 0 2 2
           {| prev_tuple := Some (leaf_tuple 1); stack_parenttup := None;
              stack_next := []; scan_log := [] |}
           (leaf_tuple 1) (IndexTupleSize (leaf_tuple 2)) (leaf_tuple 2)).
  - discriminate.
  - reflexivity.
  - reflexivity.
  - reflexivity.
  - exact Hc.
Defined.

(** C8 on three pages: a deleted leaf without tuples passes, a deleted
    internal page and a page over the bound do not. *)
Lemma check_index_page_raises_exactly_witness :
  check_index_page (env := example_env)
    (entry_page (Z.lor GIN_LEAF GIN_DELETED) 4294967295 []) 7 = Ok tt /\
  (exists e,
     check_index_page (env := example_env)
       (entry_page GIN_DELETED 4294967295 []) 7 = Raise e /\
     errcode e = ERRCODE_INDEX_CORRUPTED /\ error_block e = Some 7).
Proof.
  split.
  - pose proof (check_index_page_raises_exactly (env := example_env)
                  (entry_page (Z.lor GIN_LEAF GIN_DELETED) 4294967295 []) 7
                  eq_refl ltac:(vm_compute; discriminate)) as W.
    cbv zeta in W. destruct W as (_ & _ & Hpass & _).
    apply Hpass; reflexivity.
  - pose proof (check_index_page_raises_exactly (env := example_env)
                  (entry_page GIN_DELETED 4294967295 []) 7
                  eq_refl ltac:(vm_compute; discriminate)) as W.
    cbv zeta in W. destruct W as (Hiff & _).
    apply Hiff. left. split; reflexivity.
Defined.

(** C9 on a tuple that declares two items over a list of one. *)
Lemma ginReadTupleWithoutState_compressed_witness :
  GinItupIsCompressed (posting_list_tuple 1 2 one_item) = true /\
  ginReadTupleWithoutState (env := example_env)
    (posting_list_tuple 1 2 one_item) = Raise (items_mismatch 2 1) /\
  ginReadTupleWithoutState (env := example_env) (leaf_tuple 1) =
    Ok ([{| ip_blkid := 1; ip_posid := 1 |}], 1).
Proof.
  split; [reflexivity|]. split.
  - apply (ginReadTupleWithoutState_compressed (env := example_env)
             (posting_list_tuple 1 2 one_item) eq_refl).
    + reflexivity.
    + vm_compute. discriminate.
  - apply (ginReadTupleWithoutState_compressed (env := example_env)
             (leaf_tuple 1) eq_refl); reflexivity.
Defined.

(** C10 on [zero_items_index]: the reader returns an empty array for the
    tuple, the check of the posting list reads it at index -1, and so does
    the whole check. *)
Lemma validate_posting_list_last_item_witness :
  ginReadTupleWithoutState (env := example_env) (posting_list_tuple 1 0 []) =
    Ok ([], 0) /\
  validate_posting_list (env := example_env) (posting_list_tuple 1 0 []) 1 =
    Undefined (array_out_of_bounds (-1) 0) /\
  gin_check_parent_keys_consistency (env := example_env) 10 zero_items_index =
    Undefined (array_out_of_bounds (-1) 0).
Proof.
  split; [reflexivity|]. split; [|reflexivity].
  apply (validate_posting_list_last_item (env := example_env)
           (posting_list_tuple 1 0 []) 1 [] 0 eq_refl).
  - discriminate.
  - reflexivity.
Defined.

(** * More of the checker *)

Section PostingTreeWalk.

Context `{env : Environment}.

(** ** The errors of the walk of a posting tree *)

Lemma posting_tree_visit_unfold (rel : Relation)
    (stack : GinPostingTreeScanItem) (next : list GinPostingTreeScanItem)
    (leafdepth : Z) (page : PageData) :
  ReadBufferExtended rel (pt_blkno stack) = Ok page ->
  posting_tree_visit rel stack next leafdepth =
    (let* ld := check_leafdepth page (pt_depth stack) (pt_blkno stack)
                  leafdepth in
     Ok ((if GinPageIsLeaf page then []
          else rev (map (child_item stack)
                      (filter has_full_key (posting_items page))))
         ++ next, ld)).
Proof.
  intros Hread. unfold posting_tree_visit, for_each_offset. rewrite Hread.
  cbn [bind].
  destruct (check_leafdepth page (pt_depth stack) (pt_blkno stack) leafdepth);
    cbn [bind]; try reflexivity.
  rewrite posting_loop_pushes. reflexivity.
Qed.

Lemma posting_tree_visit_outcome (rel : Relation)
    (stack : GinPostingTreeScanItem) (next : list GinPostingTreeScanItem)
    (leafdepth : Z) :
  (exists next' leafdepth',
     posting_tree_visit rel stack next leafdepth = Ok (next', leafdepth')) \/
  posting_tree_visit rel stack next leafdepth =
    Raise (leaf_page_unexpected (pt_blkno stack)) \/
  posting_tree_visit rel stack next leafdepth =
    Raise (read_failed (pt_blkno stack)).
Proof.
  destruct (ReadBufferExtended rel (pt_blkno stack)) as [page|e| |] eqn:Hread.
  - rewrite (posting_tree_visit_unfold _ _ _ _ _ Hread).
    unfold check_leafdepth.
    destruct (GinPageIsLeaf page);
      [destruct (leafdepth =? -1);
       [|destruct (pt_depth stack =? leafdepth)]|];
      cbn [negb bind]; eauto.
  - right. right. unfold posting_tree_visit. rewrite Hread. cbn [bind].
    unfold ReadBufferExtended in Hread.
    destruct (pt_blkno stack <? 0); [congruence|].
    destruct (nth_error rel (Z.to_nat (pt_blkno stack))); congruence.
  - unfold ReadBufferExtended in Hread.
    destruct (pt_blkno stack <? 0); [discriminate|].
    destruct (nth_error rel (Z.to_nat (pt_blkno stack))); discriminate.
  - unfold ReadBufferExtended in Hread.
    destruct (pt_blkno stack <? 0); [discriminate|].
    destruct (nth_error rel (Z.to_nat (pt_blkno stack))); discriminate.
Qed.

Lemma posting_tree_loop_outcomes (rel : Relation) (fuel : nat) :
  forall (stack : list GinPostingTreeScanItem) (leafdepth : Z),
  let outcome := posting_tree_loop fuel rel stack leafdepth in
  outcome = Ok tt \/ outcome = OutOfFuel \/
  (exists b, outcome = Raise (leaf_page_unexpected b)) \/
  (exists b, outcome = Raise (read_failed b)).
Proof.
  induction fuel as [|fuel IH]; intros stack ld;
    destruct stack as [|item next]; cbn [posting_tree_loop]; auto.
  destruct (posting_tree_visit_outcome rel item next ld)
    as [(next' & ld' & ->)|[->| ->]]; cbn [bind]; eauto 6.
Qed.




(** ** The end of the walk *)

Lemma stack_turns_app (weight : BlockNumber -> nat)
    (l1 l2 : list GinPostingTreeScanItem) :
  stack_turns weight (l1 ++ l2) =
    (stack_turns weight l1 + stack_turns weight l2)%nat.
Proof. unfold stack_turns. rewrite map_app. apply list_sum_app. Qed.

Lemma stack_turns_children (weight : BlockNumber -> nat)
    (stack : GinPostingTreeScanItem) (items : list PostingItem) :
  stack_turns weight (rev (map (child_item stack) items)) =
    list_sum (map (fun c => S (weight c)) (map child_blkno items)).
Proof.
  induction items as [|pitem items IH]; [reflexivity|].
  cbn [map rev]. rewrite stack_turns_app, IH.
  unfold stack_turns. cbn [map list_sum fold_right child_item pt_blkno].
  fold (list_sum (map (fun c => S (weight c)) (map child_blkno items))).
  lia.
Qed.

Lemma posting_tree_loop_ends (rel : Relation) (weight : BlockNumber -> nat) :
  posting_trees_bounded rel weight ->
  forall (fuel : nat) (stack : list GinPostingTreeScanItem) (ld : Z),
  (stack_turns weight stack <= fuel)%nat ->
  posting_tree_loop fuel rel stack ld <> OutOfFuel.
Proof.
  intros Hbound.
  induction fuel as [|fuel IH]; intros stack ld Hturns;
    destruct stack as [|item next]; cbn [posting_tree_loop];
    try discriminate.
  - cbn in Hturns. lia.
  - destruct (ReadBufferExtended rel (pt_blkno item)) as [page| | |] eqn:Hread.
    + rewrite (posting_tree_visit_unfold _ _ _ _ _ Hread).
      destruct (check_leafdepth page (pt_depth item) (pt_blkno item) ld)
        as [ld'| | |] eqn:Hdepth; cbn [bind]; try discriminate.
      * apply IH. rewrite stack_turns_app.
        change (stack_turns weight (item :: next))
          with (S (weight (pt_blkno item) + stack_turns weight next))%nat
          in Hturns.
        destruct (GinPageIsLeaf page) eqn:Hleaf.
        -- cbn. lia.
        -- rewrite stack_turns_children.
           pose proof (Hbound _ _ Hread Hleaf) as Hb.
           unfold posting_children in Hb. lia.
      * unfold check_leafdepth in Hdepth.
        destruct (GinPageIsLeaf page); [|discriminate].
        destruct (ld =? -1); [discriminate|].
        destruct (pt_depth item =? ld); discriminate.
    + unfold posting_tree_visit. rewrite Hread. discriminate.
    + unfold posting_tree_visit. rewrite Hread. cbn [bind].
      unfold ReadBufferExtended in Hread.
      destruct (pt_blkno item <? 0); [discriminate|].
      destruct (nth_error rel (Z.to_nat (pt_blkno item))); discriminate.
    + unfold posting_tree_visit. rewrite Hread. cbn [bind].
      unfold ReadBufferExtended in Hread.
      destruct (pt_blkno item <? 0); [discriminate|].
      destruct (nth_error rel (Z.to_nat (pt_blkno item))); discriminate.
Qed.

(** When the posting trees of the relation are bounded, the walk ends, by
    success or by an error, within the turns the root is allowed. *)
Theorem posting_tree_walk_ends (rel : Relation) (weight : BlockNumber -> nat)
    (fuel : nat) (posting_tree_root : BlockNumber) :
  posting_trees_bounded rel weight ->
  (S (weight posting_tree_root) <= fuel)%nat ->
  gin_check_posting_tree_parent_keys_consistency fuel rel posting_tree_root
    <> OutOfFuel.
Proof.
  intros Hbound Hfuel.
  unfold gin_check_posting_tree_parent_keys_consistency.
  apply (posting_tree_loop_ends rel weight Hbound). cbn. lia.
Qed.

Lemma rev_children_head (stack : GinPostingTreeScanItem) (b : BlockNumber)
    (items : list PostingItem) :
  items <> [] ->
  Forall (fun c => c = b) (map child_blkno items) ->
  exists item rest,
    rev (map (child_item stack) items) = item :: rest /\ pt_blkno item = b.
Proof.
  intros Hsome Hall.
  destruct (rev (map (child_item stack) items)) as [|item rest] eqn:Hrev.
  - apply (f_equal (@length _)) in Hrev.
    rewrite length_rev, length_map in Hrev.
    destruct items; [congruence|discriminate].
  - exists item, rest. split; [reflexivity|].
    assert (Hin : In item (rev (map (child_item stack) items)))
      by (rewrite Hrev; left; reflexivity).
    rewrite <- in_rev in Hin. apply in_map_iff in Hin.
    destruct Hin as (pitem & <- & Hin). cbn.
    rewrite Forall_forall in Hall. apply Hall. apply in_map. exact Hin.
Qed.

Lemma posting_tree_loop_spins (rel : Relation) (b : BlockNumber)
    (page : PageData) :
  ReadBufferExtended rel b = Ok page ->
  GinPageIsLeaf page = false ->
  posting_children page <> [] ->
  Forall (fun c => c = b) (posting_children page) ->
  forall fuel item next ld,
    pt_blkno item = b ->
    posting_tree_loop fuel rel (item :: next) ld = OutOfFuel.
Proof.
  intros Hread Hleaf Hsome Hall.
  induction fuel as [|fuel IH]; intros item next ld Hitem;
    cbn [posting_tree_loop]; [reflexivity|].
  rewrite <- Hitem in Hread.
  rewrite (posting_tree_visit_unfold _ _ _ _ _ Hread).
  unfold check_leafdepth. rewrite Hleaf. cbn [bind].
  unfold posting_children in Hsome, Hall.
  destruct (rev_children_head item b
              (filter has_full_key (posting_items page)))
    as (item' & rest & -> & Hitem').
  - intros Hnil. apply Hsome. rewrite Hnil. reflexivity.
  - exact Hall.
  - cbn [app]. apply IH. exact Hitem'.
Qed.

End PostingTreeWalk.

Section LeafTuples.

Context `{env : Environment}.

(** ** The heap pointers of a posting list *)

(** On a tuple that declares at least one item and whose compressed list, if
    it has one, decodes to as many, the check reads the last item of the
    array and nothing else: it passes when the offset of that item is not
    zero and at most [MaxOffsetNumber], and raises the heap pointer error
    with the block of the page otherwise. *)
Theorem validate_posting_list_checks_last (itup : IndexTupleData)
    (blkno : BlockNumber) :
  0 < GinGetNPosting itup ->
  (GinItupIsCompressed itup = true ->
   Z.of_nat (length (ginPostingListDecode (GinGetPosting itup))) =
     GinGetNPosting itup) ->
  let ipd :=
    if GinItupIsCompressed itup
    then ginPostingListDecode (GinGetPosting itup)
    else map (uncompressed_item (GinGetPosting itup))
           (seq 0 (Z.to_nat (GinGetNPosting itup))) in
  exists last,
    nth_error ipd (Z.to_nat (GinGetNPosting itup - 1)) = Some last /\
    (ip_posid last <> 0 /\ ip_posid last <= MaxOffsetNumber ->
     validate_posting_list itup blkno = Ok tt) /\
    (ip_posid last = 0 \/ MaxOffsetNumber < ip_posid last ->
     validate_posting_list itup blkno = Raise (invalid_heap_pointer blkno)).
Proof.
  intros Hpos Hdec ipd.
  assert (Hread : ginReadTupleWithoutState itup = Ok (ipd, GinGetNPosting itup)).
  { unfold ginReadTupleWithoutState. subst ipd.
    destruct (GinItupIsCompressed itup).
    - apply Z.ltb_lt in Hpos. rewrite Hpos.
      rewrite (Hdec eq_refl), Z.eqb_refl. reflexivity.
    - reflexivity. }
  destruct (ginReadTupleWithoutState_count _ _ _ Hread) as (_ & Hlen & _).
  specialize (Hlen Hpos).
  destruct (nth_error ipd (Z.to_nat (GinGetNPosting itup - 1)))
    as [last|] eqn:Hnth; [|apply nth_error_None in Hnth; lia].
  exists last. split; [reflexivity|].
  assert (Hv : validate_posting_list itup blkno =
            if negb (OffsetNumberIsValid (ItemPointerGetOffsetNumber last))
            then Raise (invalid_heap_pointer blkno) else Ok tt).
  { unfold validate_posting_list. rewrite Hread. cbn [bind].
    unfold array_get.
    destruct (GinGetNPosting itup - 1 <? 0) eqn:Hneg;
      [apply Z.ltb_lt in Hneg; lia|].
    rewrite Hnth. reflexivity. }
  rewrite Hv. unfold OffsetNumberIsValid, ItemPointerGetOffsetNumber,
    InvalidOffsetNumber.
  split.
  - intros [Hnz Hle]. apply Z.eqb_neq in Hnz. apply Z.leb_le in Hle.
    rewrite Hnz, Hle. reflexivity.
  - intros [Hz|Hgt].
    + rewrite Hz. reflexivity.
    + apply Z.leb_gt in Hgt. rewrite Hgt, andb_false_r. reflexivity.
Qed.

(** ** The tuple the re-find returns *)

(** The re-find returns a tuple exactly when the parent page is not a leaf
    and the tuple is the first of the page, in the order of the offsets,
    whose downlink is the child block, all line pointers before it being
    valid. *)
Theorem gin_refind_parent_first_match (rel : Relation)
    (parentblkno childblkno : BlockNumber) (parentpage : PageData)
    (itup : IndexTupleData) :
  ReadBufferExtended rel parentblkno = Ok parentpage ->
  (gin_refind_parent rel parentblkno childblkno = Ok (Some itup) <->
   GinPageIsLeaf parentpage = false /\
   exists o lp,
     1 <= o <= PageGetMaxOffsetNumber parentpage /\
     PageGetItem parentpage o = Some (lp, itup) /\
     ItemPointerGetBlockNumber (t_tid itup) = childblkno /\
     forall o', 1 <= o' < o ->
       exists lp' itup',
         PageGetItem parentpage o' = Some (lp', itup') /\
         ItemPointerGetBlockNumber (t_tid itup') <> childblkno).
Proof.
  intros Hread. unfold gin_refind_parent. rewrite Hread. cbn [bind].
  destruct (GinPageIsLeaf parentpage).
  - split; [discriminate|]. intros [Hl _]. discriminate Hl.
  - rewrite refind_loop_first. unfold FirstOffsetNumber. split.
    + intros (o & lp & Ho & Hrest). split; [reflexivity|].
      exists o, lp. split; [lia|exact Hrest].
    + intros (_ & o & lp & Ho & Hrest). exists o, lp.
      split; [lia|exact Hrest].
Qed.

End LeafTuples.

Section EntryTreeWalk.

Context `{env : Environment}.

(** ** What the scan of an entry page establishes *)

Lemma entry_scan_downlinks (fuel : nat) (rel : Relation) (stack : GinScanItem)
    (page : PageData) (lsn : Z) (maxoff : OffsetNumber) (n : nat) :
  GinPageIsLeaf page = false ->
  forall (i : OffsetNumber) (s s' : EntryScan),
  for_offsets n i (entry_tuple_step fuel rel stack page lsn maxoff) s = Ok s' ->
  exists tuples,
    Forall2 (holds_tuple page) (offsets_from n i) tuples /\
    stack_next s' =
      rev (map (downlink_item stack lsn) tuples) ++ stack_next s.
Proof.
  intros Hleaf. induction n as [|n IH]; intros i s s'; cbn [for_offsets].
  - intros [= <-]. exists []. split; [constructor|reflexivity].
  - destruct (entry_tuple_step fuel rel stack page lsn maxoff i s)
      as [s1| | |] eqn:Hstep; cbn [bind]; try discriminate.
    intros Hrest. apply IH in Hrest. destruct Hrest as (tuples & Hall & Hnext).
    apply entry_tuple_step_ok in Hstep.
    destruct Hstep as (lp & t & Hitem & _ & _ & _ & _ & Hpush).
    rewrite Hleaf in Hpush. exists (t :: tuples). split.
    + cbn [offsets_from]. constructor; [exists lp; exact Hitem|exact Hall].
    + rewrite Hnext, Hpush. cbn [map rev]. rewrite <- app_assoc. reflexivity.
Qed.

(** The visit of an internal entry page that ends without error has pushed
    one item for each tuple of the page, the last offset on top: the item is
    one level deeper, carries the tuple as the parent tuple, the block and
    the LSN of the page, and addresses the block of the tuple's [t_tid];
    below them are what the split check installed and the rest of the
    stack.  The leaf depth is left as it was. *)
Theorem entry_tree_visit_pushes_downlinks (fuel : nat) (rel : Relation)
    (stack : GinScanItem) (next : list GinScanItem) (leafdepth : Z)
    (log : list LogLine) (page : PageData)
    (next' : list GinScanItem) (leafdepth' : Z) (log' : list LogLine) :
  ReadBufferExtended rel (blkno stack) = Ok page ->
  GinPageIsLeaf page = false ->
  entry_tree_visit fuel rel stack next leafdepth log =
    Ok (next', leafdepth', log') ->
  exists tuples sibling info,
    split_check stack page = Ok (sibling, info) /\
    Forall2 (holds_tuple page)
      (offsets_from (Z.to_nat (PageGetMaxOffsetNumber page)) FirstOffsetNumber)
      tuples /\
    next' =
      rev (map (downlink_item stack (pd_lsn page)) tuples) ++ sibling ++ next
    /\ leafdepth' = leafdepth.
Proof.
  intros Hread Hleaf Hvisit. apply entry_tree_visit_ok in Hvisit.
  destruct Hvisit as (page' & sibling & info & s & Hread' & _ & Hsplit
                      & Hdepth & Hscan & -> & _).
  rewrite Hread in Hread'. injection Hread' as <-.
  unfold for_each_offset in Hscan.
  apply (entry_scan_downlinks _ _ _ _ _ _ _ Hleaf) in Hscan.
  destruct Hscan as (tuples & Hall & Hnext).
  exists tuples, sibling, info. split; [exact Hsplit|]. split; [exact Hall|].
  split; [exact Hnext|].
  unfold check_leafdepth in Hdepth. rewrite Hleaf in Hdepth. congruence.
Qed.

Lemma entry_scan_sizes (fuel : nat) (rel : Relation) (stack : GinScanItem)
    (page : PageData) (lsn : Z) (maxoff : OffsetNumber) (n : nat) :
  forall (i : OffsetNumber) (s s' : EntryScan),
  for_offsets n i (entry_tuple_step fuel rel stack page lsn maxoff) s = Ok s' ->
  forall j, i <= j < i + Z.of_nat n ->
  exists lp idxtuple,
    PageGetItem page j = Some (lp, idxtuple) /\
    MAXALIGN lp = MAXALIGN (IndexTupleSize idxtuple).
Proof.
  induction n as [|n IH]; intros i s s'; cbn [for_offsets].
  - intros _ j Hj. lia.
  - destruct (entry_tuple_step fuel rel stack page lsn maxoff i s)
      as [s1| | |] eqn:Hstep; cbn [bind]; try discriminate.
    intros Hrest j Hj. apply entry_tuple_step_ok in Hstep.
    destruct Hstep as (lp & t & Hitem & Hsz & _).
    destruct (Z.eq_dec j i) as [->|Hne]; [eauto|].
    apply (IH _ _ _ Hrest). unfold OffsetNumberNext. lia.
Qed.

(** On a page whose visit ends without error, every offset up to the maximum
    has a valid line pointer, and the aligned length of the line pointer is
    the aligned size of its tuple. *)
Theorem entry_tree_visit_tuple_sizes (fuel : nat) (rel : Relation)
    (stack : GinScanItem) (next : list GinScanItem) (leafdepth : Z)
    (log : list LogLine) (page : PageData)
    (next' : list GinScanItem) (leafdepth' : Z) (log' : list LogLine) :
  ReadBufferExtended rel (blkno stack) = Ok page ->
  entry_tree_visit fuel rel stack next leafdepth log =
    Ok (next', leafdepth', log') ->
  forall j, 1 <= j <= PageGetMaxOffsetNumber page ->
  exists lp idxtuple,
    PageGetItem page j = Some (lp, idxtuple) /\
    MAXALIGN lp = MAXALIGN (IndexTupleSize idxtuple).
Proof.
  intros Hread Hvisit j Hj. apply entry_tree_visit_ok in Hvisit.
  destruct Hvisit as (page' & sibling & info & s & Hread' & _ & _ & _
                      & Hscan & _ & _).
  rewrite Hread in Hread'. injection Hread' as <-.
  unfold for_each_offset in Hscan.
  apply (entry_scan_sizes _ _ _ _ _ _ _ _ _ _ Hscan).
  unfold FirstOffsetNumber. lia.
Qed.

(** ** The log of a leaf page *)

Lemma validate_leaf_loop_log (fuel : nat) (rel : Relation) (page : PageData)
    (blkno : BlockNumber) (n : nat) :
  forall (i : OffsetNumber) (log log' : list LogLine),
  for_offsets n i (validate_leaf_step fuel rel page blkno) log = Ok log' ->
  log' = log ++ flat_map (leaf_line page blkno) (offsets_from n i) /\
  length (flat_map (leaf_line page blkno) (offsets_from n i)) = n.
Proof.
  induction n as [|n IH]; intros i log log'; cbn [for_offsets].
  - intros [= <-]. cbn. rewrite app_nil_r. auto.
  - destruct (validate_leaf_step fuel rel page blkno i log)
      as [log1| | |] eqn:Hstep; cbn [bind]; try discriminate.
    intros Hrest. apply IH in Hrest. destruct Hrest as (-> & Hlen).
    cbn [offsets_from flat_map]. unfold validate_leaf_step in Hstep.
    unfold PageGetItemIdCareful, leaf_line in *.
    destruct (PageGetItem page i) as [[lp t]|]; cbn [bind] in Hstep;
      [|discriminate].
    destruct (GinIsPostingTree t).
    + destruct (gin_check_posting_tree_parent_keys_consistency fuel rel
                  (GinGetPostingTree t)); cbn [bind] in Hstep;
        try discriminate.
      injection Hstep as <-. rewrite length_app, Hlen, <- app_assoc. auto.
    + destruct (validate_posting_list t blkno); cbn [bind] in Hstep;
        try discriminate.
      injection Hstep as <-. rewrite length_app, Hlen, <- app_assoc. auto.
Qed.

Lemma parent_check_notice (rel : Relation) (stack : GinScanItem)
    (stack_parenttup parent : option IndexTupleData) (attnum : OffsetNumber)
    (idxtuple : IndexTupleData) (i maxoff : OffsetNumber)
    (notice : list LogLine) :
  parent_check rel stack stack_parenttup attnum idxtuple i maxoff =
    Ok (parent, notice) ->
  notice = [] \/
  (i = maxoff /\
   notice = [notice_unable_to_find_parent (blkno stack) (parentblk stack)]).
Proof.
  unfold parent_check. destruct stack_parenttup as [p|]; [|intros [= _ <-]; auto].
  destruct (i =? maxoff) eqn:Hi; [|intros [= _ <-]; auto].
  destruct (compare_tuple_keys attnum idxtuple p <=? 0);
    [|intros [= _ <-]; auto].
  destruct (gin_refind_parent rel (parentblk stack) (blkno stack))
    as [[p'|]| | |]; cbn [bind]; try discriminate.
  - destruct (compare_tuple_keys attnum idxtuple p' <=? 0);
      [discriminate|intros [= _ <-]; auto].
  - intros [= _ <-]. apply Z.eqb_eq in Hi. auto.
Qed.

Lemma entry_leaf_step_log (fuel : nat) (rel : Relation) (stack : GinScanItem)
    (page : PageData) (lsn : Z) (maxoff i : OffsetNumber) (s s' : EntryScan) :
  GinPageIsLeaf page = true ->
  entry_tuple_step fuel rel stack page lsn maxoff i s = Ok s' ->
  exists notice,
    scan_log s' = scan_log s ++ notice ++ leaf_lines page (blkno stack) /\
    length (leaf_lines page (blkno stack)) =
      Z.to_nat (PageGetMaxOffsetNumber page) /\
    (notice = [] \/
     (i = maxoff /\
      notice = [notice_unable_to_find_parent (blkno stack)
                  (parentblk stack)])).
Proof.
  intros Hleaf Hstep.
  destruct (entry_tuple_step_ok _ _ _ _ _ _ _ _ _ Hstep)
    as (lp & t & Hitem & Hsz & Hord & (notice & Hpar) & _ & _).
  rewrite (entry_tuple_step_runs_parent_check _ _ _ _ _ _ _ _ _ _
             Hitem Hsz Hord), Hpar, Hleaf in Hstep.
  cbn [bind] in Hstep.
  destruct (validate_leaf fuel rel page (blkno stack) (scan_log s ++ notice))
    as [log1| | |] eqn:Hv; cbn [bind] in Hstep; try discriminate.
  injection Hstep as <-. cbn [scan_log].
  unfold validate_leaf, for_each_offset in Hv.
  apply validate_leaf_loop_log in Hv. destruct Hv as (-> & Hlen).
  exists notice. split; [rewrite <- app_assoc; reflexivity|].
  split; [exact Hlen|]. exact (parent_check_notice _ _ _ _ _ _ _ _ _ Hpar).
Qed.

Lemma entry_leaf_scan_log (fuel : nat) (rel : Relation) (stack : GinScanItem)
    (page : PageData) (lsn : Z) (maxoff : OffsetNumber) (n : nat) :
  GinPageIsLeaf page = true ->
  forall (i : OffsetNumber) (s s' : EntryScan),
  for_offsets (S n) i (entry_tuple_step fuel rel stack page lsn maxoff) s
    = Ok s' ->
  i + Z.of_nat n = maxoff ->
  exists notice,
    scan_log s' =
      scan_log s ++ concat (repeat (leaf_lines page (blkno stack)) n)
        ++ notice ++ leaf_lines page (blkno stack) /\
    (notice = [] \/
     notice = [notice_unable_to_find_parent (blkno stack) (parentblk stack)]).
Proof.
  intros Hleaf. induction n as [|n IH]; intros i s s' Hscan Hi;
    cbn [for_offsets] in Hscan;
    destruct (entry_tuple_step fuel rel stack page lsn maxoff i s)
      as [s1| | |] eqn:Hstep; cbn [bind] in Hscan; try discriminate;
    destruct (entry_leaf_step_log _ _ _ _ _ _ _ _ _ Hleaf Hstep)
      as (notice & Hlog & _ & Hnotice).
  - injection Hscan as <-. exists notice. cbn [repeat concat app].
    split; [exact Hlog|]. destruct Hnotice as [->|[_ ->]]; auto.
  - destruct Hnotice as [->|[Heq _]]; [|lia].
    apply (IH (OffsetNumberNext i)) in Hscan;
      [|unfold OffsetNumberNext; lia].
    destruct Hscan as (notice' & Hlog' & Hnotice').
    exists notice'. split; [|exact Hnotice'].
    rewrite Hlog', Hlog. cbn [repeat concat app].
    repeat rewrite <- app_assoc. reflexivity.
Qed.

(** [validate_leaf] is run at every tuple of a leaf page, on the whole page:
    the log of a visit of a leaf page with [n] tuples that ends without error
    is the log before it, the line of the split check if any, then [n] times
    the [n] lines of the page, with the notice of the re-find, if any, before
    the last of them; nothing is pushed but what the split check
    installed. *)
Theorem entry_tree_visit_leaf_log (fuel : nat) (rel : Relation)
    (stack : GinScanItem) (next : list GinScanItem) (leafdepth : Z)
    (log : list LogLine) (page : PageData)
    (next' : list GinScanItem) (leafdepth' : Z) (log' : list LogLine) :
  ReadBufferExtended rel (blkno stack) = Ok page ->
  GinPageIsLeaf page = true ->
  0 < PageGetMaxOffsetNumber page ->
  entry_tree_visit fuel rel stack next leafdepth log =
    Ok (next', leafdepth', log') ->
  let n := Z.to_nat (PageGetMaxOffsetNumber page) in
  let lines := leaf_lines page (blkno stack) in
  exists sibling info notice,
    split_check stack page = Ok (sibling, info) /\
    next' = sibling ++ next /\
    length lines = n /\
    (notice = [] \/
     notice = [notice_unable_to_find_parent (blkno stack) (parentblk stack)])
    /\
    log' = log ++ info ++ concat (repeat lines (n - 1)) ++ notice ++ lines.
Proof.
  intros Hread Hleaf Hmax Hvisit n lines. apply entry_tree_visit_ok in Hvisit.
  destruct Hvisit as (page' & sibling & info & s & Hread' & _ & Hsplit & _
                      & Hscan & -> & ->).
  rewrite Hread in Hread'. injection Hread' as <-.
  unfold for_each_offset in Hscan. fold n in Hscan.
  destruct n as [|m] eqn:Hn; [subst n; lia|].
  pose proof Hscan as Hscan'.
  apply entry_scan_pushes_children in Hscan'.
  destruct Hscan' as (children & _ & Hlen & Hnext).
  rewrite Hleaf in Hlen. destruct children; [|discriminate].
  cbn [for_offsets] in Hscan.
  destruct (entry_tuple_step fuel rel stack page (pd_lsn page)
              (PageGetMaxOffsetNumber page) FirstOffsetNumber _)
    as [s1| | |] eqn:Hstep; cbn [bind] in Hscan; try discriminate.
  destruct (entry_leaf_step_log _ _ _ _ _ _ _ _ _ Hleaf Hstep)
    as (_ & _ & Hlines & _).
  assert (Hscan2 : for_offsets (S m) FirstOffsetNumber
            (entry_tuple_step fuel rel stack page (pd_lsn page)
               (PageGetMaxOffsetNumber page))
            {| prev_tuple := None; stack_parenttup := parenttup stack;
               stack_next := sibling ++ next; scan_log := log ++ info |}
            = Ok s).
  { cbn [for_offsets]. rewrite Hstep. exact Hscan. }
  apply (entry_leaf_scan_log _ _ _ _ _ _ _ Hleaf) in Hscan2;
    [|unfold FirstOffsetNumber; subst n; lia].
  destruct Hscan2 as (notice & Hlog & Hnotice). cbn [scan_log] in Hlog.
  exists sibling, info, notice. split; [exact Hsplit|].
  split; [exact Hnext|]. split; [subst lines n; rewrite Hlines; lia|].
  split; [exact Hnotice|].
  rewrite Hlog. replace (S m - 1)%nat with m by lia.
  rewrite <- app_assoc. reflexivity.
Qed.

(** ** A split detected on an index that does not change *)

(** When the split check installs the right sibling of a page with tuples
    and the parent page still holds the downlink the item came from, the
    visit of the page does not end without error: the comparison that
    detects the split is the one that the check against the parent
    rejects. *)
Theorem split_detected_is_rejected (fuel : nat) (rel : Relation)
    (stack : GinScanItem) (next : list GinScanItem) (leafdepth : Z)
    (log : list LogLine) (page : PageData) (parent : IndexTupleData)
    (sibling : list GinScanItem) (info : list LogLine) :
  ReadBufferExtended rel (blkno stack) = Ok page ->
  parenttup stack = Some parent ->
  0 < PageGetMaxOffsetNumber page ->
  gin_refind_parent rel (parentblk stack) (blkno stack) = Ok (Some parent) ->
  split_check stack page = Ok (sibling, info) ->
  sibling <> [] ->
  forall outcome,
    entry_tree_visit fuel rel stack next leafdepth log <> Ok outcome.
Proof.
  intros Hread Hparent Hmax Hre Hsplit Hsome [[next' ld'] log'] Hvisit.
  apply entry_tree_visit_ok in Hvisit.
  destruct Hvisit as (page' & sibling' & info' & s & Hread' & _ & _ & _
                      & Hscan & _ & _).
  rewrite Hread in Hread'. injection Hread' as <-.
  unfold for_each_offset in Hscan.
  destruct (Z.to_nat (PageGetMaxOffsetNumber page)) as [|n] eqn:Hn; [lia|].
  apply entry_scan_last_tuple in Hscan; [|unfold FirstOffsetNumber; lia].
  destruct Hscan as (lp & last & notice & Hitem & Hpar).
  cbn [stack_parenttup] in Hpar. rewrite Hparent in Hpar.
  unfold split_check, PageGetItemIdCareful in Hsplit.
  rewrite Hparent, Hitem in Hsplit. cbn [bind] in Hsplit.
  destruct (negb (rightlink page =? InvalidBlockNumber)); cbn [andb] in Hsplit;
    [|injection Hsplit as <- _; congruence].
  destruct (compare_tuple_keys (gintuple_get_attrnum last) last parent <=? 0)
    eqn:Hc; [|injection Hsplit as <- _; congruence].
  unfold parent_check in Hpar. rewrite Z.eqb_refl, Hc, Hre in Hpar.
  cbn [bind] in Hpar. rewrite Hc in Hpar. discriminate Hpar.
Qed.

(** ** The tuple pointers of the scan *)

Lemma validate_posting_list_undefined (itup : IndexTupleData)
    (blkno : BlockNumber) (u : UndefinedBehaviour) :
  validate_posting_list itup blkno = Undefined u ->
  reads_before_empty_array u.
Proof.
  unfold validate_posting_list.
  destruct (ginReadTupleWithoutState itup) as [[ipd nipd]| | |] eqn:Hread;
    cbn [bind]; try discriminate.
  - destruct (ginReadTupleWithoutState_count _ _ _ Hread)
      as (_ & Hlen & Hnil).
    unfold array_get. destruct (nipd - 1 <? 0) eqn:Hneg.
    + apply Z.ltb_lt in Hneg. rewrite (Hnil ltac:(lia)). cbn [bind].
      intros [= <-]. exists nipd. split; [lia|reflexivity].
    + apply Z.ltb_ge in Hneg.
      destruct (nth_error ipd (Z.to_nat (nipd - 1))) as [last|] eqn:Hnth.
      * cbn [bind].
        destruct (OffsetNumberIsValid (ItemPointerGetOffsetNumber last));
          discriminate.
      * apply nth_error_None in Hnth. specialize (Hlen ltac:(lia)). lia.
  - revert Hread. unfold ginReadTupleWithoutState.
    destruct (GinItupIsCompressed itup); [|discriminate].
    destruct (0 <? GinGetNPosting itup); [|discriminate].
    destruct (GinGetNPosting itup =? _); discriminate.
Qed.

Lemma validate_leaf_undefined (fuel : nat) (rel : Relation) (page : PageData)
    (blkno : BlockNumber) (u : UndefinedBehaviour) (log : list LogLine) :
  validate_leaf fuel rel page blkno log = Undefined u ->
  reads_before_empty_array u.
Proof.
  unfold validate_leaf, for_each_offset. revert log.
  generalize FirstOffsetNumber.
  induction (Z.to_nat (PageGetMaxOffsetNumber page)) as [|n IH];
    intros i log; cbn [for_offsets]; [discriminate|].
  destruct (validate_leaf_step fuel rel page blkno i log)
    as [log1| |u1|] eqn:Hstep; cbn [bind]; try discriminate; [apply IH|].
  intros [= <-]. revert Hstep. unfold validate_leaf_step, PageGetItemIdCareful.
  destruct (PageGetItem page i) as [[lp t]|]; cbn [bind]; [|discriminate].
  destruct (GinIsPostingTree t).
  - pose proof (posting_tree_loop_outcomes rel fuel
                  [{| pt_depth := 0; pt_parenttup := None;
                      pt_parentblk := InvalidBlockNumber;
                      pt_blkno := GinGetPostingTree t |}] (-1)) as Hout.
    cbv zeta in Hout.
    unfold gin_check_posting_tree_parent_keys_consistency.
    destruct Hout as [-> |[-> |[(b & ->)|(b & ->)]]]; discriminate.
  - destruct (validate_posting_list t blkno) as [[]| |u2|] eqn:Hv;
      cbn [bind]; try discriminate.
    intros [= <-]. exact (validate_posting_list_undefined _ _ _ Hv).
Qed.

Lemma gin_refind_parent_defined (rel : Relation)
    (parentblkno childblkno : BlockNumber) (u : UndefinedBehaviour) :
  gin_refind_parent rel parentblkno childblkno <> Undefined u.
Proof.
  unfold gin_refind_parent, ReadBufferExtended.
  destruct (parentblkno <? 0); [discriminate|].
  destruct (nth_error rel (Z.to_nat parentblkno)) as [pp|]; cbn [bind];
    [|discriminate].
  destruct (GinPageIsLeaf pp); [discriminate|].
  generalize FirstOffsetNumber.
  induction (Z.to_nat (PageGetMaxOffsetNumber pp)) as [|n IH]; intros o;
    cbn [refind_loop]; [discriminate|].
  unfold PageGetItemIdCareful.
  destruct (PageGetItem pp o) as [[lp t]|]; cbn [bind]; [|discriminate].
  destruct (ItemPointerGetBlockNumber (t_tid t) =? childblkno);
    [discriminate|apply IH].
Qed.

Lemma entry_tuple_step_undefined (fuel : nat) (rel : Relation)
    (stack : GinScanItem) (page : PageData) (lsn : Z)
    (maxoff i : OffsetNumber) (s : EntryScan) (u : UndefinedBehaviour) :
  entry_tuple_step fuel rel stack page lsn maxoff i s = Undefined u ->
  i = FirstOffsetNumber \/ prev_tuple s <> None ->
  reads_before_empty_array u.
Proof.
  unfold entry_tuple_step, PageGetItemIdCareful. intros Hstep Hprev.
  destruct (PageGetItem page i) as [[lp t]|]; cbn [bind] in Hstep;
    [|discriminate].
  destruct (MAXALIGN lp =? MAXALIGN (IndexTupleSize t)); cbn [negb] in Hstep;
    [|discriminate].
  destruct (order_check stack (gintuple_get_attrnum t) (prev_tuple s) t i)
    as [[]| |u1|] eqn:Hord; cbn [bind] in Hstep; try discriminate.
  - destruct (parent_check rel stack (stack_parenttup s)
                (gintuple_get_attrnum t) t i maxoff)
      as [[parent notice]| |u2|] eqn:Hpar; cbn [bind] in Hstep;
      try discriminate.
    + destruct (GinPageIsLeaf page); cbn [negb] in Hstep; [|discriminate].
      destruct (validate_leaf fuel rel page (blkno stack)
                  (scan_log s ++ notice)) as [log1| |u3|] eqn:Hv;
        cbn [bind] in Hstep; try discriminate.
      injection Hstep as <-. exact (validate_leaf_undefined _ _ _ _ _ _ Hv).
    + exfalso. revert Hpar. unfold parent_check.
      destruct (stack_parenttup s) as [p|]; [|discriminate].
      destruct (i =? maxoff); [|discriminate].
      destruct (compare_tuple_keys _ t p <=? 0); [|discriminate].
      destruct (gin_refind_parent rel (parentblk stack) (blkno stack))
        as [[p'|]| |u3|] eqn:Hre; cbn [bind]; try discriminate.
      * destruct (compare_tuple_keys _ t p' <=? 0); discriminate.
      * exfalso. exact (gin_refind_parent_defined _ _ _ _ Hre).
  - exfalso. revert Hord. unfold order_check.
    destruct (i =? FirstOffsetNumber) eqn:Hi; cbn [negb]; [discriminate|].
    apply Z.eqb_neq in Hi.
    destruct (prev_tuple s) as [p|].
    + destruct (compare_tuple_keys _ p t <=? 0); discriminate.
    + destruct Hprev as [Hfirst|Hsome]; congruence.
Qed.

Lemma entry_scan_undefined (fuel : nat) (rel : Relation) (stack : GinScanItem)
    (page : PageData) (lsn : Z) (maxoff : OffsetNumber)
    (u : UndefinedBehaviour) (n : nat) :
  forall (i : OffsetNumber) (s : EntryScan),
  for_offsets n i (entry_tuple_step fuel rel stack page lsn maxoff) s
    = Undefined u ->
  i = FirstOffsetNumber \/ prev_tuple s <> None ->
  reads_before_empty_array u.
Proof.
  induction n as [|n IH]; intros i s; cbn [for_offsets]; [discriminate|].
  destruct (entry_tuple_step fuel rel stack page lsn maxoff i s)
    as [s1| |u1|] eqn:Hstep; cbn [bind]; try discriminate.
  - intros Hrest _. apply (IH _ _ Hrest). right.
    apply entry_tuple_step_ok in Hstep.
    destruct Hstep as (lp & t & _ & _ & _ & _ & -> & _). discriminate.
  - intros [= <-] Hprev. exact (entry_tuple_step_undefined _ _ _ _ _ _ _ _ _
                                  Hstep Hprev).
Qed.

Lemma ReadBufferExtended_defined (rel : Relation) (b : BlockNumber)
    (u : UndefinedBehaviour) :
  ReadBufferExtended rel b <> Undefined u.
Proof.
  unfold ReadBufferExtended. destruct (b <? 0); [discriminate|].
  destruct (nth_error rel (Z.to_nat b)); discriminate.
Qed.

Lemma check_index_page_defined (page : PageData) (blockNo : BlockNumber)
    (u : UndefinedBehaviour) :
  check_index_page page blockNo <> Undefined u.
Proof.
  unfold check_index_page. destruct (gincheckpage page); cbn [bind];
    [discriminate|].
  destruct (GinPageIsDeleted page);
    [destruct (GinPageIsLeaf page); cbn [negb];
     [destruct (InvalidOffsetNumber <? PageGetMaxOffsetNumber page)|]
    |destruct (MaxIndexTuplesPerPage <? PageGetMaxOffsetNumber page)];
    discriminate.
Qed.

Lemma split_check_defined (stack : GinScanItem) (page : PageData)
    (u : UndefinedBehaviour) :
  split_check stack page <> Undefined u.
Proof.
  unfold split_check, PageGetItemIdCareful.
  destruct (parenttup stack) as [parent|]; [|discriminate].
  destruct (PageGetItem page (PageGetMaxOffsetNumber page)) as [[lp t]|];
    cbn [bind]; [|discriminate].
  destruct (_ && _); discriminate.
Qed.

Lemma check_leafdepth_defined (page : PageData) (d : Z) (b : BlockNumber)
    (leafdepth : Z) (u : UndefinedBehaviour) :
  check_leafdepth page d b leafdepth <> Undefined u.
Proof.
  unfold check_leafdepth.
  destruct (GinPageIsLeaf page);
    [destruct (leafdepth =? -1); [|destruct (d =? leafdepth)]|];
    discriminate.
Qed.

Lemma entry_tree_visit_undefined (fuel : nat) (rel : Relation)
    (stack : GinScanItem) (next : list GinScanItem) (leafdepth : Z)
    (log : list LogLine) (u : UndefinedBehaviour) :
  entry_tree_visit fuel rel stack next leafdepth log = Undefined u ->
  reads_before_empty_array u.
Proof.
  unfold entry_tree_visit.
  destruct (ReadBufferExtended rel (blkno stack)) as [page| |u1|] eqn:Hread;
    cbn [bind]; try discriminate;
    [|exfalso; exact (ReadBufferExtended_defined _ _ _ Hread)].
  destruct (check_index_page page (blkno stack)) as [[]| |u1|] eqn:Hsane;
    cbn [bind]; try discriminate;
    [|exfalso; exact (check_index_page_defined _ _ _ Hsane)].
  destruct (split_check stack page) as [[sibling info]| |u1|] eqn:Hsplit;
    cbn [bind]; try discriminate;
    [|exfalso; exact (split_check_defined _ _ _ Hsplit)].
  destruct (check_leafdepth page (depth stack) (blkno stack) leafdepth)
    as [ld| |u1|] eqn:Hdepth; cbn [bind]; try discriminate;
    [|exfalso; exact (check_leafdepth_defined _ _ _ _ _ Hdepth)].
  destruct (for_each_offset _ _ _) as [s| |u1|] eqn:Hs; cbn [bind];
    try discriminate.
  intros [= <-]. unfold for_each_offset in Hs.
  apply (entry_scan_undefined _ _ _ _ _ _ _ _ _ _ Hs). auto.
Qed.

(** The previous tuple is read only after the first offset, where the turn
    before has stored a tuple in it, and the parent tuple only under its
    test: no visit of a page, whatever the item and the stack, and no run of
    the whole check ends in the dereference of a null pointer. *)
Theorem check_never_dereferences_null_tuple (fuel : nat) (rel : Relation) :
  (forall stack next leafdepth log,
     entry_tree_visit fuel rel stack next leafdepth log <>
       Undefined null_pointer_dereference) /\
  gin_check_parent_keys_consistency fuel rel <>
    Undefined null_pointer_dereference.
Proof.
  assert (Hvisit : forall fuel stack next leafdepth log,
            entry_tree_visit fuel rel stack next leafdepth log <>
              Undefined null_pointer_dereference).
  { intros fuel' stack next leafdepth log Hu.
    apply entry_tree_visit_undefined in Hu.
    destruct Hu as (n & _ & Hu). discriminate Hu. }
  split; [apply Hvisit|].
  unfold gin_check_parent_keys_consistency.
  generalize (@nil LogLine). generalize (-1).
  generalize [{| depth := 0; parenttup := None;
                 parentblk := InvalidBlockNumber; parentlsn := 0;
                 blkno := GIN_ROOT_BLKNO |}].
  induction fuel as [|fuel IH]; intros stack ld log;
    destruct stack as [|item next]; cbn [entry_tree_loop]; try discriminate.
  destruct (entry_tree_visit fuel rel item next ld log)
    as [[[next' ld'] log']| |u1|] eqn:Hv; cbn [bind]; try discriminate.
  - apply IH.
  - intros [= ->]. exact (Hvisit _ _ _ _ _ Hv).
Qed.

(** ** A posting tree that leads back to itself *)

(** On an internal data page whose posting items with a full key all address
    the page itself, the walk of the posting tree has no end: whatever the
    fuel, the loop is still running when it is spent.  The whole check has
    no end either when the first tuple of a leaf root refers to such a
    page. *)
Theorem posting_tree_walk_loops (rel : Relation) (b : BlockNumber)
    (page : PageData) (fuel : nat) :
  ReadBufferExtended rel b = Ok page ->
  GinPageIsLeaf page = false ->
  posting_children page <> [] ->
  Forall (fun c => c = b) (posting_children page) ->
  gin_check_posting_tree_parent_keys_consistency fuel rel b = OutOfFuel /\
  (forall root lp idxtuple,
     ReadBufferExtended rel GIN_ROOT_BLKNO = Ok root ->
     check_index_page root GIN_ROOT_BLKNO = Ok tt ->
     GinPageIsLeaf root = true ->
     0 < PageGetMaxOffsetNumber root ->
     PageGetItem root FirstOffsetNumber = Some (lp, idxtuple) ->
     MAXALIGN lp = MAXALIGN (IndexTupleSize idxtuple) ->
     GinIsPostingTree idxtuple = true ->
     GinGetPostingTree idxtuple = b ->
     gin_check_parent_keys_consistency fuel rel = OutOfFuel).
Proof.
  intros Hread Hleaf Hsome Hall.
  pose proof (posting_tree_loop_spins rel b page Hread Hleaf Hsome Hall)
    as Hspin.
  split.
  - unfold gin_check_posting_tree_parent_keys_consistency.
    apply Hspin. reflexivity.
  - intros root lp t Hroot Hsane Hrleaf Hmax Hitem Hsz Htree Hb.
    unfold gin_check_parent_keys_consistency.
    destruct fuel as [|fuel]; [reflexivity|]. cbn [entry_tree_loop].
    unfold entry_tree_visit. cbn [blkno]. rewrite Hroot. cbn [bind].
    rewrite Hsane. cbn [bind]. unfold split_check. cbn [parenttup bind].
    unfold check_leafdepth. rewrite Hrleaf. cbn [Z.eqb bind].
    unfold for_each_offset.
    destruct (Z.to_nat (PageGetMaxOffsetNumber root)) as [|n] eqn:Hn; [lia|].
    cbn [for_offsets].
    rewrite (entry_tuple_step_runs_parent_check _ _ _ _ _ _ _ _ _ _ Hitem Hsz)
      by (unfold order_check; rewrite Z.eqb_refl; reflexivity).
    cbn [stack_parenttup parent_check bind]. rewrite Hrleaf.
    unfold validate_leaf, for_each_offset. rewrite Hn. cbn [for_offsets].
    unfold validate_leaf_step at 1, PageGetItemIdCareful.
    rewrite Hitem. cbn [bind]. rewrite Htree, Hb.
    unfold gin_check_posting_tree_parent_keys_consistency.
    rewrite Hspin by reflexivity. reflexivity.
Qed.

(** ** Pages at the border *)

(** On a page without tuples reached through a downlink, the split check
    asks for the line pointer at offset 0: the visit raises the error of the
    line pointer when the page has none there, and otherwise compares the
    parent with whatever that line pointer leads to, and ends without a
    scan. *)
Theorem empty_child_page_reads_offset_zero (fuel : nat) (rel : Relation)
    (stack : GinScanItem) (next : list GinScanItem) (leafdepth : Z)
    (log : list LogLine) (page : PageData) (parent : IndexTupleData) :
  ReadBufferExtended rel (blkno stack) = Ok page ->
  check_index_page page (blkno stack) = Ok tt ->
  parenttup stack = Some parent ->
  PageGetMaxOffsetNumber page = 0 ->
  (PageGetItem page InvalidOffsetNumber = None ->
   entry_tree_visit fuel rel stack next leafdepth log =
     Raise (line_pointer_invalid (blkno stack) InvalidOffsetNumber)) /\
  (forall lp idxtuple,
     PageGetItem page InvalidOffsetNumber = Some (lp, idxtuple) ->
     entry_tree_visit fuel rel stack next leafdepth log =
       (let* ld := check_leafdepth page (depth stack) (blkno stack)
                     leafdepth in
        if negb (rightlink page =? InvalidBlockNumber)
           && (compare_tuple_keys (gintuple_get_attrnum idxtuple) idxtuple
                 parent <=? 0)
        then Ok (sibling_item stack parent page :: next, ld,
                 log ++ [info_split_detected])
        else Ok (next, ld, log ++ []))).
Proof.
  intros Hread Hsane Hparent Hmax. unfold entry_tree_visit.
  rewrite Hread. cbn [bind]. rewrite Hsane. cbn [bind].
  unfold split_check, PageGetItemIdCareful. rewrite Hparent, Hmax.
  unfold InvalidOffsetNumber. split.
  - intros ->. reflexivity.
  - intros lp t ->. cbn [bind].
    destruct (negb (rightlink page =? InvalidBlockNumber)
              && (compare_tuple_keys (gintuple_get_attrnum t) t parent <=? 0));
      cbn [bind];
      destruct (check_leafdepth page (depth stack) (blkno stack) leafdepth);
      reflexivity.
Qed.

(** An index whose root is a leaf with one tuple, of aligned size, that
    holds a posting list passing its check, is accepted, with the one line
    of that posting list logged; no posting tree is walked. *)
Theorem single_inline_entry_accepted (fuel : nat) (rel : Relation)
    (root : PageData) (lp : Z) (idxtuple : IndexTupleData) :
  ReadBufferExtended rel GIN_ROOT_BLKNO = Ok root ->
  check_index_page root GIN_ROOT_BLKNO = Ok tt ->
  GinPageIsLeaf root = true ->
  PageGetMaxOffsetNumber root = 1 ->
  PageGetItem root FirstOffsetNumber = Some (lp, idxtuple) ->
  MAXALIGN lp = MAXALIGN (IndexTupleSize idxtuple) ->
  GinIsPostingTree idxtuple = false ->
  validate_posting_list idxtuple GIN_ROOT_BLKNO = Ok tt ->
  gin_check_parent_keys_consistency (S fuel) rel =
    Ok [info_validating_posting_list GIN_ROOT_BLKNO FirstOffsetNumber].
Proof.
  intros Hroot Hsane Hleaf Hmax Hitem Hsz Htree Hlist.
  unfold gin_check_parent_keys_consistency. cbn [entry_tree_loop].
  unfold entry_tree_visit. cbn [blkno]. rewrite Hroot. cbn [bind].
  rewrite Hsane. cbn [bind]. unfold split_check. cbn [parenttup bind].
  unfold check_leafdepth. rewrite Hleaf. cbn [Z.eqb bind].
  unfold for_each_offset. rewrite Hmax.
  change (Z.to_nat 1) with 1%nat. cbn [for_offsets].
  rewrite (entry_tuple_step_runs_parent_check _ _ _ _ _ _ _ _ _ _ Hitem Hsz)
    by (unfold order_check; rewrite Z.eqb_refl; reflexivity).
  cbn [stack_parenttup parent_check bind]. rewrite Hleaf.
  unfold validate_leaf, for_each_offset. rewrite Hmax.
  change (Z.to_nat 1) with 1%nat. cbn [for_offsets].
  unfold validate_leaf_step, PageGetItemIdCareful. rewrite Hitem. cbn [bind].
  rewrite Htree. cbn [blkno]. rewrite Hlist.
  cbn [bind app scan_log stack_next]. destruct fuel; reflexivity.
Qed.

(** ** The end of the whole check *)

Section Ends.

Variable rel : Relation.
Variable pweight : BlockNumber -> nat.
Variable fuel : nat.
Hypothesis posting_bound : posting_trees_bounded rel pweight.
Hypothesis enough : forall b, (S (pweight b) <= fuel)%nat.

Lemma validate_leaf_ends (page : PageData) (b : BlockNumber)
    (log : list LogLine) :
  validate_leaf fuel rel page b log <> OutOfFuel.
Proof.
  unfold validate_leaf, for_each_offset. revert log.
  generalize FirstOffsetNumber.
  induction (Z.to_nat (PageGetMaxOffsetNumber page)) as [|n IH];
    intros i log; cbn [for_offsets]; [discriminate|].
  destruct (validate_leaf_step fuel rel page b i log) as [log1| | |] eqn:Hstep;
    cbn [bind]; try discriminate; [apply IH|].
  exfalso. revert Hstep. unfold validate_leaf_step, PageGetItemIdCareful.
  destruct (PageGetItem page i) as [[lp t]|]; cbn [bind]; [|discriminate].
  destruct (GinIsPostingTree t).
  - destruct (gin_check_posting_tree_parent_keys_consistency fuel rel
                (GinGetPostingTree t)) as [[]| | |] eqn:Hwalk; cbn [bind];
      try discriminate.
    intros _. revert Hwalk.
    unfold gin_check_posting_tree_parent_keys_consistency.
    apply (posting_tree_loop_ends rel pweight posting_bound).
    cbn. pose proof (enough (GinGetPostingTree t)). lia.
  - unfold validate_posting_list.
    destruct (ginReadTupleWithoutState t) as [[ipd nipd]| | |] eqn:Hread;
      cbn [bind]; try discriminate.
    + unfold array_get. destruct (nipd - 1 <? 0); [discriminate|].
      destruct (nth_error ipd (Z.to_nat (nipd - 1))) as [last|]; cbn [bind];
        [|discriminate].
      destruct (OffsetNumberIsValid (ItemPointerGetOffsetNumber last));
        discriminate.
    + exfalso. revert Hread. unfold ginReadTupleWithoutState.
      destruct (GinItupIsCompressed t); [|discriminate].
      destruct (0 <? GinGetNPosting t); [|discriminate].
      destruct (GinGetNPosting t =? _); discriminate.
Qed.

Lemma gin_refind_parent_ends (parentblkno childblkno : BlockNumber) :
  gin_refind_parent rel parentblkno childblkno <> OutOfFuel.
Proof.
  unfold gin_refind_parent, ReadBufferExtended.
  destruct (parentblkno <? 0); [discriminate|].
  destruct (nth_error rel (Z.to_nat parentblkno)) as [pp|]; cbn [bind];
    [|discriminate].
  destruct (GinPageIsLeaf pp); [discriminate|].
  generalize FirstOffsetNumber.
  induction (Z.to_nat (PageGetMaxOffsetNumber pp)) as [|n IH]; intros o;
    cbn [refind_loop]; [discriminate|].
  unfold PageGetItemIdCareful.
  destruct (PageGetItem pp o) as [[lp t]|]; cbn [bind]; [|discriminate].
  destruct (ItemPointerGetBlockNumber (t_tid t) =? childblkno);
    [discriminate|apply IH].
Qed.

Lemma entry_tuple_step_ends (stack : GinScanItem) (page : PageData) (lsn : Z)
    (maxoff i : OffsetNumber) (s : EntryScan) :
  entry_tuple_step fuel rel stack page lsn maxoff i s <> OutOfFuel.
Proof.
  unfold entry_tuple_step, PageGetItemIdCareful.
  destruct (PageGetItem page i) as [[lp t]|]; cbn [bind]; [|discriminate].
  destruct (MAXALIGN lp =? MAXALIGN (IndexTupleSize t)); cbn [negb];
    [|discriminate].
  destruct (order_check stack (gintuple_get_attrnum t) (prev_tuple s) t i)
    as [[]| | |] eqn:Hord; cbn [bind]; try discriminate.
  - destruct (parent_check rel stack (stack_parenttup s)
                (gintuple_get_attrnum t) t i maxoff)
      as [[parent notice]| | |] eqn:Hpar; cbn [bind]; try discriminate.
    + destruct (GinPageIsLeaf page); cbn [negb]; [|discriminate].
      destruct (validate_leaf fuel rel page (blkno stack)
                  (scan_log s ++ notice)) as [log1| | |] eqn:Hv;
        cbn [bind]; try discriminate.
      exfalso. exact (validate_leaf_ends _ _ _ Hv).
    + exfalso. revert Hpar. unfold parent_check.
      destruct (stack_parenttup s) as [p|]; [|discriminate].
      destruct (i =? maxoff); [|discriminate].
      destruct (compare_tuple_keys _ t p <=? 0); [|discriminate].
      destruct (gin_refind_parent rel (parentblk stack) (blkno stack))
        as [[p'|]| | |] eqn:Hre; cbn [bind]; try discriminate.
      * destruct (compare_tuple_keys _ t p' <=? 0); discriminate.
      * exfalso. exact (gin_refind_parent_ends _ _ Hre).
  - exfalso. revert Hord. unfold order_check.
    destruct (i =? FirstOffsetNumber); cbn [negb]; [discriminate|].
    destruct (prev_tuple s) as [p|]; [|discriminate].
    destruct (compare_tuple_keys _ p t <=? 0); discriminate.
Qed.

Lemma entry_tree_visit_ends (stack : GinScanItem) (next : list GinScanItem)
    (leafdepth : Z) (log : list LogLine) :
  entry_tree_visit fuel rel stack next leafdepth log <> OutOfFuel.
Proof.
  unfold entry_tree_visit.
  destruct (ReadBufferExtended rel (blkno stack)) as [page| | |] eqn:Hread;
    cbn [bind]; try discriminate.
  - destruct (check_index_page page (blkno stack)) as [[]| | |] eqn:Hsane;
      cbn [bind]; try discriminate.
    + destruct (split_check stack page) as [[sibling info]| | |] eqn:Hsplit;
        cbn [bind]; try discriminate.
      * destruct (check_leafdepth page (depth stack) (blkno stack) leafdepth)
          as [ld| | |] eqn:Hdepth; cbn [bind]; try discriminate.
        -- unfold for_each_offset.
           generalize {| prev_tuple := None;
                         stack_parenttup := parenttup stack;
                         stack_next := sibling ++ next;
                         scan_log := log ++ info |}.
           generalize FirstOffsetNumber.
           induction (Z.to_nat (PageGetMaxOffsetNumber page)) as [|n IH];
             intros i s; cbn [for_offsets bind]; [discriminate|].
           destruct (entry_tuple_step fuel rel stack page (pd_lsn page)
                       (PageGetMaxOffsetNumber page) i s)
             as [s1| | |] eqn:Hstep; cbn [bind]; try discriminate;
             [apply IH|].
           exfalso. exact (entry_tuple_step_ends _ _ _ _ _ _ Hstep).
        -- revert Hdepth. unfold check_leafdepth.
           destruct (GinPageIsLeaf page); [|discriminate].
           destruct (leafdepth =? -1); [discriminate|].
           destruct (depth stack =? leafdepth); discriminate.
      * revert Hsplit. unfold split_check, PageGetItemIdCareful.
        destruct (parenttup stack); [|discriminate].
        destruct (PageGetItem page (PageGetMaxOffsetNumber page))
          as [[lp t]|]; cbn [bind]; [|discriminate].
        destruct (_ && _); discriminate.
    + revert Hsane. unfold check_index_page.
      destruct (gincheckpage page); cbn [bind]; [discriminate|].
      destruct (GinPageIsDeleted page);
        [destruct (GinPageIsLeaf page); cbn [negb];
         [destruct (InvalidOffsetNumber <? PageGetMaxOffsetNumber page)|]
        |destruct (MaxIndexTuplesPerPage <? PageGetMaxOffsetNumber page)];
        discriminate.
  - revert Hread. unfold ReadBufferExtended.
    destruct (blkno stack <? 0); [discriminate|].
    destruct (nth_error rel (Z.to_nat (blkno stack))); discriminate.
Qed.

End Ends.

Lemma entry_downlinks_of_tuples (page : PageData) (offsets : list OffsetNumber)
    (tuples : list IndexTupleData) :
  Forall2 (holds_tuple page) offsets tuples ->
  flat_map
    (fun i => match PageGetItem page i with
              | Some (_, idxtuple) =>
                  [ItemPointerGetBlockNumber (t_tid idxtuple)]
              | None => []
              end) offsets =
  map (fun t => ItemPointerGetBlockNumber (t_tid t)) tuples.
Proof.
  induction 1 as [|i t offsets tuples (lp & Hitem) _ IH]; [reflexivity|].
  cbn [flat_map map]. rewrite Hitem, IH. reflexivity.
Qed.

Lemma entry_stack_turns_app (weight : BlockNumber -> nat)
    (l1 l2 : list GinScanItem) :
  entry_stack_turns weight (l1 ++ l2) =
    (entry_stack_turns weight l1 + entry_stack_turns weight l2)%nat.
Proof. unfold entry_stack_turns. rewrite map_app. apply list_sum_app. Qed.

Lemma entry_stack_turns_downlinks (weight : BlockNumber -> nat)
    (stack : GinScanItem) (lsn : Z) (tuples : list IndexTupleData) :
  entry_stack_turns weight (rev (map (downlink_item stack lsn) tuples)) =
    list_sum (map (fun c => S (weight c))
                (map (fun t => ItemPointerGetBlockNumber (t_tid t)) tuples)).
Proof.
  induction tuples as [|t tuples IH]; [reflexivity|].
  cbn [map rev]. rewrite entry_stack_turns_app, IH.
  unfold entry_stack_turns.
  cbn [map list_sum fold_right downlink_item blkno].
  fold (list_sum
          (map (fun c => S (weight c))
             (map (fun t => ItemPointerGetBlockNumber (t_tid t)) tuples))).
  lia.
Qed.

(** A visit that ends without error leaves a stack that is allowed fewer
    turns. *)
Lemma entry_tree_visit_turns (fuel : nat) (rel : Relation)
    (weight : BlockNumber -> nat) (stack : GinScanItem)
    (next : list GinScanItem) (leafdepth : Z) (log : list LogLine)
    (next' : list GinScanItem) (leafdepth' : Z) (log' : list LogLine) :
  entry_tree_bounded rel weight ->
  entry_tree_visit fuel rel stack next leafdepth log =
    Ok (next', leafdepth', log') ->
  (entry_stack_turns weight next'
   <= weight (blkno stack) + entry_stack_turns weight next)%nat.
Proof.
  intros Hbound Hvisit. apply entry_tree_visit_ok in Hvisit.
  destruct Hvisit as (page & sibling & info & s & Hread & _ & Hsplit & _
                      & Hscan & -> & _).
  pose proof (Hbound _ _ Hread) as Hb. unfold entry_successors in Hb.
  rewrite map_app, list_sum_app in Hb.
  assert (Hsib : (entry_stack_turns weight sibling
                  <= list_sum (map (fun c => S (weight c))
                       (if (rightlink page =? InvalidBlockNumber)%Z then []
                        else [rightlink page])))%nat).
  { revert Hsplit. unfold split_check, PageGetItemIdCareful.
    destruct (parenttup stack) as [parent|];
      [|intros [= <- _]; cbn; lia].
    destruct (PageGetItem page (PageGetMaxOffsetNumber page)) as [[lp t]|];
      cbn [bind]; [|discriminate].
    destruct (rightlink page =? InvalidBlockNumber); cbn [negb andb];
      [intros [= <- _]; cbn; lia|].
    destruct (compare_tuple_keys _ t parent <=? 0); intros [= <- _]; cbn; lia. }
  unfold for_each_offset in Hscan.
  destruct (GinPageIsLeaf page) eqn:Hleaf.
  - apply entry_scan_pushes_children in Hscan.
    destruct Hscan as (children & _ & Hlen & ->). rewrite Hleaf in Hlen.
    destruct children; [|discriminate]. cbn [stack_next app].
    rewrite entry_stack_turns_app. lia.
  - apply (entry_scan_downlinks _ _ _ _ _ _ _ Hleaf) in Hscan.
    destruct Hscan as (tuples & Hall & ->). cbn [stack_next].
    rewrite !entry_stack_turns_app, entry_stack_turns_downlinks.
    unfold entry_downlinks in Hb.
    rewrite (entry_downlinks_of_tuples _ _ _ Hall) in Hb. lia.
Qed.

(** When the entry tree, with the right links, and the posting trees of the
    relation are bounded, the whole check ends, by success or by an error
    or in the read before an empty array, within the turns the root is
    allowed and those of the largest posting tree. *)
Theorem check_ends (rel : Relation) (weight pweight : BlockNumber -> nat)
    (most fuel : nat) :
  entry_tree_bounded rel weight ->
  posting_trees_bounded rel pweight ->
  (forall b, (S (pweight b) <= most)%nat) ->
  (S (weight GIN_ROOT_BLKNO) + most <= fuel)%nat ->
  gin_check_parent_keys_consistency fuel rel <> OutOfFuel.
Proof.
  intros Hbound Hpbound Hmost Hfuel.
  unfold gin_check_parent_keys_consistency.
  remember [{| depth := 0; parenttup := None;
               parentblk := InvalidBlockNumber; parentlsn := 0;
               blkno := GIN_ROOT_BLKNO |}] as stack eqn:Hstack.
  assert (Hturns : (entry_stack_turns weight stack + most <= fuel)%nat).
  { subst stack. cbn. lia. }
  clear Hstack Hfuel. generalize (@nil LogLine). generalize (-1).
  revert stack Hturns.
  induction fuel as [|fuel IH]; intros stack Hturns ld log;
    destruct stack as [|item next]; cbn [entry_tree_loop]; try discriminate.
  - cbn in Hturns. lia.
  - change (entry_stack_turns weight (item :: next))
      with (S (weight (blkno item) + entry_stack_turns weight next))%nat
      in Hturns.
    destruct (entry_tree_visit fuel rel item next ld log)
      as [[[next' ld'] log']| | |] eqn:Hvisit; cbn [bind]; try discriminate.
    + apply IH.
      pose proof (entry_tree_visit_turns _ _ _ _ _ _ _ _ _ _ Hbound Hvisit).
      lia.
    + exfalso. revert Hvisit.
      apply (entry_tree_visit_ends rel pweight fuel Hpbound).
      intros b. pose proof (Hmost b). lia.
Qed.

End EntryTreeWalk.

Section EarlierRevisionProperties.

Context `{env : Environment}.

Variable GinPageRightMost : PageData -> bool.
Variable ginCompareItemPointers : ItemPointerData -> ItemPointerData -> Z.
Variable GinDataPageGetRightBound : PageData -> ItemPointerData.

Abbreviation visit_earlier :=
  (entry_tree_visit_earlier GinPageRightMost ginCompareItemPointers
     GinDataPageGetRightBound).
Abbreviation loop_earlier :=
  (entry_tree_loop_earlier GinPageRightMost ginCompareItemPointers
     GinDataPageGetRightBound).
Abbreviation check_earlier :=
  (gin_check_parent_keys_consistency_earlier GinPageRightMost
     ginCompareItemPointers GinDataPageGetRightBound).

(** ** The outcomes of the earlier revision *)

Lemma entry_scan_earlier_outcome (stack : GinScanItem) (page : PageData)
    (lsn : Z) (n : nat) :
  forall (i : OffsetNumber) (next : list GinScanItem),
  Forall (fun item => parenttup item <> None) next ->
  (exists next',
     for_offsets n i (entry_tuple_step_earlier stack page lsn) next = Ok next'
     /\ Forall (fun item => parenttup item <> None) next') \/
  (exists e,
     for_offsets n i (entry_tuple_step_earlier stack page lsn) next = Raise e
     /\ reported_by_earlier e).
Proof.
  induction n as [|n IH]; intros i next Hnext; cbn [for_offsets]; [eauto|].
  unfold entry_tuple_step_earlier at 1 3, PageGetItemIdCareful.
  destruct (PageGetItem page i) as [[lp t]|]; cbn [bind];
    [|right; eexists; split; [reflexivity|exact I]].
  destruct (MAXALIGN lp =? MAXALIGN (IndexTupleSize t)); cbn [negb];
    [|right; eexists; split; [reflexivity|exact I]].
  destruct (GinPageIsLeaf page); cbn [negb bind]; apply IH; [exact Hnext|].
  constructor; [discriminate|exact Hnext].
Qed.

Lemma check_index_page_earlier_outcome (page : PageData)
    (blockNo : BlockNumber) :
  check_index_page_earlier page blockNo = Ok tt \/
  exists e, check_index_page_earlier page blockNo = Raise e /\
            reported_by_earlier e.
Proof.
  unfold check_index_page_earlier.
  destruct (GinPageIsDeleted page);
    [destruct (GinPageIsLeaf page); cbn [negb];
     [destruct (InvalidOffsetNumber <? PageGetMaxOffsetNumber page)|]
    |destruct (MaxIndexTuplesPerPage <? PageGetMaxOffsetNumber page)];
    auto; right; eexists; split; try reflexivity; exact I.
Qed.

Lemma split_check_earlier_outcome (stack : GinScanItem) (page : PageData) :
  (exists sibling,
     split_check_earlier GinPageRightMost ginCompareItemPointers
       GinDataPageGetRightBound stack page = Ok sibling /\
     Forall (fun item => parenttup item <> None) sibling) \/
  (split_check_earlier GinPageRightMost ginCompareItemPointers
     GinDataPageGetRightBound stack page
     = Undefined null_pointer_dereference /\
   parenttup stack = None /\ GinPageRightMost page = false).
Proof.
  unfold split_check_earlier.
  destruct (GinPageRightMost page); cbn [negb]; [eauto|].
  destruct (parenttup stack) as [parent|]; [|auto].
  destruct (0 <=? _); left; eexists; split; try reflexivity;
    repeat constructor. discriminate.
Qed.

Lemma check_leafdepth_outcome (page : PageData) (d : Z) (b : BlockNumber)
    (leafdepth : Z) :
  (exists ld, check_leafdepth page d b leafdepth = Ok ld) \/
  check_leafdepth page d b leafdepth = Raise (leaf_page_unexpected b).
Proof.
  unfold check_leafdepth.
  destruct (GinPageIsLeaf page);
    [destruct (leafdepth =? -1); [|destruct (d =? leafdepth)]|];
    cbn [negb]; eauto.
Qed.

(** A visit ends with a stack whose items all have a parent tuple, or with an
    error the revision has a report for, or, on an item without parent
    tuple whose page is not the right-most, with the dereference of the
    parent tuple. *)
Lemma entry_tree_visit_earlier_outcome (rel : Relation) (stack : GinScanItem)
    (next : list GinScanItem) (leafdepth : Z) :
  Forall (fun item => parenttup item <> None) next ->
  (exists next' leafdepth',
     visit_earlier rel stack next leafdepth = Ok (next', leafdepth') /\
     Forall (fun item => parenttup item <> None) next') \/
  (exists e, visit_earlier rel stack next leafdepth = Raise e /\
             reported_by_earlier e) \/
  (visit_earlier rel stack next leafdepth
     = Undefined null_pointer_dereference /\
   parenttup stack = None /\
   exists page, ReadBufferExtended rel (blkno stack) = Ok page /\
                GinPageRightMost page = false).
Proof.
  intros Hnext. unfold entry_tree_visit_earlier.
  destruct (ReadBufferExtended rel (blkno stack)) as [page|e|u|] eqn:Hread;
    cbn [bind].
  - destruct (check_index_page_earlier_outcome page (blkno stack))
      as [-> |(e & -> & He)]; cbn [bind]; [|eauto].
    destruct (split_check_earlier_outcome stack page)
      as [(sibling & -> & Hsib)|(-> & Hnone & Hright)]; cbn [bind];
      [|right; right; eauto].
    destruct (check_leafdepth_outcome page (depth stack) (blkno stack)
                leafdepth) as [(ld & ->)| ->]; cbn [bind];
      [|right; left; eexists; split; [reflexivity|exact I]].
    unfold for_each_offset.
    destruct (entry_scan_earlier_outcome stack page (pd_lsn page)
                (Z.to_nat (PageGetMaxOffsetNumber page))
                FirstOffsetNumber (sibling ++ next))
      as [(next' & -> & Hall)|(e & -> & He)]; cbn [bind]; eauto.
    apply Forall_app. auto.
  - right. left. exists e. split; [reflexivity|].
    unfold ReadBufferExtended in Hread.
    destruct (blkno stack <? 0); [injection Hread as <-; exact I|].
    destruct (nth_error rel (Z.to_nat (blkno stack)));
      [discriminate|injection Hread as <-; exact I].
  - exfalso. unfold ReadBufferExtended in Hread.
    destruct (blkno stack <? 0); [discriminate|].
    destruct (nth_error rel (Z.to_nat (blkno stack))); discriminate.
  - exfalso. unfold ReadBufferExtended in Hread.
    destruct (blkno stack <? 0); [discriminate|].
    destruct (nth_error rel (Z.to_nat (blkno stack))); discriminate.
Qed.

Lemma entry_tree_loop_earlier_outcome (rel : Relation) (fuel : nat) :
  forall (stack : list GinScanItem) (leafdepth : Z),
  Forall (fun item => parenttup item <> None) stack ->
  loop_earlier fuel rel stack leafdepth = Ok tt \/
  loop_earlier fuel rel stack leafdepth = OutOfFuel \/
  exists e, loop_earlier fuel rel stack leafdepth = Raise e /\
            reported_by_earlier e.
Proof.
  induction fuel as [|fuel IH]; intros stack ld Hstack;
    destruct stack as [|item next]; cbn [entry_tree_loop_earlier]; auto.
  inversion Hstack as [|? ? Hitem Hnext]; subst.
  destruct (entry_tree_visit_earlier_outcome rel item next ld Hnext)
    as [(next' & ld' & -> & Hall)|[(e & -> & He)|(_ & Hnone & _)]];
    cbn [bind]; eauto. congruence.
Qed.

(** The earlier revision ends without error, or with an error of the page
    header, of the leaf depth, of a tuple size, of a line pointer or of a
    read, and never with an error of the order of the keys, of the parent
    key, of a heap pointer or of the decoding; the macros that read a page
    being total, its only undefined behaviour is the dereference of the
    parent tuple of the root, which happens only when the root is not the
    right-most page. *)
Theorem earlier_check_outcomes (fuel : nat) (rel : Relation) :
  check_earlier fuel rel = Ok tt \/
  check_earlier fuel rel = OutOfFuel \/
  (exists e, check_earlier fuel rel = Raise e /\ reported_by_earlier e) \/
  (check_earlier fuel rel = Undefined null_pointer_dereference /\
   exists root, ReadBufferExtended rel GIN_ROOT_BLKNO = Ok root /\
                GinPageRightMost root = false).
Proof.
  unfold gin_check_parent_keys_consistency_earlier.
  destruct fuel as [|fuel]; cbn [entry_tree_loop_earlier]; auto.
  destruct (entry_tree_visit_earlier_outcome rel
              {| depth := 0; parenttup := None;
                 parentblk := InvalidBlockNumber; parentlsn := 0;
                 blkno := GIN_ROOT_BLKNO |} [] (-1) (Forall_nil _))
    as [(next' & ld' & -> & Hall)|[(e & -> & He)|(-> & _ & Hroot)]];
    cbn [bind]; eauto 6.
  destruct (entry_tree_loop_earlier_outcome rel fuel next' ld' Hall)
    as [H|[H|H]]; auto.
Qed.

(** In the earlier revision, a root that passes the checks of its header and
    is not the right-most page ends the check in the dereference of the
    parent tuple, which the root item does not have. *)
Theorem earlier_root_with_sibling (fuel : nat) (rel : Relation)
    (root : PageData) :
  ReadBufferExtended rel GIN_ROOT_BLKNO = Ok root ->
  check_index_page_earlier root GIN_ROOT_BLKNO = Ok tt ->
  GinPageRightMost root = false ->
  check_earlier (S fuel) rel = Undefined null_pointer_dereference.
Proof.
  intros Hread Hsane Hright.
  unfold gin_check_parent_keys_consistency_earlier.
  cbn [entry_tree_loop_earlier]. unfold entry_tree_visit_earlier.
  cbn [blkno]. rewrite Hread. cbn [bind]. rewrite Hsane. cbn [bind].
  unfold split_check_earlier. rewrite Hright. reflexivity.
Qed.

End EarlierRevisionProperties.

(** * The further properties on the small indexes *)

Lemma uneven_index_posting_trees_bounded :
  posting_trees_bounded uneven_index uneven_weight.
Proof.
  intros b page Hread Hleaf. unfold ReadBufferExtended in Hread.
  destruct (b <? 0) eqn:Hneg; [discriminate|]. apply Z.ltb_ge in Hneg.
  assert (Hb : b = Z.of_nat (Z.to_nat b)) by lia.
  destruct (Z.to_nat b) as [|[|[|[|[|[|[|[|[|n]]]]]]]]];
    cbn in Hread; try (destruct n; discriminate);
    injection Hread as <-; subst b;
    try (vm_compute in Hleaf; discriminate); vm_compute; lia.
Qed.

Lemma uneven_index_entry_tree_bounded :
  entry_tree_bounded (env := example_env) uneven_index uneven_entry_weight.
Proof.
  intros b page Hread. unfold ReadBufferExtended in Hread.
  destruct (b <? 0) eqn:Hneg; [discriminate|]. apply Z.ltb_ge in Hneg.
  assert (Hb : b = Z.of_nat (Z.to_nat b)) by lia.
  destruct (Z.to_nat b) as [|[|[|[|[|[|[|[|[|n]]]]]]]]];
    cbn in Hread; try (destruct n; discriminate);
    injection Hread as <-; subst b; vm_compute; lia.
Qed.

Lemma uneven_weight_most (b : BlockNumber) : (S (uneven_weight b) <= 4)%nat.
Proof. unfold uneven_weight. destruct (b =? 5), (b =? 7); lia. Qed.


(** On [uneven_index], whose posting tree of root block 5 has four pages,
    four turns end the walk. *)
Lemma posting_tree_walk_ends_witness :
  posting_trees_bounded uneven_index uneven_weight /\
  (S (uneven_weight 5%Z) <= 4)%nat /\
  gin_check_posting_tree_parent_keys_consistency (env := example_env) 4
    uneven_index 5
    <> OutOfFuel.
Proof.
  split; [exact uneven_index_posting_trees_bounded|].
  split; [vm_compute; lia|].
  apply (posting_tree_walk_ends (env := example_env) uneven_index
           uneven_weight 4 5 uneven_index_posting_trees_bounded).
  vm_compute. lia.
Defined.

(** On a leaf tuple with one item, (1, 1): the item is read and passes. *)
Lemma validate_posting_list_checks_last_witness :
  0 < GinGetNPosting (leaf_tuple 1) /\
  (GinItupIsCompressed (leaf_tuple 1) = true ->
   Z.of_nat (length (byte_pairs (GinGetPosting (leaf_tuple 1)))) =
     GinGetNPosting (leaf_tuple 1)) /\
  exists last,
    nth_error (byte_pairs one_item) 0 = Some last /\
    (ip_posid last <> 0 /\ ip_posid last <= 2048 ->
     validate_posting_list (env := example_env) (leaf_tuple 1) 2 = Ok tt) /\
    (ip_posid last = 0 \/ 2048 < ip_posid last ->
     validate_posting_list (env := example_env) (leaf_tuple 1) 2 =
       Raise (invalid_heap_pointer 2)).
Proof.
  split; [reflexivity|]. split; [intros _; reflexivity|].
  exact (validate_posting_list_checks_last (env := example_env)
           (leaf_tuple 1) 2 eq_refl (fun _ => eq_refl)).
Defined.

(** On the root of [two_level_index], for the child block 2. *)
Lemma gin_refind_parent_first_match_witness :
  ReadBufferExtended (two_level_index 5) 1 =
    Ok (entry_page 0 4294967295 [downlink_tuple 10 2]) /\
  (gin_refind_parent (two_level_index 5) 1 2 = Ok (Some (downlink_tuple 10 2))
   <->
   GinPageIsLeaf (entry_page 0 4294967295 [downlink_tuple 10 2]) = false /\
   exists o lp,
     1 <= o <=
       PageGetMaxOffsetNumber (entry_page 0 4294967295 [downlink_tuple 10 2])
     /\
     PageGetItem (entry_page 0 4294967295 [downlink_tuple 10 2]) o =
       Some (lp, downlink_tuple 10 2) /\
     ItemPointerGetBlockNumber (t_tid (downlink_tuple 10 2)) = 2 /\
     forall o', 1 <= o' < o ->
       exists lp' itup',
         PageGetItem (entry_page 0 4294967295 [downlink_tuple 10 2]) o' =
           Some (lp', itup') /\
         ItemPointerGetBlockNumber (t_tid itup') <> 2).
Proof.
  split; [reflexivity|].
  apply (gin_refind_parent_first_match (two_level_index 5) 1 2
           (entry_page 0 4294967295 [downlink_tuple 10 2])
           (downlink_tuple 10 2)).
  reflexivity.
Defined.

(** On the root of [uneven_index]: the items for the blocks 3 and 2. *)
Lemma entry_tree_visit_pushes_downlinks_witness :
  ReadBufferExtended uneven_index (blkno root_item) =
    Ok (entry_page 0 4294967295 [downlink_tuple 20 2; downlink_tuple 10 3]) /\
  GinPageIsLeaf
    (entry_page 0 4294967295 [downlink_tuple 20 2; downlink_tuple 10 3]) =
    false /\
  entry_tree_visit (env := example_env) 5 uneven_index root_item [] (-1) [] =
    Ok ([downlink_item root_item 0 (downlink_tuple 10 3);
         downlink_item root_item 0 (downlink_tuple 20 2)], -1, []) /\
  exists tuples sibling info,
    split_check (env := example_env) root_item
      (entry_page 0 4294967295 [downlink_tuple 20 2; downlink_tuple 10 3]) =
      Ok (sibling, info) /\
    Forall2
      (holds_tuple
         (entry_page 0 4294967295 [downlink_tuple 20 2; downlink_tuple 10 3]))
      (offsets_from 2 1) tuples /\
    [downlink_item root_item 0 (downlink_tuple 10 3);
     downlink_item root_item 0 (downlink_tuple 20 2)] =
      rev (map (downlink_item root_item 0) tuples) ++ sibling ++ [] /\
    -1 = -1.
Proof.
  split; [reflexivity|]. split; [reflexivity|]. split; [reflexivity|].
  exact (entry_tree_visit_pushes_downlinks (env := example_env) 5
           uneven_index root_item [] (-1) []
           (entry_page 0 4294967295 [downlink_tuple 20 2; downlink_tuple 10 3])
           _ _ _ eq_refl eq_refl eq_refl).
Defined.

(** On the root of [uneven_index]: both tuples have the size of their line
    pointer. *)
Lemma entry_tree_visit_tuple_sizes_witness :
  ReadBufferExtended uneven_index (blkno root_item) =
    Ok (entry_page 0 4294967295 [downlink_tuple 20 2; downlink_tuple 10 3]) /\
  entry_tree_visit (env := example_env) 5 uneven_index root_item [] (-1) [] =
    Ok ([downlink_item root_item 0 (downlink_tuple 10 3);
         downlink_item root_item 0 (downlink_tuple 20 2)], -1, []) /\
  forall j, 1 <= j <= 2 ->
    exists lp idxtuple,
      PageGetItem
        (entry_page 0 4294967295 [downlink_tuple 20 2; downlink_tuple 10 3]) j
        = Some (lp, idxtuple) /\
      MAXALIGN (Environment := example_env) lp =
        MAXALIGN (Environment := example_env) (IndexTupleSize idxtuple).
Proof.
  split; [reflexivity|]. split; [reflexivity|].
  exact (entry_tree_visit_tuple_sizes (env := example_env) 5
           uneven_index root_item [] (-1) []
           (entry_page 0 4294967295 [downlink_tuple 20 2; downlink_tuple 10 3])
           _ _ _ eq_refl eq_refl).
Defined.

(** On [leaf_root_index 2 1], a leaf with two tuples: the two lines of the
    page are logged twice. *)
Lemma entry_tree_visit_leaf_log_witness :
  ReadBufferExtended (leaf_root_index 2 1) (blkno root_item) =
    Ok (entry_page GIN_LEAF 4294967295 [leaf_tuple 2; leaf_tuple 1]) /\
  GinPageIsLeaf (entry_page GIN_LEAF 4294967295 [leaf_tuple 2; leaf_tuple 1])
    = true /\
  0 < PageGetMaxOffsetNumber
        (entry_page GIN_LEAF 4294967295 [leaf_tuple 2; leaf_tuple 1]) /\
  entry_tree_visit (env := example_env) 5 (leaf_root_index 2 1) root_item []
    (-1) [] =
    Ok ([], 0,
        [info_validating_posting_list 1 1; info_validating_posting_list 1 2;
         info_validating_posting_list 1 1; info_validating_posting_list 1 2])
  /\
  leaf_lines (entry_page GIN_LEAF 4294967295 [leaf_tuple 2; leaf_tuple 1]) 1 =
    [info_validating_posting_list 1 1; info_validating_posting_list 1 2] /\
  exists sibling info notice,
    split_check (env := example_env) root_item
      (entry_page GIN_LEAF 4294967295 [leaf_tuple 2; leaf_tuple 1]) =
      Ok (sibling, info) /\
    [] = sibling ++ [] /\
    length
      (leaf_lines
         (entry_page GIN_LEAF 4294967295 [leaf_tuple 2; leaf_tuple 1]) 1) =
      2%nat /\
    (notice = [] \/ notice = [notice_unable_to_find_parent 1 4294967295]) /\
    [info_validating_posting_list 1 1; info_validating_posting_list 1 2;
     info_validating_posting_list 1 1; info_validating_posting_list 1 2] =
      [] ++ info
      ++ concat
           (repeat
              (leaf_lines
                 (entry_page GIN_LEAF 4294967295
                    [leaf_tuple 2; leaf_tuple 1]) 1) (2 - 1))
      ++ notice
      ++ leaf_lines
           (entry_page GIN_LEAF 4294967295 [leaf_tuple 2; leaf_tuple 1]) 1.
Proof.
  split; [reflexivity|]. split; [reflexivity|]. split; [reflexivity|].
  split; [reflexivity|]. split; [reflexivity|].
  exact (entry_tree_visit_leaf_log (env := example_env) 5
           (leaf_root_index 2 1) root_item [] (-1) []
           (entry_page GIN_LEAF 4294967295 [leaf_tuple 2; leaf_tuple 1])
           _ _ _ eq_refl eq_refl eq_refl eq_refl).
Defined.

(** On block 2 of [two_level_index 5], whose key 5 is below the key 10 of
    its downlink and which has a right sibling. *)
Lemma split_detected_is_rejected_witness :
  ReadBufferExtended (two_level_index 5) (blkno block_2_item) =
    Ok (entry_page GIN_LEAF 3 [leaf_tuple 5]) /\
  parenttup block_2_item = Some (downlink_tuple 10 2) /\
  0 < PageGetMaxOffsetNumber (entry_page GIN_LEAF 3 [leaf_tuple 5]) /\
  gin_refind_parent (two_level_index 5) (parentblk block_2_item)
    (blkno block_2_item) = Ok (Some (downlink_tuple 10 2)) /\
  split_check (env := example_env) block_2_item
    (entry_page GIN_LEAF 3 [leaf_tuple 5]) =
    Ok ([sibling_item block_2_item (downlink_tuple 10 2)
           (entry_page GIN_LEAF 3 [leaf_tuple 5])],
        [info_split_detected]) /\
  [sibling_item block_2_item (downlink_tuple 10 2)
     (entry_page GIN_LEAF 3 [leaf_tuple 5])] <> [] /\
  forall outcome,
    entry_tree_visit (env := example_env) 5 (two_level_index 5) block_2_item
      [] 1 [] <> Ok outcome.
Proof.
  split; [reflexivity|]. split; [reflexivity|]. split; [reflexivity|].
  split; [reflexivity|]. split; [reflexivity|]. split; [discriminate|].
  apply (split_detected_is_rejected (env := example_env) 5
           (two_level_index 5) block_2_item [] 1 []
           (entry_page GIN_LEAF 3 [leaf_tuple 5]) (downlink_tuple 10 2)
           [sibling_item block_2_item (downlink_tuple 10 2)
              (entry_page GIN_LEAF 3 [leaf_tuple 5])]
           [info_split_detected]
           eq_refl eq_refl eq_refl eq_refl eq_refl).
  discriminate.
Defined.

(** On [self_child_index], with the fuel 7. *)
Lemma posting_tree_walk_loops_witness :
  ReadBufferExtended self_child_index 2 =
    Ok (data_page GIN_DATA 4294967295
          [{| child_blkno := 2;
              key := {| ip_blkid := 3; ip_posid := 1 |} |}]) /\
  GinPageIsLeaf
    (data_page GIN_DATA 4294967295
       [{| child_blkno := 2; key := {| ip_blkid := 3; ip_posid := 1 |} |}]) =
    false /\
  posting_children
    (data_page GIN_DATA 4294967295
       [{| child_blkno := 2; key := {| ip_blkid := 3; ip_posid := 1 |} |}])
    = [2] /\
  gin_check_posting_tree_parent_keys_consistency (env := example_env) 7
    self_child_index 2 =
    OutOfFuel /\
  gin_check_parent_keys_consistency (env := example_env) 7 self_child_index =
    OutOfFuel.
Proof.
  split; [reflexivity|]. split; [reflexivity|]. split; [reflexivity|].
  destruct (posting_tree_walk_loops (env := example_env) self_child_index 2
              (data_page GIN_DATA 4294967295
                 [{| child_blkno := 2;
                     key := {| ip_blkid := 3; ip_posid := 1 |} |}]) 7
              eq_refl eq_refl) as [Hwalk Hcheck].
  - vm_compute. discriminate.
  - vm_compute. constructor; [reflexivity|constructor].
  - split; [exact Hwalk|].
    apply (Hcheck (entry_page GIN_LEAF 4294967295 [posting_tree_tuple 1 2])
             16 (posting_tree_tuple 1 2));
      reflexivity.
Defined.

(** On block 2 of [empty_child_index], a leaf without tuples: the page has
    no line pointer at offset 0. *)
Lemma empty_child_page_reads_offset_zero_witness :
  ReadBufferExtended empty_child_index (blkno block_2_item) =
    Ok (entry_page GIN_LEAF 4294967295 []) /\
  check_index_page (env := example_env) (entry_page GIN_LEAF 4294967295 [])
    (blkno block_2_item) = Ok tt /\
  parenttup block_2_item = Some (downlink_tuple 10 2) /\
  PageGetMaxOffsetNumber (entry_page GIN_LEAF 4294967295 []) = 0 /\
  PageGetItem (entry_page GIN_LEAF 4294967295 []) InvalidOffsetNumber = None /\
  entry_tree_visit (env := example_env) 5 empty_child_index block_2_item []
    (-1) [] = Raise (line_pointer_invalid 2 0) /\
  gin_check_parent_keys_consistency (env := example_env) 5 empty_child_index =
    Raise (line_pointer_invalid 2 0).
Proof.
  split; [reflexivity|]. split; [reflexivity|]. split; [reflexivity|].
  split; [reflexivity|]. split; [reflexivity|]. split; [|reflexivity].
  destruct (empty_child_page_reads_offset_zero (env := example_env) 5
              empty_child_index block_2_item [] (-1) []
              (entry_page GIN_LEAF 4294967295 []) (downlink_tuple 10 2)
              eq_refl eq_refl eq_refl eq_refl) as [Hnone _].
  apply Hnone. reflexivity.
Defined.

(** On [single_entry_index]. *)
Lemma single_inline_entry_accepted_witness :
  ReadBufferExtended single_entry_index
    (GIN_ROOT_BLKNO (Environment := example_env)) =
    Ok (entry_page GIN_LEAF 4294967295 [leaf_tuple 1]) /\
  check_index_page (env := example_env)
    (entry_page GIN_LEAF 4294967295 [leaf_tuple 1]) 1 = Ok tt /\
  GinPageIsLeaf (entry_page GIN_LEAF 4294967295 [leaf_tuple 1]) = true /\
  PageGetMaxOffsetNumber (entry_page GIN_LEAF 4294967295 [leaf_tuple 1]) = 1
  /\
  PageGetItem (entry_page GIN_LEAF 4294967295 [leaf_tuple 1])
    FirstOffsetNumber = Some (18, leaf_tuple 1) /\
  MAXALIGN (Environment := example_env) 18 =
    MAXALIGN (Environment := example_env) (IndexTupleSize (leaf_tuple 1)) /\
  GinIsPostingTree (leaf_tuple 1) = false /\
  validate_posting_list (env := example_env) (leaf_tuple 1) 1 = Ok tt /\
  gin_check_parent_keys_consistency (env := example_env) 3 single_entry_index
    = Ok [info_validating_posting_list 1 1].
Proof.
  split; [reflexivity|]. split; [reflexivity|]. split; [reflexivity|].
  split; [reflexivity|]. split; [reflexivity|]. split; [reflexivity|].
  split; [reflexivity|]. split; [reflexivity|].
  exact (single_inline_entry_accepted (env := example_env) 2
           single_entry_index
           (entry_page GIN_LEAF 4294967295 [leaf_tuple 1]) 18 (leaf_tuple 1)
           eq_refl eq_refl eq_refl eq_refl eq_refl eq_refl eq_refl eq_refl).
Defined.

(** On [uneven_index]: three turns for the entry tree under the root, one
    for the root and four for the posting tree. *)
Lemma check_ends_witness :
  entry_tree_bounded (env := example_env) uneven_index uneven_entry_weight /\
  posting_trees_bounded uneven_index uneven_weight /\
  (forall b, (S (uneven_weight b) <= 4)%nat) /\
  (S (uneven_entry_weight (GIN_ROOT_BLKNO (Environment := example_env))) + 4
   <= 8)%nat /\
  gin_check_parent_keys_consistency (env := example_env) 8 uneven_index
    <> OutOfFuel.
Proof.
  split; [exact uneven_index_entry_tree_bounded|].
  split; [exact uneven_index_posting_trees_bounded|].
  split; [exact uneven_weight_most|].
  split; [vm_compute; lia|].
  apply (check_ends (env := example_env) uneven_index uneven_entry_weight
           uneven_weight 4 8 uneven_index_entry_tree_bounded
           uneven_index_posting_trees_bounded uneven_weight_most).
  vm_compute. lia.
Defined.

(** On [root_with_sibling_index], whose root has the right link 2. *)
Lemma earlier_root_with_sibling_witness :
  ReadBufferExtended root_with_sibling_index
    (GIN_ROOT_BLKNO (Environment := example_env)) =
    Ok (entry_page GIN_LEAF 2 [leaf_tuple 1]) /\
  check_index_page_earlier (env := example_env)
    (entry_page GIN_LEAF 2 [leaf_tuple 1]) 1 = Ok tt /\
  rightmost_by_link (entry_page GIN_LEAF 2 [leaf_tuple 1]) = false /\
  gin_check_parent_keys_consistency_earlier (env := example_env)
    rightmost_by_link item_pointer_compare no_right_bound 1
    root_with_sibling_index = Undefined null_pointer_dereference.
Proof.
  split; [reflexivity|]. split; [reflexivity|]. split; [reflexivity|].
  exact (earlier_root_with_sibling (env := example_env) rightmost_by_link
           item_pointer_compare no_right_bound 0 root_with_sibling_index
           (entry_page GIN_LEAF 2 [leaf_tuple 1]) eq_refl eq_refl eq_refl).
Defined.
